(** * lego-bot: the stock checker, the watch repository and the poll scheduler

    A shallow embedding of [lego_checker.py], [database.py] and the diff rule
    of [monitor.py], with the properties of the specification stated over it.

    Conventions of the embedding.
    - A Python [str] is a [string] (a sequence of bytes, UTF-8 for text that
      is not ASCII).  [str.lower] and [str.strip] act on the ASCII range only.
    - A parsed page (a [BeautifulSoup] tree) is a [node]: strings and tags
      with an attribute dictionary and children, in document order.  A
      string has the class the tree builder of [html.parser] gives it: the
      text inside a script, a style sheet or a template has the class of
      that container and is no plain [NavigableString], so that [get_text]
      on the page passes it over, as it passes over comments (bs4 4.11 and
      later).
    - Time is an integer number of milliseconds; the clock only moves while a
      request is in flight or while [time.sleep] runs.
    - Everything that leaves the process (an HTTP GET, what the parser makes
      of the body) is answered by a [world], about which nothing is assumed. *)

From Stdlib Require Import String Ascii List ZArith NArith Bool Lia Arith.
From Stdlib Require Import Numbers.DecimalString.
From Stdlib Require Import Sorting.Permutation.
Import ListNotations.

Open Scope string_scope.
Open Scope bool_scope.

#[local] Set Warnings "-register-all".

(* ================================================================== *)
(** ** Python strings *)
(* ================================================================== *)

Module PyStr.

(** [needle in hay] *)
Fixpoint str_in (needle hay : string) : bool :=
  String.prefix needle hay ||
  match hay with
  | EmptyString => false
  | String _ hay' => str_in needle hay'
  end.

(** [s.startswith(p)] *)
Definition startswith (s p : string) : bool := String.prefix p s.

Definition lower_ascii (c : ascii) : ascii :=
  let n := N_of_ascii c in
  if (65 <=? n)%N && (n <=? 90)%N then ascii_of_N (n + 32) else c.

(** [s.lower()] *)
Fixpoint lower (s : string) : string :=
  match s with
  | EmptyString => EmptyString
  | String c s' => String (lower_ascii c) (lower s')
  end.

(** [c.isspace()]: TAB, LF, VT, FF, CR, FS, GS, RS, US and the space. *)
Definition isspace (c : ascii) : bool :=
  let n := N_of_ascii c in
  ((9 <=? n)%N && (n <=? 13)%N) || ((28 <=? n)%N && (n <=? 32)%N).

Definition isdigit (c : ascii) : bool :=
  let n := N_of_ascii c in (48 <=? n)%N && (n <=? 57)%N.

Definition isalpha (c : ascii) : bool :=
  let n := N_of_ascii (lower_ascii c) in (97 <=? n)%N && (n <=? 122)%N.

Fixpoint lstrip (s : string) : string :=
  match s with
  | EmptyString => EmptyString
  | String c s' => if isspace c then lstrip s' else s
  end.

Fixpoint rstrip (s : string) : string :=
  match s with
  | EmptyString => EmptyString
  | String c s' =>
      match rstrip s' with
      | EmptyString => if isspace c then EmptyString else String c EmptyString
      | r => String c r
      end
  end.

(** [s.strip()] *)
Definition strip (s : string) : string := rstrip (lstrip s).

(** Truthiness of a string: [if s:] *)
Definition truthy (s : string) : bool :=
  match s with EmptyString => false | _ => true end.

(** [s.split()]: the maximal runs of characters that are not whitespace. *)
Fixpoint split_ws_aux (cur : string) (s : string) : list string :=
  match s with
  | EmptyString => if truthy cur then [cur] else []
  | String c s' =>
      if isspace c
      then (if truthy cur then [cur] else []) ++ split_ws_aux EmptyString s'
      else split_ws_aux (cur ++ String c EmptyString) s'
  end.

Definition split_ws (s : string) : list string := split_ws_aux EmptyString s.

(** [str(n)] for an integer *)
Definition str_of_Z (n : Z) : string := NilZero.string_of_int (Z.to_int n).

(** The first [n] characters of [s]: [s[:n]] *)
Fixpoint take (n : nat) (s : string) : string :=
  match n, s with
  | S n', String c s' => String c (take n' s')
  | _, _ => EmptyString
  end.

End PyStr.
Import PyStr.

(* ================================================================== *)
(** ** The regular expressions of the date extraction ([re.search]) *)
(* ================================================================== *)

Module Re.

(** The fragment of [re] the checker uses, always with [re.IGNORECASE]:
    literals, the classes [\s], [\d], [[A-Za-z]], greedy bounded repetition
    of a class, concatenation, alternation and one capturing group. *)
Inductive regex : Type :=
| Lit (c : ascii)
| Rep (cls : ascii -> bool) (rmin : nat) (rmax : option nat)
| Cat (r1 r2 : regex)
| Alt (r1 r2 : regex)
| Group (r : regex).

Definition Eps : regex := Rep (fun _ => false) 0 (Some 0).

Fixpoint lits (s : string) : regex :=
  match s with
  | EmptyString => Eps
  | String c EmptyString => Lit c
  | String c s' => Cat (Lit c) (lits s')
  end.

Definition plus (cls : ascii -> bool) : regex := Rep cls 1 None.
Definition seq (rs : list regex) : regex := fold_right Cat Eps rs.

(** The length of the longest run of [cls] at the head of [s], capped. *)
Fixpoint run (cls : ascii -> bool) (cap : option nat) (s : string) : nat :=
  match s with
  | EmptyString => 0
  | String c s' =>
      match cap with
      | Some 0 => 0
      | _ => if cls c
             then S (run cls (option_map Nat.pred cap) s')
             else 0
      end
  end.

Fixpoint drop (n : nat) (s : string) : string :=
  match n, s with
  | S n', String _ s' => drop n' s'
  | _, _ => s
  end.

(** The suffixes left after [k], [k-1], ..., [rmin] characters: greedy
    first, which is the order in which a backtracking matcher tries them. *)
Fixpoint greedy_rests (k rmin : nat) (s : string) : list string :=
  if (k <? rmin)%nat then []
  else drop k s ::
       match k with
       | 0 => []
       | S k' => greedy_rests k' rmin s
       end.

(** All the ways [r] matches at the head of [s], in the matcher's order
    of preference: the rest of the input and what the group captured. *)
Fixpoint matches (r : regex) (s : string) : list (string * option string) :=
  match r with
  | Lit c =>
      match s with
      | String d s' =>
          if Ascii.eqb (lower_ascii c) (lower_ascii d) then [(s', None)] else []
      | EmptyString => []
      end
  | Rep cls rmin rmax =>
      map (fun rest => (rest, None)) (greedy_rests (run cls rmax s) rmin s)
  | Cat r1 r2 =>
      flat_map (fun '(s1, g1) =>
                  map (fun '(s2, g2) =>
                         (s2, match g2 with Some _ => g2 | None => g1 end))
                      (matches r2 s1))
               (matches r1 s)
  | Alt r1 r2 => matches r1 s ++ matches r2 s
  | Group r1 =>
      map (fun '(s1, _) =>
             (s1, Some (take (String.length s - String.length s1) s)))
          (matches r1 s)
  end.

(** [re.search(r, s, re.IGNORECASE)], reduced to [match.group(1)]. *)
Fixpoint search (r : regex) (s : string) : option string :=
  match matches r s with
  | (_, g) :: _ => Some (match g with Some x => x | None => EmptyString end)
  | [] =>
      match s with
      | EmptyString => None
      | String _ s' => search r s'
      end
  end.

(** [[A-Za-z]+\s+\d{1,2},\s+\d{4}] *)
Definition date : regex :=
  seq [plus isalpha; plus isspace; Rep isdigit 1 (Some 2); Lit ",";
       plus isspace; Rep isdigit 4 (Some 4)].

(** [ship\s+from\s+([A-Za-z]+\s+\d{1,2},\s+\d{4})] *)
Definition ship_pattern : regex :=
  seq [lits "ship"; plus isspace; lits "from"; plus isspace; Group date].

(** [coming\s+soon\s+on\s+([A-Za-z]+\s+\d{1,2},\s+\d{4})] *)
Definition coming_pattern : regex :=
  seq [lits "coming"; plus isspace; lits "soon"; plus isspace; lits "on";
       plus isspace; Group date].

(** [available\s+([A-Za-z]+\s+\d{1,2},\s+\d{4})] *)
Definition available_pattern : regex :=
  seq [lits "available"; plus isspace; Group date].

(** [(?:ship|ships)\s+from\s+([A-Za-z]+\s+\d{1,2},\s+\d{4})] *)
Definition ships_pattern : regex :=
  seq [Alt (lits "ship") (lits "ships"); plus isspace; lits "from";
       plus isspace; Group date].

End Re.

(* ================================================================== *)
(** ** Parsed pages *)
(* ================================================================== *)

Module Soup.

(** The subclasses of [NavigableString] the tree builder uses: the text
    inside [<style>], [<script>], [<template>], [<rt>] and [<rp>] gets the
    class of its container, and comments, declarations and CDATA sections
    have classes of their own. *)
Inductive string_class : Type :=
| CData | Comment | Declaration | Doctype | ProcessingInstruction
| Stylesheet | Script | TemplateString | RubyTextString | RubyParenthesisString.

Definition string_class_eqb (a b : string_class) : bool :=
  match a, b with
  | CData, CData | Comment, Comment | Declaration, Declaration
  | Doctype, Doctype | ProcessingInstruction, ProcessingInstruction
  | Stylesheet, Stylesheet | Script, Script | TemplateString, TemplateString
  | RubyTextString, RubyTextString
  | RubyParenthesisString, RubyParenthesisString => true
  | _, _ => false
  end.

(** A [bs4] element: a [NavigableString] proper, a [Tag], or a string of
    one of the subclasses.  The document itself is the tag named
    [[document]]. *)
Inductive node : Type :=
| NavigableString (s : string)
| Tag (name : string) (attrs : list (string * string)) (contents : list node)
| ClassedString (cls : string_class) (s : string).

Definition BeautifulSoup_of (contents : list node) : node :=
  Tag "[document]" [] contents.

(** [tag.descendants]: every node below [n], in document order. *)
Fixpoint descendants (n : node) : list node :=
  match n with
  | Tag _ _ cs => flat_map (fun c => c :: descendants c) cs
  | NavigableString _ | ClassedString _ _ => []
  end.

(** [tag.get(key)] *)
Fixpoint lookup (key : string) (attrs : list (string * string)) : option string :=
  match attrs with
  | [] => None
  | (k, v) :: rest => if String.eqb k key then Some v else lookup key rest
  end.

Definition get_attr (n : node) (key : string) : option string :=
  match n with
  | Tag _ attrs _ => lookup key attrs
  | NavigableString _ | ClassedString _ _ => None
  end.

(** [tag.get(key, default)] *)
Definition get (n : node) (key default : string) : string :=
  match get_attr n key with Some v => v | None => default end.

Definition is_tag (name : string) (n : node) : bool :=
  match n with
  | Tag nm _ _ => String.eqb nm name
  | NavigableString _ | ClassedString _ _ => false
  end.

Definition has_attr (key value : string) (n : node) : bool :=
  match get_attr n key with
  | Some v => String.eqb v value
  | None => false
  end.

(** [tag.find_all(name)] *)
Definition find_all (name : string) (n : node) : list node :=
  filter (is_tag name) (descendants n).

(** [tag.find_all(name, {key: value})] *)
Definition find_all_attr (name key value : string) (n : node) : list node :=
  filter (fun d => is_tag name d && has_attr key value d) (descendants n).

(** [tag.find(name, {key: value})] *)
Definition find (name key value : string) (n : node) : option node :=
  hd_error (find_all_attr name key value n).

(** [builder.string_containers]: the tags whose text gets a class of its
    own. *)
Definition string_containers (name : string) : option string_class :=
  if String.eqb name "rt" then Some RubyTextString
  else if String.eqb name "rp" then Some RubyParenthesisString
  else if String.eqb name "style" then Some Stylesheet
  else if String.eqb name "script" then Some Script
  else if String.eqb name "template" then Some TemplateString
  else None.

(** [tag.interesting_string_types]: the one class of a string container,
    [None] for the default [(NavigableString, CData)]. *)
Definition interesting_string_types (n : node) : option string_class :=
  match n with
  | Tag name _ _ => string_containers name
  | NavigableString _ | ClassedString _ _ => None
  end.

(** The class the tree builder gives the strings below a tag: that of the
    innermost string container around them, [inside] when the tag is none
    itself. *)
Definition string_container (inside : option string_class) (name : string)
  : option string_class :=
  match string_containers name with
  | Some cls => Some cls
  | None => inside
  end.

(** The test of [_all_strings] on one string: it is kept when its class,
    [None] for a [NavigableString] proper, is exactly one of [types]. *)
Definition kept (types cls : option string_class) : bool :=
  match types, cls with
  | None, None | None, Some CData => true
  | Some type, Some cls => string_class_eqb cls type
  | _, _ => false
  end.

(** [tag._all_strings()] below [n], in document order.  A string written
    as a [NavigableString] below a string container stands for a string of
    the class of that container, which is what the tree builder makes of
    it. *)
Fixpoint all_strings (types inside : option string_class) (n : node) : list string :=
  match n with
  | NavigableString s => if kept types inside then [s] else []
  | ClassedString cls s => if kept types (Some cls) then [s] else []
  | Tag name _ cs =>
      flat_map (all_strings types (string_container inside name)) cs
  end.

(** The strings [get_text] visits. *)
Definition strings (n : node) : list string :=
  all_strings (interesting_string_types n) None n.

(** [tag.get_text()] *)
Definition get_text (n : node) : string := String.concat "" (strings n).

(** [tag.get_text(separator=sep, strip=True)]: every string is stripped,
    the empty ones are dropped, the rest is joined. *)
Definition get_text_strip (sep : string) (n : node) : string :=
  String.concat sep (filter truthy (map strip (strings n))).

(** *** The CSS selectors of the name and price extraction *)

Inductive selector : Type :=
| SelTag (name : string)                          (* [h1] *)
| SelTagAttr (name key value : string)            (* [h1[k="v"]] *)
| SelTagClass (name cls : string)                 (* [h1.c] *)
| SelAttr (key value : string)                    (* [[k="v"]] *)
| SelClass (cls : string)                         (* [.c] *)
| SelAttrContains (key part : string).            (* [[k*="p"]] *)

Definition has_class (cls : string) (n : node) : bool :=
  match get_attr n "class" with
  | Some v => existsb (String.eqb cls) (split_ws v)
  | None => false
  end.

Definition is_element (n : node) : bool :=
  match n with
  | Tag _ _ _ => true
  | NavigableString _ | ClassedString _ _ => false
  end.

Definition selects (sel : selector) (n : node) : bool :=
  match sel with
  | SelTag name => is_tag name n
  | SelTagAttr name key value => is_tag name n && has_attr key value n
  | SelTagClass name cls => is_tag name n && has_class cls n
  | SelAttr key value => has_attr key value n
  | SelClass cls => has_class cls n
  | SelAttrContains key part =>
      match get_attr n key with
      | Some v => is_element n && str_in part v
      | None => false
      end
  end.

(** [soup.select_one(selector)] *)
Definition select_one (sel : selector) (n : node) : option node :=
  hd_error (filter (selects sel) (descendants n)).

End Soup.
Import Soup.

(* ================================================================== *)
(** ** Stock results *)
(* ================================================================== *)

(** The values of the ['status'] key. *)
Inductive Status : Type :=
| in_stock | out_of_stock | pre_order | unknown | error.

Definition Status_eqb (a b : Status) : bool :=
  match a, b with
  | in_stock, in_stock | out_of_stock, out_of_stock | pre_order, pre_order
  | unknown, unknown | error, error => true
  | _, _ => false
  end.

Lemma Status_eqb_eq (a b : Status) : Status_eqb a b = true <-> a = b.
Proof. destruct a, b; simpl; split; intro H; congruence. Qed.

(** The dictionary [_check_stock_status] returns. *)
Record StockStatus : Type := mkStockStatus {
  available : bool;
  status : Status;
  message : string;
  button_detected : option string
}.

(** The dictionary [check_stock] returns: the four keys above and the three
    the orchestrator fills in. *)
Record StockResult : Type := mkStockResult {
  stock :> StockStatus;
  set_name : string;
  price : option string;
  url : string
}.

(* ================================================================== *)
(** ** The status classifier ([lego_checker.py], lines 237-492) *)
(* ================================================================== *)

Module Classifier.

Definition name_selectors : list selector :=
  [ SelTagAttr "h1" "data-test" "product-overview-name";
    SelTagClass "h1" "product-overview__name";
    SelTag "h1";
    SelAttr "data-test" "product-title";
    SelClass "product-title" ].

Fixpoint first_name (selectors : list selector) (soup : node) : option string :=
  match selectors with
  | [] => None
  | sel :: rest =>
      match select_one sel soup with
      | Some element =>
          let name := get_text_strip "" element in
          if truthy name then Some name else first_name rest soup
      | None => first_name rest soup
      end
  end.

Definition _extract_set_name (soup : node) (set_code : string) : string :=
  match first_name name_selectors soup with
  | Some name => name
  | None => "LEGO Set " ++ set_code
  end.

Definition price_selectors : list selector :=
  [ SelAttr "data-test" "product-price";
    SelClass "product-price";
    SelClass "price";
    SelAttrContains "class" "price" ].

Fixpoint first_price (selectors : list selector) (soup : node) : option string :=
  match selectors with
  | [] => None
  | sel :: rest =>
      match select_one sel soup with
      | Some element =>
          let price := get_text_strip "" element in
          if truthy price &&
             (str_in "$" price || str_in "€" price || str_in "£" price)
          then Some price
          else first_price rest soup
      | None => first_price rest soup
      end
  end.

Definition _extract_price (soup : node) : option string :=
  first_price price_selectors soup.

Definition skip_keywords : list string :=
  ["wishlist"; "close"; "cancel"; "dismiss"; "x"].

Definition purchase_keywords : list string :=
  ["add to bag"; "add to cart"; "pre-order"; "preorder"; "buy"; "purchase"].

(** The test of line 323. *)
Definition skipped (button : node) : bool :=
  let button_text := get_text_strip " " button in
  let button_aria := get button "aria-label" "" in
  let button_text_lower := if truthy button_text then lower button_text else "" in
  let button_aria_lower := if truthy button_aria then lower button_aria else "" in
  existsb (fun keyword => str_in keyword button_text_lower
                          || str_in keyword button_aria_lower)
          skip_keywords.

(** The loop of lines 312-335 over the buttons of the container. *)
Fixpoint scan_buttons (buttons : list node) : option string :=
  match buttons with
  | [] => None
  | button :: rest =>
      let button_text := get_text_strip " " button in
      let button_aria := get button "aria-label" "" in
      let button_data_test := get button "data-test" "" in
      let button_text_lower := if truthy button_text then lower button_text else "" in
      let button_aria_lower := if truthy button_aria then lower button_aria else "" in
      let button_data_test_lower :=
        if truthy button_data_test then lower button_data_test else "" in
      if skipped button then scan_buttons rest
      else if existsb (fun keyword => str_in keyword button_text_lower) purchase_keywords
              || existsb (fun keyword => str_in keyword button_aria_lower) purchase_keywords
              || str_in "add-to-cart" button_data_test_lower
      then if truthy button_text then Some button_text
           else if truthy button_aria then Some button_aria
           else scan_buttons rest
      else scan_buttons rest
  end.

Definition _detect_button (soup : node) : option string :=
  match find "div" "data-test" "add-to-bag-sticky-container" soup with
  | None => None
  | Some sticky_container => scan_buttons (find_all "button" sticky_container)
  end.

Definition _extract_shipping_date (soup : node) : option string :=
  let page_text := get_text soup in
  match Re.search Re.ship_pattern page_text with
  | Some d => Some ("Ships from " ++ d)
  | None =>
      match Re.search Re.coming_pattern page_text with
      | Some d => Some ("Available " ++ d)
      | None =>
          match Re.search Re.available_pattern page_text with
          | Some d => Some ("Available " ++ d)
          | None => None
          end
      end
  end.

Definition out_of_stock_keywords : list string :=
  ["out of stock"; "sold out"; "unavailable"; "temporarily out of stock"].

(** Lines 393-460: the scan of the page text. *)
Definition text_tier (soup : node) (page_text : string)
           (button_detected : option string) : StockStatus :=
  if str_in "pre-order" page_text || str_in "preorder" page_text then
    let message :=
      match _extract_shipping_date soup with
      | Some shipping_info => "Pre-Order - " ++ shipping_info
      | None =>
          if str_in "ship from" page_text || str_in "ships from" page_text then
            match Re.search Re.ships_pattern page_text with
            | Some d => "Pre-Order - Ships from " ++ d
            | None => "Pre-Order Available"
            end
          else "Pre-Order Available"
      end in
    mkStockStatus false pre_order message button_detected
  else if str_in "coming soon" page_text then
    let message :=
      match _extract_shipping_date soup with
      | Some shipping_info => "Coming Soon - " ++ shipping_info
      | None => "Coming Soon"
      end in
    mkStockStatus false pre_order message button_detected
  else if str_in "available now" page_text then
    mkStockStatus true in_stock "In Stock" button_detected
  else if existsb (fun keyword => str_in keyword page_text) out_of_stock_keywords then
    mkStockStatus false out_of_stock "Out of Stock" button_detected
  else if existsb (fun keyword => str_in keyword page_text)
                  ["in stock"; "add to cart"; "add to bag"] then
    mkStockStatus true in_stock "In Stock" button_detected
  else
    mkStockStatus false unknown "Status Unknown" button_detected.

Definition _check_stock_status (soup : node) : StockStatus :=
  let page_text := lower (get_text soup) in
  let button_detected := _detect_button soup in
  match find "meta" "property" "product:availability" soup with
  | Some availability_meta =>
      let availability_content := lower (get availability_meta "content" "") in
      if str_in "in stock" availability_content
         || str_in "instock" availability_content then
        mkStockStatus true in_stock "In Stock" button_detected
      else if str_in "out of stock" availability_content
              || str_in "outofstock" availability_content
              || str_in "oos" availability_content then
        mkStockStatus false out_of_stock "Out of Stock" button_detected
      else if str_in "preorder" availability_content
              || str_in "pre-order" availability_content
              || str_in "preorder" availability_content then
        let message :=
          match _extract_shipping_date soup with
          | Some shipping_info => "Pre-Order - " ++ shipping_info
          | None => "Pre-Order Available"
          end in
        mkStockStatus false pre_order message button_detected
      else if str_in "backorder" availability_content then
        mkStockStatus false out_of_stock "Backorder" button_detected
      else text_tier soup page_text button_detected
  | None => text_tier soup page_text button_detected
  end.

End Classifier.
Import Classifier.

(* ================================================================== *)
(** ** The fetch client and the orchestrator ([lego_checker.py], lines 13-235) *)
(* ================================================================== *)

Module Checker.

Open Scope Z_scope.

(** What [BeautifulSoup(response.content, 'html.parser')] makes of a body. *)
Inductive Markup : Type :=
| Unparseable (msg : string)
| Parses (soup : node).

Record Response : Type := mkResponse {
  status_code : Z;
  reason : string;
  content : Markup
}.

(** [session.get(url, timeout=15)] returns a response or raises. *)
Inductive GetOutcome : Type :=
| GetRaises (msg : string)
| GetReturns (r : Response).

(** The outside of the process.  The [n]-th request of a run is answered
    by [http_get n] and is in flight for [latency n] milliseconds;
    [time.sleep] may overshoot by [oversleep n]. *)
Record World : Type := mkWorld {
  http_get : nat -> string -> GetOutcome;
  latency : nat -> N;
  oversleep : nat -> N
}.

Inductive RequestKind : Type :=
| Warmup        (* line 40 *)
| PageGet       (* line 166 *)
| PageRetry     (* line 180 *)
| SearchGet.    (* line 83 *)

(** One HTTP request, as it went over the wire. *)
Record Event : Type := mkEvent {
  ev_kind : RequestKind;
  ev_url : string;
  ev_start : Z;
  ev_end : Z;
  ev_outcome : GetOutcome
}.

(** The fields of a [LEGOChecker] ([rate_limit_delay], [last_request_time],
    [session], the latter reduced to a generation number), the clock
    [time.time()] reads, and the requests issued so far, oldest first. *)
Record State : Type := mkState {
  rate_limit_delay : Z;
  last_request_time : Z;
  session : nat;
  now : Z;
  log : list Event
}.

(** *** Statements that may raise

    A Python statement runs in a state and either returns or raises an
    [Exception] carrying [str(e)]; the state it leaves behind is kept in
    both cases. *)
Inductive Outcome (A : Type) : Type :=
| Returns (a : A)
| Raises (msg : string).
Arguments Returns {A} a.
Arguments Raises {A} msg.

Definition M (A : Type) : Type := State -> Outcome A * State.

Definition ret {A} (a : A) : M A := fun st => (Returns a, st).

Definition raise {A} (msg : string) : M A := fun st => (Raises msg, st).

Definition bind {A B} (c : M A) (k : A -> M B) : M B :=
  fun st =>
    match c st with
    | (Returns a, st') => k a st'
    | (Raises msg, st') => (Raises msg, st')
    end.

(** [try: body  except Exception as e: handler(str(e))] *)
Definition try_except {A} (body : M A) (handler : string -> M A) : M A :=
  fun st =>
    match body st with
    | (Returns a, st') => (Returns a, st')
    | (Raises msg, st') => handler msg st'
    end.

Notation "x <- c1 ;; c2" := (bind c1 (fun x => c2))
  (at level 61, c1 at next level, right associativity).
Notation "c1 ;;; c2" := (bind c1 (fun _ => c2))
  (at level 61, right associativity).

Definition BASE_URL : string := "https://www.lego.com".

Section WithWorld.

Variable w : World.

(** [time.sleep(d)] *)
Definition time_sleep (d : Z) : M unit :=
  fun st =>
    (Returns tt,
     mkState (rate_limit_delay st) (last_request_time st) (session st)
             (now st + d + Z.of_N (oversleep w (length (log st))))
             (log st)).

Definition _rate_limit : M unit :=
  fun st =>
    let current_time := now st in
    let time_since_last := current_time - last_request_time st in
    let '(_, st1) :=
      if time_since_last <? rate_limit_delay st
      then time_sleep (rate_limit_delay st - time_since_last) st
      else (Returns tt, st) in
    (Returns tt,
     mkState (rate_limit_delay st1) (now st1) (session st1) (now st1) (log st1)).

(** [self.session.get(url, timeout=15)] *)
Definition session_get (kind : RequestKind) (url : string) : M Response :=
  fun st =>
    let n := length (log st) in
    let out := http_get w n url in
    let finished := now st + Z.of_N (latency w n) in
    let st' :=
      mkState (rate_limit_delay st) (last_request_time st) (session st)
              finished
              (log st ++ [mkEvent kind url (now st) finished out]) in
    match out with
    | GetRaises msg => (Raises msg, st')
    | GetReturns r => (Returns r, st')
    end.

(** [self.session = cloudscraper.create_scraper(...)] *)
Definition create_scraper : M unit :=
  fun st =>
    (Returns tt,
     mkState (rate_limit_delay st) (last_request_time st) (S (session st))
             (now st) (log st)).

Definition _initialize_session : M unit :=
  try_except (session_get Warmup BASE_URL ;;; ret tt)
             (fun _ => ret tt).

(** [LEGOChecker(rate_limit_delay)], constructed when the clock reads [t0]. *)
Definition LEGOChecker (delay t0 : Z) : State :=
  snd (_initialize_session (mkState delay 0 0 t0 [])).

(** [response.raise_for_status()] *)
Definition raise_for_status (url : string) (r : Response) : M unit :=
  if (400 <=? status_code r) && (status_code r <? 500) then
    raise (str_of_Z (status_code r) ++ " Client Error: " ++ reason r
           ++ " for url: " ++ url)
  else if (500 <=? status_code r) && (status_code r <? 600) then
    raise (str_of_Z (status_code r) ++ " Server Error: " ++ reason r
           ++ " for url: " ++ url)
  else ret tt.

(** [BeautifulSoup(response.content, 'html.parser')] *)
Definition BeautifulSoup (r : Response) : M node :=
  match content r with
  | Unparseable msg => raise msg
  | Parses soup => ret soup
  end.

Definition _get_product_urls (set_code : string) : list string :=
  [ BASE_URL ++ "/en-us/product/" ++ set_code;
    BASE_URL ++ "/en-us/product/lego-set-" ++ set_code;
    BASE_URL ++ "/product/" ++ set_code ].

(** The result built at lines 201-209. *)
Definition page_result (url : string) (soup : node) (set_code : string)
  : StockResult :=
  let set_name := _extract_set_name soup set_code in
  let price := _extract_price soup in
  let stock_status := _check_stock_status soup in
  mkStockResult
    (mkStockStatus (available stock_status) (status stock_status)
                   (message stock_status) (button_detected stock_status))
    set_name price url.

(** The result built at lines 217-235. *)
Definition error_result (url set_code message : string) : StockResult :=
  mkStockResult (mkStockStatus false error message None)
                ("Set " ++ set_code) None url.

(** The [try] block of [_fetch_product_page], lines 166-209. *)
Definition fetch_try (url set_code : string) : M StockResult :=
  response <- session_get PageGet url ;;
  response <- (if status_code response =? 403
               then create_scraper ;;;
                    _initialize_session ;;;
                    session_get PageRetry url
               else ret response) ;;
  raise_for_status url response ;;;
  soup <- BeautifulSoup response ;;
  ret (page_result url soup set_code).

(** The [except] block of [_fetch_product_page], lines 211-235. *)
Definition fetch_except (url set_code error_msg : string) : M StockResult :=
  if str_in "403" error_msg || str_in "Forbidden" error_msg
  then ret (error_result url set_code
              "403 Forbidden: LEGO.com is blocking automated requests. Please try again later.")
  else ret (error_result url set_code
              ("Error fetching product page: " ++ error_msg)).

Definition _fetch_product_page (url set_code : string) : M StockResult :=
  _rate_limit ;;;
  try_except (fetch_try url set_code) (fetch_except url set_code).

(** Lines 90-98: the first link of the search page that names the set. *)
Fixpoint first_product_link (product_links : list node) (set_code : string)
  : option string :=
  match product_links with
  | [] => None
  | link :: rest =>
      let href := get link "href" "" in
      if str_in "/en-us/product/" href && str_in set_code href
      then if startswith href "/" then Some (BASE_URL ++ href) else Some href
      else first_product_link rest set_code
  end.

Definition has_href (n : node) : bool :=
  match get_attr n "href" with Some _ => true | None => false end.

Definition _search_for_set (set_code : string) : M (option string) :=
  _rate_limit ;;;
  let search_url := BASE_URL ++ "/en-us/search?q=" ++ set_code in
  try_except
    (response <- session_get SearchGet search_url ;;
     raise_for_status search_url response ;;;
     soup <- BeautifulSoup response ;;
     let product_links := filter has_href (find_all "a" soup) in
     ret (first_product_link product_links set_code))
    (fun _ => ret None).

(** The loop of lines 124-132; [Some result] is the early [return]. *)
Fixpoint try_urls (urls : list string) (set_code : string)
  : M (option StockResult) :=
  match urls with
  | [] => ret None
  | product_url :: rest =>
      result <- _fetch_product_page product_url set_code ;;
      if negb (Status_eqb (status result) error) then ret (Some result)
      else if str_in "403" (message result) || str_in "Forbidden" (message result)
      then try_urls rest set_code
      else try_urls rest set_code
  end.

Definition unable_message : string :=
  "Unable to access LEGO.com. The site may be blocking automated requests. Please try again later or check the set code.".

(** The result built at lines 143-151. *)
Definition final_error (urls : list string) (set_code : string) : StockResult :=
  mkStockResult (mkStockStatus false error unable_message None)
                ("Set " ++ set_code) None
                (match urls with
                 | first :: _ => first
                 | [] => BASE_URL ++ "/en-us/product/" ++ set_code
                 end).

Definition check_stock (set_code : string) : M StockResult :=
  let set_code := strip set_code in
  let urls := _get_product_urls set_code in
  found <- try_urls urls set_code ;;
  match found with
  | Some result => ret result
  | None =>
      search_url <- _search_for_set set_code ;;
      found <- match search_url with
               | Some search_url =>
                   if truthy search_url then
                     result <- _fetch_product_page search_url set_code ;;
                     if negb (Status_eqb (status result) error)
                     then ret (Some result)
                     else ret None
                   else ret None
               | None => ret None
               end ;;
      match found with
      | Some result => ret result
      | None => ret (final_error urls set_code)
      end
  end.

End WithWorld.

End Checker.
Import Checker.

(* ================================================================== *)
(** ** The watch repository ([database.py]) *)
(* ================================================================== *)

Module Database.

Open Scope Z_scope.

(** A row of [watched_sets].  [None] is SQL's [NULL]; timestamps are
    clock readings. *)
Record Watch : Type := mkWatch {
  id : Z;
  user_id : Z;
  guild_id : option Z;
  set_code : string;
  last_status : option Status;
  last_button_detected : option string;
  last_checked : option Z;
  created_at : Z
}.

(** The table, in insertion order, and the counter behind
    [INTEGER PRIMARY KEY AUTOINCREMENT]. *)
Record Db : Type := mkDb {
  watched_sets : list Watch;
  sqlite_sequence : Z
}.

Definition empty : Db := mkDb [] 0.

(** [column = ?] with a parameter that may be [NULL]: a comparison with
    [NULL] is never true. *)
Definition sql_eq (column param : option Z) : bool :=
  match column, param with
  | Some a, Some b => a =? b
  | _, _ => false
  end.

(** [WHERE user_id = ? AND guild_id = ? AND set_code = ?] *)
Definition where_triple (user_id : Z) (guild_id : option Z) (set_code : string)
           (row : Watch) : bool :=
  (row.(Database.user_id) =? user_id)
  && sql_eq row.(Database.guild_id) guild_id
  && String.eqb row.(Database.set_code) set_code.

(** [UNIQUE(user_id, guild_id, set_code)]: two rows conflict when the three
    columns are equal and none of them is [NULL]. *)
Definition violates_unique (user_id : Z) (guild_id : option Z) (set_code : string)
           (db : Db) : bool :=
  existsb (where_triple user_id guild_id set_code) (watched_sets db).

(** [INSERT OR IGNORE INTO watched_sets (user_id, guild_id, set_code,
    last_status, last_checked) VALUES (?, ?, ?, NULL, NULL)].  The row id
    is drawn from the counter before the constraint is checked: an insert
    that is ignored stores no row, and the counter has advanced all the
    same. *)
Definition insert_or_ignore (user_id : Z) (guild_id : option Z) (set_code : string)
           (current_timestamp : Z) (db : Db) : Db :=
  let rowid := sqlite_sequence db + 1 in
  if violates_unique user_id guild_id set_code db
  then mkDb (watched_sets db) rowid
  else
    mkDb (watched_sets db
            ++ [mkWatch rowid user_id guild_id set_code None None None
                        current_timestamp])
         rowid.

(** [SELECT COUNT( * ) FROM watched_sets WHERE user_id = ? AND guild_id = ?
    AND set_code = ?] *)
Definition count_triple (user_id : Z) (guild_id : option Z) (set_code : string)
           (db : Db) : Z :=
  Z.of_nat (length (filter (where_triple user_id guild_id set_code)
                           (watched_sets db))).

(** [add_watch(user_id, set_code, guild_id)]: the insert, then
    [return result[0] > 0]. *)
Definition add_watch (user_id : Z) (set_code : string) (guild_id : option Z)
           (current_timestamp : Z) (db : Db) : bool * Db :=
  let db' := insert_or_ignore user_id guild_id set_code current_timestamp db in
  (0 <? count_triple user_id guild_id set_code db', db').

(** [UPDATE watched_sets SET last_status = ?, last_button_detected = ?,
    last_checked = ? WHERE id = ?] *)
Definition update_watch_status (watch_id : Z) (status : Status) (available : bool)
           (button_detected : option string) (datetime_now : Z) (db : Db) : Db :=
  mkDb (map (fun row =>
               if row.(id) =? watch_id
               then mkWatch row.(id) row.(Database.user_id) row.(Database.guild_id)
                            row.(Database.set_code) (Some status) button_detected
                            (Some datetime_now) row.(created_at)
               else row)
            (watched_sets db))
       (sqlite_sequence db).

(** [SELECT ... FROM watched_sets WHERE id = ?], then [fetchone()] *)
Definition get_watch_by_id (watch_id : Z) (db : Db) : option Watch :=
  List.find (fun row => row.(id) =? watch_id) (watched_sets db).

(** [DELETE FROM watched_sets WHERE user_id = ? AND guild_id = ? AND
    set_code = ?], then [return cursor.rowcount > 0]. *)
Definition remove_watch (user_id : Z) (set_code : string) (guild_id : option Z)
           (db : Db) : bool * Db :=
  let rowcount :=
    Z.of_nat (length (filter (where_triple user_id guild_id set_code)
                             (watched_sets db))) in
  (0 <? rowcount,
   mkDb (filter (fun row => negb (where_triple user_id guild_id set_code row))
                (watched_sets db))
        (sqlite_sequence db)).

(** [ORDER BY]: a sort that keeps rows with equal keys in table order
    (SQLite leaves the order of such rows open). *)
Fixpoint insert_by {A} (le : A -> A -> bool) (x : A) (l : list A) : list A :=
  match l with
  | [] => [x]
  | y :: l' => if le x y then x :: l else y :: insert_by le x l'
  end.

Fixpoint order_by {A} (le : A -> A -> bool) (l : list A) : list A :=
  match l with
  | [] => []
  | x :: l' => insert_by le x (order_by le l')
  end.

(** The keys of a row returned by [get_user_watches]. *)
Record UserWatch : Type := mkUserWatch {
  uw_set_code : string;
  uw_last_status : option Status;
  uw_last_checked : option Z;
  uw_created_at : Z
}.

(** [SELECT set_code, last_status, last_checked, created_at FROM watched_sets
    WHERE user_id = ? AND guild_id = ? ORDER BY created_at DESC] *)
Definition get_user_watches (user_id : Z) (guild_id : option Z) (db : Db)
  : list UserWatch :=
  map (fun row => mkUserWatch row.(Database.set_code) row.(Database.last_status)
                              row.(last_checked) row.(created_at))
      (order_by (fun a b => b.(created_at) <=? a.(created_at))
                (filter (fun row => (row.(Database.user_id) =? user_id)
                                    && sql_eq row.(Database.guild_id) guild_id)
                        (watched_sets db))).

(** [last_checked ASC, created_at ASC]; [NULL] sorts before every value. *)
Definition checked_before (a b : Watch) : bool :=
  match a.(last_checked), b.(last_checked) with
  | None, None => a.(created_at) <=? b.(created_at)
  | None, Some _ => true
  | Some _, None => false
  | Some x, Some y => (x <? y) || ((x =? y) && (a.(created_at) <=? b.(created_at)))
  end.

(** [SELECT id, user_id, guild_id, set_code, last_status,
    last_button_detected, last_checked FROM watched_sets
    ORDER BY last_checked ASC, created_at ASC] *)
Definition get_all_watches (db : Db) : list Watch :=
  order_by checked_before (watched_sets db).

(** A row of [server_settings]; [guild_id] is its primary key. *)
Record ServerSetting : Type := mkServerSetting {
  ss_guild_id : Z;
  notification_channel_id : Z;
  updated_at : Z
}.

(** [INSERT OR REPLACE INTO server_settings (guild_id,
    notification_channel_id, updated_at) VALUES (?, ?, ?)]: the row of the
    guild, if any, is deleted and the new one inserted. *)
Definition set_notification_channel (guild_id channel_id datetime_now : Z)
           (settings : list ServerSetting) : list ServerSetting :=
  filter (fun row => negb (row.(ss_guild_id) =? guild_id)) settings
  ++ [mkServerSetting guild_id channel_id datetime_now].

(** [SELECT notification_channel_id FROM server_settings WHERE guild_id = ?],
    then [return row[0] if row and row[0] else None]. *)
Definition get_notification_channel (guild_id : Z) (settings : list ServerSetting)
  : option Z :=
  match List.find (fun row => row.(ss_guild_id) =? guild_id) settings with
  | Some row =>
      if row.(notification_channel_id) =? 0 then None
      else Some row.(notification_channel_id)
  | None => None
  end.

(** [DELETE FROM server_settings WHERE guild_id = ?] *)
Definition clear_notification_channel (guild_id : Z) (settings : list ServerSetting)
  : list ServerSetting :=
  filter (fun row => negb (row.(ss_guild_id) =? guild_id)) settings.

End Database.

(* ================================================================== *)
(** ** The diff rule of the poll scheduler ([monitor.py], lines 83-132) *)
(* ================================================================== *)

Module Monitor.

Import Database.

(** A call of one of the two notification routines, with its arguments. *)
Inductive Notification : Type :=
| _send_notification
    (user_id : Z) (guild_id : option Z) (set_code : string)
    (result : StockResult) (old_status new_status : Status)
| _send_button_notification
    (user_id : Z) (guild_id : option Z) (set_code : string)
    (result : StockResult) (old_button new_button : option string).

(** The checker, the repository and the notifications sent so far. *)
Record MonitorState : Type := mkMonitorState {
  lego_checker : State;
  db : Db;
  sent : list Notification
}.

(** [a != b] on optional strings *)
Definition differs (a b : option string) : bool :=
  match a, b with
  | None, None => false
  | Some x, Some y => negb (String.eqb x y)
  | _, _ => true
  end.

Definition is_none {A} (a : option A) : bool :=
  match a with None => true | Some _ => false end.

(** Lines 108-116. *)
Definition button_changed (last_button_detected current_button_detected : option string)
  : bool :=
  if differs last_button_detected current_button_detected then
    if is_none last_button_detected && negb (is_none current_button_detected)
    then true
    else if negb (is_none last_button_detected)
            && differs current_button_detected last_button_detected
    then true
    else false
  else false.

Definition _check_watch (w : World) (watch : Watch) (ms : MonitorState)
  : Outcome unit * MonitorState :=
  let watch_id := watch.(id) in
  let user_id := watch.(Database.user_id) in
  let guild_id := watch.(Database.guild_id) in
  let set_code := watch.(Database.set_code) in
  let last_status := watch.(Database.last_status) in
  let last_button_detected := watch.(Database.last_button_detected) in
  match check_stock w set_code (lego_checker ms) with
  | (Raises msg, checker') => (Raises msg, mkMonitorState checker' (db ms) (sent ms))
  | (Returns result, checker') =>
      let current_status := status result in
      let current_button_detected := button_detected result in
      let db' := update_watch_status watch_id current_status (available result)
                                     current_button_detected (now checker') (db ms) in
      let status_changed :=
        match last_status with
        | Some last => negb (Status_eqb last current_status)
        | None => false
        end in
      let button_changed :=
        button_changed last_button_detected current_button_detected in
      match last_status with
      | None => (Returns tt, mkMonitorState checker' db' (sent ms))
      | Some last =>
          if status_changed then
            (Returns tt,
             mkMonitorState checker' db'
               (sent ms ++ [_send_notification user_id guild_id set_code result
                                               last current_status]))
          else if button_changed then
            (Returns tt,
             mkMonitorState checker' db'
               (sent ms ++ [_send_button_notification user_id guild_id set_code result
                              last_button_detected current_button_detected]))
          else (Returns tt, mkMonitorState checker' db' (sent ms))
      end
  end.

(** The two headings of a button notification. *)
Inductive ButtonHeading : Type :=
| Button_Detected     (* line 287 *)
| Button_Changed.     (* line 291 *)

(** Lines 286-295 of [_send_button_notification]: the heading of the
    message, or [None] for the [return] of line 295. *)
Definition button_heading (old_button new_button : option string)
  : option ButtonHeading :=
  if is_none old_button && negb (is_none new_button) then Some Button_Detected
  else if negb (is_none old_button) && differs new_button old_button
  then Some Button_Changed
  else None.

(** The four headings of a status notification, lines 160-175. *)
Inductive StatusHeading : Type :=
| Now_In_Stock          (* line 161 *)
| Out_Of_Stock          (* line 165 *)
| Available_For_PreOrder  (* line 169 *)
| Status_Changed.       (* line 173 *)

(** Lines 160-175 of [_send_notification]: the heading and the colour of
    the message. *)
Definition status_heading (new_status : Status) (available : bool)
  : StatusHeading * Z :=
  if Status_eqb new_status in_stock && available then (Now_In_Stock, 65280%Z)
  else if Status_eqb new_status out_of_stock then (Out_Of_Stock, 16711680%Z)
  else if Status_eqb new_status pre_order then (Available_For_PreOrder, 16755200%Z)
  else (Status_Changed, 39423%Z).

(** The loop of lines 74-81.  [running i] is what [self.running] reads
    before the [i]-th watch; what a check raises is logged and dropped. *)
Fixpoint check_watches (w : World) (running : nat -> bool) (i : nat)
         (watches : list Watch) (ms : MonitorState) : MonitorState :=
  match watches with
  | [] => ms
  | watch :: rest =>
      if negb (running i) then ms
      else check_watches w running (S i) rest (snd (_check_watch w watch ms))
  end.

(** [_check_all_watches], lines 64-81. *)
Definition _check_all_watches (w : World) (running : nat -> bool)
           (ms : MonitorState) : MonitorState :=
  let watches := get_all_watches (db ms) in
  match watches with
  | [] => ms
  | _ => check_watches w running 0 watches ms
  end.

End Monitor.

(* ================================================================== *)
(** ** The watch commands ([bot.py], lines 63-101 and 173-243) *)
(* ================================================================== *)

Module Bot.

Import Database.

(** [get_status_color] *)
Definition get_status_color (status : Status) : Z :=
  match status with
  | in_stock => 65280%Z
  | out_of_stock => 16711680%Z
  | pre_order => 16755200%Z
  | unknown => 8421504%Z
  | error => 16711680%Z
  end.

(** The five marks [get_status_emoji] chooses from. *)
Inductive StatusMark : Type :=
| Check_Mark | Cross_Mark | Alarm_Clock | Warning_Sign | Question_Mark.

(** [get_status_emoji] *)
Definition get_status_emoji (status : Status) (available : bool) : StatusMark :=
  if Status_eqb status in_stock && available then Check_Mark
  else if Status_eqb status out_of_stock then Cross_Mark
  else if Status_eqb status pre_order then Alarm_Clock
  else if Status_eqb status error then Warning_Sign
  else Question_Mark.

(** What the [watch] command answers. *)
Inductive WatchReply : Type :=
| Could_Not_Find                          (* line 184 *)
| Added_To_Watchlist (result : StockResult)   (* line 195 *)
| Already_In_Watchlist.                   (* line 204 *)

(** The [watch] command, lines 175-207, for the user [user_id] typing
    [set_code] in the guild [guild_id] ([None] in a direct message). *)
Definition watch (w : World) (user_id : Z) (guild_id : option Z)
           (set_code : string) (lego_checker : State) (db : Db)
  : Outcome WatchReply * State * Db :=
  match check_stock w set_code lego_checker with
  | (Raises msg, checker') => (Raises msg, checker', db)
  | (Returns result, checker') =>
      if Status_eqb (status result) error
      then (Returns Could_Not_Find, checker', db)
      else
        let '(success, db') := add_watch user_id set_code guild_id (now checker') db in
        if success
        then (Returns (Added_To_Watchlist result), checker', db')
        else (Returns Already_In_Watchlist, checker', db')
  end.

(** What the [unwatch] command answers. *)
Inductive UnwatchReply : Type :=
| Removed                (* line 228 *)
| Not_In_Watchlist.      (* line 233 *)

(** The [unwatch] command, lines 219-236. *)
Definition unwatch (user_id : Z) (guild_id : option Z) (set_code : string)
           (db : Db) : UnwatchReply * Db :=
  let '(success, db') := remove_watch user_id set_code guild_id db in
  if success then (Removed, db') else (Not_In_Watchlist, db').

End Bot.
(* ================================================================== *)
(** ** The vocabulary of the properties *)
(* ================================================================== *)

Module Wire.

Open Scope Z_scope.

(** The page a response carries, when [raise_for_status] lets it through
    and the parser accepts its body. *)
Definition usable (r : Response) : option node :=
  if (400 <=? status_code r) && (status_code r <? 500) then None
  else if (500 <=? status_code r) && (status_code r <? 600) then None
  else match content r with Parses soup => Some soup | Unparseable _ => None end.

(** A product page was delivered by request [e]: a request of a page
    fetch (not the warm-up, not the search) that was answered by a usable
    response. *)
Definition delivered (e : Event) : option node :=
  match ev_kind e, ev_outcome e with
  | (PageGet | PageRetry), GetReturns r => usable r
  | _, _ => None
  end.

(** The requests that wait for the rate limiter: the first request of a
    page fetch and the search request. *)
Definition paced (e : Event) : bool :=
  match ev_kind e with
  | PageGet | SearchGet => true
  | Warmup | PageRetry => false
  end.

(** One operation that went through [_rate_limit]: it starts with a paced
    request, sent at the time the timer now holds, which is at least the
    delay after what the timer held; nothing else it sends is paced. *)
Definition paced_op (st st' : State) (new : list Event) : Prop :=
  log st' = (log st ++ new)%list
  /\ rate_limit_delay st' = rate_limit_delay st
  /\ last_request_time st + rate_limit_delay st <= last_request_time st'
  /\ exists e1 rest,
      new = e1 :: rest /\ paced e1 = true
      /\ ev_start e1 = last_request_time st'
      /\ Forall (fun e => paced e = false) rest.

(** A run of operations that each went through [_rate_limit]. *)
Inductive paced_ops : State -> State -> list Event -> Prop :=
| paced_ops_nil st : paced_ops st st []
| paced_ops_cons st st1 st2 new1 new2 :
    paced_op st st1 new1 -> paced_ops st1 st2 new2 ->
    paced_ops st st2 (new1 ++ new2)%list.

(** Consecutive paced requests start at least [d] apart; [prev] is the
    start of the last paced request seen so far. *)
Fixpoint spaced_after (d : Z) (prev : option Z) (events : list Event) : Prop :=
  match events with
  | [] => True
  | e :: rest =>
      if paced e
      then match prev with
           | Some t => t + d <= ev_start e
           | None => True
           end /\ spaced_after d (Some (ev_start e)) rest
      else spaced_after d prev rest
  end.

Fixpoint last_paced (prev : option Z) (events : list Event) : option Z :=
  match events with
  | [] => prev
  | e :: rest => last_paced (if paced e then Some (ev_start e) else prev) rest
  end.

Definition before (t : option Z) (bound : Z) : Prop :=
  match t with Some x => x <= bound | None => True end.

(** The invariant of the timer: the paced requests of the log are spaced,
    and none started after the time the timer holds. *)
Definition timer_inv (st : State) : Prop :=
  spaced_after (rate_limit_delay st) None (log st)
  /\ before (last_paced None (log st)) (last_request_time st).

(** The reading of the claim as it is written: between the end of a
    request and the start of the next one, at least [d] elapses. *)
Fixpoint min_interval_respected (d : Z) (events : list Event) : Prop :=
  match events with
  | e1 :: ((e2 :: _) as rest) =>
      ev_end e1 + d <= ev_start e2 /\ min_interval_respected d rest
  | _ => True
  end.

(** Lines 182-209: what follows the request in the [try] block. *)
Definition after_get (url set_code : string) (response : Response) : M StockResult :=
  raise_for_status url response ;;;
  soup <- BeautifulSoup response ;;
  ret (page_result url soup set_code).

(** The traffic of one page fetch that comes after its first request. *)
Definition retry_traffic (url : string) (e : Event) : Prop :=
  (ev_kind e = Warmup /\ ev_url e = BASE_URL)
  \/ (ev_kind e = PageRetry /\ ev_url e = url).

(** What a page fetch answers, against what went over the wire. *)
Inductive answer (url set_code : string) (new : list Event)
  : StockResult -> Prop :=
| answer_error msg :
    Forall (fun e => delivered e = None) new ->
    answer url set_code new (error_result url set_code msg)
| answer_page e soup :
    In e new -> ev_url e = url -> delivered e = Some soup ->
    answer url set_code new (page_result url soup set_code).

Definition search_url_of (set_code : string) : string :=
  BASE_URL ++ "/en-us/search?q=" ++ set_code.

(** What the orchestrator has in hand after some fetches. *)
Inductive verdict (set_code : string) (new : list Event)
  : option StockResult -> Prop :=
| verdict_failed :
    Forall (fun e => delivered e = None) new -> verdict set_code new None
| verdict_page e soup :
    In e new -> delivered e = Some soup ->
    verdict set_code new (Some (page_result (ev_url e) soup set_code)).

Definition forbidden_message : string :=
  "403 Forbidden: LEGO.com is blocking automated requests. Please try again later.".

(** The requests [new], sent after [n] earlier ones, carry what the world
    answered to them. *)
Fixpoint answered_by (w : World) (n : nat) (new : list Event) : Prop :=
  match new with
  | [] => True
  | e :: rest =>
      ev_outcome e = http_get w n (ev_url e) /\ answered_by w (S n) rest
  end.

(** A request of the given kind for [url] is among [new]. *)
Definition requested (kind : RequestKind) (url : string) (new : list Event) : Prop :=
  exists e, In e new /\ ev_kind e = kind /\ ev_url e = url.

(** The world answers the next request, if it is for [url], with a 403. *)
Definition forbidden_first (w : World) (url : string) (st : State) : bool :=
  match http_get w (length (log st)) url with
  | GetReturns r => status_code r =? 403
  | GetRaises _ => false
  end.

(** The requests of one page fetch: the request for the page and, when it
    is answered 403, the warm-up of the new session and one retry. *)
Definition fetch_requests (w : World) (url : string) (st : State)
  : list (RequestKind * string) :=
  if forbidden_first w url st
  then [(PageGet, url); (Warmup, BASE_URL); (PageRetry, url)]
  else [(PageGet, url)].

(** A sequence of stock checks on one checker, whatever the targets. *)
Definition check_each (w : World) (set_codes : list string) (st : State) : State :=
  fold_left (fun st set_code => snd (check_stock w set_code st)) set_codes st.

End Wire.
Import Wire.

(* ================================================================== *)
(** ** Pages, worlds and watches for the examples *)
(* ================================================================== *)

Module Samples.

Open Scope Z_scope.

(** The metadata says "InStock", the body text says otherwise, and the
    purchase container holds a close button and an add-to-bag button. *)
Definition sample_page : node :=
  BeautifulSoup_of
    [Tag "html" []
       [Tag "head" []
          [Tag "meta" [("property", "product:availability");
                       ("content", "InStock")] []];
        Tag "body" []
          [Tag "h1" [("data-test", "product-overview-name")]
             [NavigableString " Pikachu "];
           NavigableString "Sold out. Pre-order ships from March 3, 2026";
           Tag "div" [("data-test", "add-to-bag-sticky-container")]
             [Tag "button" [("aria-label", "Close")] [NavigableString "X"];
              Tag "button" [("data-test", "add-to-cart-skroll-cta")]
                [Tag "span" [] [NavigableString " Add to Bag "]]]]]].

(** No metadata and no purchase container. *)
Definition plain_page : node :=
  BeautifulSoup_of
    [Tag "body" []
       [Tag "h1" [] [NavigableString "Shopping Street"];
        Tag "p" [] [NavigableString "In stock - add to bag today"];
        Tag "button" [] [NavigableString "Add to Bag"]]].

(** The only purchase button reads "Buy now - express delivery". *)
Definition express_page : node :=
  BeautifulSoup_of
    [Tag "div" [("data-test", "add-to-bag-sticky-container")]
       [Tag "button" [("data-test", "add-to-cart-skroll-cta")]
          [NavigableString "Buy now - express delivery"]]].

Definition ok (page : node) : GetOutcome :=
  GetReturns (mkResponse 200 "OK" (Parses page)).

Definition forbidden : GetOutcome :=
  GetReturns (mkResponse 403 "Forbidden" (Unparseable "")).

(** Every request is answered with [page], after 150 ms. *)
Definition serving (page : node) : World :=
  mkWorld (fun _ _ => ok page) (fun _ => 150%N) (fun _ => 0%N).

(** No request gets through. *)
Definition unreachable : World :=
  mkWorld (fun _ _ => GetRaises "Connection refused")
          (fun _ => 150%N) (fun _ => 0%N).

(** The first candidate is refused twice, the second is served. *)
Definition blocked_then_served : World :=
  mkWorld (fun n _ =>
             match n with
             | 1%nat | 3%nat => forbidden
             | _ => ok sample_page
             end)
          (fun _ => 150%N) (fun _ => 0%N).

(** The first candidate is refused once and served on the retry. *)
Definition blocked_once : World :=
  mkWorld (fun n _ =>
             match n with
             | 1%nat => forbidden
             | _ => ok plain_page
             end)
          (fun _ => 150%N) (fun _ => 0%N).

(** The clock when the checker is constructed. *)
Definition t0 : Z := 1700000000000.

(** A watch of user 7 in guild 42, last seen in stock without a button. *)
Definition watch_no_button : Database.Watch :=
  Database.mkWatch 1 7 (Some 42) "72152" (Some in_stock) None (Some t0) t0.

(** The same watch, last seen in stock with the button "Add to Bag". *)
Definition watch_with_button : Database.Watch :=
  Database.mkWatch 1 7 (Some 42) "72152" (Some in_stock) (Some "Add to Bag")
                   (Some t0) t0.

Definition monitor_of (w : World) (watch : Database.Watch) : Monitor.MonitorState :=
  Monitor.mkMonitorState (LEGOChecker w 2000 t0) (Database.mkDb [watch] 1) [].

End Samples.
Import Samples.

(* ================================================================== *)
(** ** Invariants and conditions used by the further properties *)
(* ================================================================== *)

Module Invariants.

Import Database Monitor.
Open Scope Z_scope.

(** The row ids are distinct and none exceeds the AUTOINCREMENT counter. *)
Definition ids_ok (db : Db) : Prop :=
  NoDup (map id (watched_sets db))
  /\ Forall (fun row => id row <= sqlite_sequence db) (watched_sets db).

(** At most one row per (user, guild, set) when the guild is not [NULL]. *)
Definition unique_triples (db : Db) : Prop :=
  forall user_id guild set_code,
    count_triple user_id (Some guild) set_code db <= 1.

(** A world whose answer to a request depends on the address only. *)
Definition stationary (w : World) : Prop :=
  forall n m url, http_get w n url = http_get w m url.

(** Two worlds that answer alike, except perhaps at the root of the site. *)
Definition agree_off_root (w1 w2 : World) : Prop :=
  forall n url, url <> BASE_URL -> http_get w1 n url = http_get w2 n url.

(** Two statements that, run after the same number of requests, have the
    same outcome and have then sent the same number of requests. *)
Definition in_lockstep {A} (c1 c2 : M A) : Prop :=
  forall st1 st2,
    length (log st1) = length (log st2) ->
    fst (c1 st1) = fst (c2 st2)
    /\ length (log (snd (c1 st1))) = length (log (snd (c2 st2))).

(** A statement whose outcome (value or exception) is the same whatever
    the state it runs in. *)
Definition same_value {A} (c : M A) : Prop :=
  forall st1 st2, fst (c st1) = fst (c st2).

(** The stored status and button of a row are those of [result]. *)
Definition in_step (row : Watch) (result : StockResult) : Prop :=
  last_status row = Some (status result)
  /\ last_button_detected row = button_detected result.

(** The stored status and button of a row are those of every answer
    [check_stock] gives for its set code. *)
Definition settled (w : World) (row : Watch) : Prop :=
  forall st r st',
    check_stock w (set_code row) st = (Returns r, st') -> in_step row r.

(** The rows agree with the watches of the snapshot on the set code. *)
Definition linked (watches rows : list Watch) : Prop :=
  forall watch row,
    In watch watches -> In row rows -> id row = id watch ->
    set_code row = set_code watch.

(** Status, availability and message, without the button. *)
Definition verdict_of (s : StockStatus) : Status * bool * string :=
  (status s, available s, message s).

(** What an update does to one row. *)
Definition updated (watch_id : Z) (status : Status) (button_detected : option string)
           (datetime_now : Z) (row : Watch) : Watch :=
  if id row =? watch_id
  then mkWatch (id row) (user_id row) (guild_id row) (set_code row)
               (Some status) button_detected (Some datetime_now) (created_at row)
  else row.

(** The identity of a row: what no update changes. *)
Definition identity (row : Watch)
  : Z * Z * option Z * string * Z :=
  (id row, user_id row, guild_id row, set_code row, created_at row).

(** The metadata tier matches one of its tokens in [availability_content]. *)
Definition recognised (availability_content : string) : bool :=
  str_in "in stock" availability_content
  || str_in "instock" availability_content
  || str_in "out of stock" availability_content
  || str_in "outofstock" availability_content
  || str_in "oos" availability_content
  || str_in "preorder" availability_content
  || str_in "pre-order" availability_content
  || str_in "backorder" availability_content.

(** The page has no availability metadata, or one the tier does not
    recognise. *)
Definition metadata_silent (soup : node) : Prop :=
  match find "meta" "property" "product:availability" soup with
  | Some availability_meta =>
      recognised (lower (get availability_meta "content" "")) = false
  | None => True
  end.

(** The content of the availability metadata, lower-cased, if there is one. *)
Definition metadata_content (soup : node) : option string :=
  option_map (fun availability_meta => lower (get availability_meta "content" ""))
             (find "meta" "property" "product:availability" soup).

(** The test of lines 328-330: the button reads like a purchase button. *)
Definition purchase_like (button : node) : bool :=
  let button_text := get_text_strip " " button in
  let button_aria := get button "aria-label" "" in
  let button_data_test := get button "data-test" "" in
  let button_text_lower := if truthy button_text then lower button_text else "" in
  let button_aria_lower := if truthy button_aria then lower button_aria else "" in
  let button_data_test_lower :=
    if truthy button_data_test then lower button_data_test else "" in
  existsb (fun keyword => str_in keyword button_text_lower) purchase_keywords
  || existsb (fun keyword => str_in keyword button_aria_lower) purchase_keywords
  || str_in "add-to-cart" button_data_test_lower.

(** Two pages with the same text; only the first has the purchase container. *)
Definition page_with_container : node :=
  BeautifulSoup_of
    [Tag "p" [] [NavigableString "In stock. "];
     Tag "div" [("data-test", "add-to-bag-sticky-container")]
       [Tag "button" [] [NavigableString "Add to Bag"]]].

(** The same text, with no container, a comment and an inline script. *)
Definition page_without_container : node :=
  BeautifulSoup_of
    [ClassedString Comment " product page ";
     Tag "p" [] [NavigableString "In stock. "];
     Tag "script" [] [ClassedString Script "window.badge = 'Sold out';"];
     Tag "div" [("data-test", "something-else")]
       [Tag "button" [] [NavigableString "Add to Bag"]]].

(** A page that says "unavailable now"; its inline script mentions a
    pre-order. *)
Definition unavailable_page : node :=
  BeautifulSoup_of
    [Tag "p" [] [NavigableString "This set is unavailable now."];
     Tag "script" [] [NavigableString "var labels = ['Pre-order', 'Coming soon'];"]].

(** A page that says "In stock"; a pre-order is mentioned in a script and
    in a style sheet only, and "Sold out" inside a template. *)
Definition scripted_page : node :=
  BeautifulSoup_of
    [Tag "p" [] [NavigableString "In stock"];
     Tag "script" [] [NavigableString "var labels = ['pre-order'];"];
     Tag "style" [] [ClassedString Stylesheet ".pre-order { color: red }"];
     Tag "template" [] [Tag "p" [] [NavigableString "Sold out"]]].

(** A page that mentions a pre-order next to other stock words. *)
Definition mixed_page : node :=
  BeautifulSoup_of
    [Tag "p" [] [NavigableString "In stock. Sold out. Pre-order the next one!"]].

(** A page with a name and a price. *)
Definition priced_page : node :=
  BeautifulSoup_of
    [Tag "h1" [] [NavigableString " Shopping Street "];
     Tag "span" [("class", "ds-label price-lg")] [NavigableString "$249.99"];
     Tag "p" [] [NavigableString "Available now"]].

(** A search page whose second link names set 72152. *)
Definition search_page : node :=
  BeautifulSoup_of
    [Tag "a" [("href", "/en-us/themes")] [NavigableString "Themes"];
     Tag "a" [("href", "/en-us/product/pikachu-72152")] [NavigableString "Pikachu"]].

(** The candidates are not found; the search page leads to the product. *)
Definition found_by_search : World :=
  mkWorld (fun n _ =>
             match n with
             | 0%nat => ok plain_page
             | 4%nat => ok search_page
             | 5%nat => ok sample_page
             | _ => GetReturns (mkResponse 404 "Not Found" (Unparseable ""))
             end)
          (fun _ => 150%N) (fun _ => 0%N).

(** The state in which the search runs in the world [found_by_search]. *)
Definition before_search : State :=
  snd (try_urls found_by_search (_get_product_urls "72152") "72152"
         (LEGOChecker found_by_search 2000 t0)).

(** The world [blocked_once], with a site root that is down. *)
Definition blocked_once_root_down : World :=
  mkWorld (fun n url =>
             if String.eqb url BASE_URL then GetRaises "Connection refused"
             else http_get blocked_once n url)
          (fun _ => 900%N) (fun _ => 0%N).

(** A table with two watches of user 7 in guild 42. *)
Definition two_watches : Db :=
  mkDb [mkWatch 1 7 (Some 42) "72152" None None None 100;
        mkWatch 2 7 (Some 42) "10312" (Some out_of_stock) None (Some 150) 120]
       2.

(** A monitor over that table, in a world that is never stopped. *)
Definition two_watch_monitor : MonitorState :=
  mkMonitorState (LEGOChecker (serving sample_page) 2000 t0) two_watches [].

Definition always_running : nat -> bool := fun _ => true.

End Invariants.
Import Invariants.

(* ================================================================== *)
(** ** Properties of the classifier *)
(* ================================================================== *)

Module ClassifierFacts.

Example sample_page_classified :
  _check_stock_status sample_page
  = mkStockStatus true in_stock "In Stock" (Some "Add to Bag").
Proof. vm_compute. reflexivity. Qed.

Example plain_page_classified :
  _check_stock_status plain_page = mkStockStatus true in_stock "In Stock" None.
Proof. vm_compute. reflexivity. Qed.

(** The page-text tier, on bodies with no metadata tag. *)
Example temporarily_out_of_stock :
  _check_stock_status
    (BeautifulSoup_of [Tag "p" [] [NavigableString "Temporarily out of stock"]])
  = mkStockStatus false out_of_stock "Out of Stock" None.
Proof. vm_compute. reflexivity. Qed.

Example pre_order_with_date :
  _check_stock_status
    (BeautifulSoup_of
       [Tag "p" [] [NavigableString "Pre-Order this item today, it will ship from ";
                    Tag "b" [] [NavigableString "March 3, 2026"]]])
  = mkStockStatus false pre_order "Pre-Order - Ships from March 3, 2026" None.
Proof. vm_compute. reflexivity. Qed.

Example coming_soon_with_date :
  _check_stock_status
    (BeautifulSoup_of [NavigableString "Coming Soon on February 27, 2026"])
  = mkStockStatus false pre_order "Coming Soon - Available February 27, 2026" None.
Proof. vm_compute. reflexivity. Qed.

(** The date needs a four-digit year and a day of at most two digits. *)
Example dates_searched :
  Re.search Re.available_pattern "available Feb 123, 2026, available jan 1,  1999"
  = Some "jan 1,  1999"
  /\ Re.search Re.ship_pattern "we ship from Billund" = None.
Proof. vm_compute. split; reflexivity. Qed.

Lemma lower_or_empty (s : string) :
  (if truthy s then lower s else "") = lower s.
Proof. destruct s; reflexivity. Qed.

Ltac split_branches :=
  repeat match goal with
         | |- context [match ?x with _ => _ end] => destruct x
         end.

(** Every tier attaches the button that was detected on its own. *)
Lemma text_tier_button soup page_text b :
  button_detected (text_tier soup page_text b) = b.
Proof. unfold text_tier. split_branches; reflexivity. Qed.

Lemma button_attached soup :
  button_detected (_check_stock_status soup) = _detect_button soup.
Proof.
  unfold _check_stock_status.
  destruct (find "meta" "property" "product:availability" soup);
    [ split_branches; try reflexivity | ]; apply text_tier_button.
Qed.

(** The page-text tier never answers [error]. *)
Lemma text_tier_not_error soup page_text b :
  status (text_tier soup page_text b) <> error.
Proof. unfold text_tier. split_branches; discriminate. Qed.

(** The classifier never answers [error]. *)
Lemma classifier_not_error soup : status (_check_stock_status soup) <> error.
Proof.
  unfold _check_stock_status.
  destruct (find "meta" "property" "product:availability" soup);
    [ split_branches; try discriminate | ]; apply text_tier_not_error.
Qed.

(** [available] is set exactly on [in_stock]. *)
Lemma available_iff_in_stock soup :
  available (_check_stock_status soup) = true
  <-> status (_check_stock_status soup) = in_stock.
Proof.
  unfold _check_stock_status, text_tier.
  split_branches; simpl; split; intro H; congruence.
Qed.

(** C2. When the page carries the [product:availability] metadata tag and
    its content, lower-cased, contains "in stock" or "instock", the
    classifier answers [in_stock] with [available = True], whatever the
    text of the body says. *)
Theorem metadata_in_stock_wins (soup availability_meta : node) :
  find "meta" "property" "product:availability" soup = Some availability_meta ->
  str_in "in stock" (lower (get availability_meta "content" "")) = true
  \/ str_in "instock" (lower (get availability_meta "content" "")) = true ->
  status (_check_stock_status soup) = in_stock
  /\ available (_check_stock_status soup) = true
  /\ message (_check_stock_status soup) = "In Stock".
Proof.
  intros Hfind Htoken.
  unfold _check_stock_status. rewrite Hfind.
  assert (Hor : str_in "in stock" (lower (get availability_meta "content" ""))
                || str_in "instock" (lower (get availability_meta "content" ""))
                = true)
    by (apply orb_true_iff; exact Htoken).
  rewrite Hor. repeat split.
Qed.

Lemma metadata_in_stock_wins_witness :
  get_text sample_page
    = " Pikachu Sold out. Pre-order ships from March 3, 2026X Add to Bag "
  /\ status (_check_stock_status sample_page) = in_stock
  /\ available (_check_stock_status sample_page) = true.
Proof.
  split; [ reflexivity | ].
  destruct (metadata_in_stock_wins sample_page
              (Tag "meta" [("property", "product:availability");
                           ("content", "InStock")] []))
    as (Hs & Ha & _).
  - reflexivity.
  - right. reflexivity.
  - split; [ exact Hs | exact Ha ].
Defined.

(** C9. When the page has no [add-to-bag-sticky-container] division, the
    classifier reports no button, whatever status the metadata or the
    body text lead to. *)
Theorem no_container_no_button (soup : node) :
  find "div" "data-test" "add-to-bag-sticky-container" soup = None ->
  button_detected (_check_stock_status soup) = None.
Proof.
  intro Habsent.
  rewrite button_attached. unfold _detect_button. rewrite Habsent. reflexivity.
Qed.

Lemma no_container_no_button_witness :
  status (_check_stock_status plain_page) = in_stock
  /\ button_detected (_check_stock_status plain_page) = None.
Proof.
  split; [ reflexivity | ].
  apply (no_container_no_button plain_page). reflexivity.
Defined.

(** *** The negative keyword "x" *)

Definition has_x (button : node) : bool :=
  str_in "x" (lower (get_text_strip " " button))
  || str_in "x" (lower (get button "aria-label" "")).

Lemma has_x_skipped button : has_x button = true -> skipped button = true.
Proof.
  unfold has_x, skipped. rewrite !lower_or_empty. intro H.
  apply existsb_exists. exists "x". split; [ | exact H ].
  unfold skip_keywords. simpl. auto 10.
Qed.

Lemma skipped_has_x button : skipped button = false -> has_x button = false.
Proof.
  unfold has_x, skipped. rewrite !lower_or_empty. unfold skip_keywords.
  cbn [existsb]. intro H.
  repeat (apply orb_false_iff in H; destruct H as [? H]).
  assumption.
Qed.

Lemma scan_buttons_skip button rest :
  skipped button = true -> scan_buttons (button :: rest) = scan_buttons rest.
Proof. intro H. cbn [scan_buttons]. rewrite H. reflexivity. Qed.

(** What [scan_buttons] returns is the text, or else the label, of a
    button of the list that was not skipped. *)
Lemma scan_buttons_origin buttons s :
  scan_buttons buttons = Some s ->
  exists button,
    In button buttons /\ skipped button = false
    /\ (s = get_text_strip " " button \/ s = get button "aria-label" "").
Proof.
  induction buttons as [ | button rest IH ]; [ discriminate | ].
  cbn [scan_buttons]. intro H.
  destruct (skipped button) eqn:Hskip.
  - destruct (IH H) as (b & Hin & Hb). exists b. split; [ right; exact Hin | exact Hb ].
  - match type of H with
    | (if ?c then _ else _) = _ => destruct c
    end.
    + destruct (truthy (get_text_strip " " button)).
      * injection H as <-. exists button. split; [ left; reflexivity | auto ].
      * destruct (truthy (get button "aria-label" "")).
        -- injection H as <-. exists button. split; [ left; reflexivity | auto ].
        -- destruct (IH H) as (b & Hin & Hb). exists b.
           split; [ right; exact Hin | exact Hb ].
    + destruct (IH H) as (b & Hin & Hb). exists b.
      split; [ right; exact Hin | exact Hb ].
Qed.

(** C10. A button of the purchase container whose visible text or
    [aria-label] contains the letter "x" (in either case) is passed over by
    the scan; hence whatever [_detect_button] returns contains no "x": a
    purchase button whose label merely contains one is never reported. *)
Theorem x_buttons_never_detected :
  (forall button rest,
      str_in "x" (lower (get_text_strip " " button)) = true
      \/ str_in "x" (lower (get button "aria-label" "")) = true ->
      scan_buttons (button :: rest) = scan_buttons rest)
  /\ (forall soup s,
         _detect_button soup = Some s -> str_in "x" (lower s) = false).
Proof.
  split.
  - intros button rest H. apply scan_buttons_skip, has_x_skipped.
    unfold has_x. apply orb_true_iff. exact H.
  - intros soup s. unfold _detect_button.
    destruct (find "div" "data-test" "add-to-bag-sticky-container" soup);
      [ | discriminate ].
    intro H. apply scan_buttons_origin in H.
    destruct H as (button & _ & Hskip & Hs).
    apply skipped_has_x in Hskip. unfold has_x in Hskip.
    apply orb_false_iff in Hskip. destruct Hskip as [Ht Ha].
    destruct Hs as [-> | ->]; assumption.
Qed.

Lemma x_buttons_never_detected_witness :
  _detect_button express_page = None
  /\ str_in "x" (lower "Add to Bag") = false.
Proof.
  destruct x_buttons_never_detected as [Hskip Hclean].
  split.
  - unfold _detect_button.
    change (find "div" "data-test" "add-to-bag-sticky-container" express_page)
      with (Some (Tag "div" [("data-test", "add-to-bag-sticky-container")]
                    [Tag "button" [("data-test", "add-to-cart-skroll-cta")]
                       [NavigableString "Buy now - express delivery"]])).
    cbv beta iota.
    change (find_all "button"
              (Tag "div" [("data-test", "add-to-bag-sticky-container")]
                 [Tag "button" [("data-test", "add-to-cart-skroll-cta")]
                    [NavigableString "Buy now - express delivery"]]))
      with [Tag "button" [("data-test", "add-to-cart-skroll-cta")]
              [NavigableString "Buy now - express delivery"]].
    rewrite Hskip; [ reflexivity | left; reflexivity ].
  - apply (Hclean sample_page "Add to Bag"). reflexivity.
Defined.

End ClassifierFacts.
(* ================================================================== *)
(** ** Properties of the fetch client and the orchestrator *)
(* ================================================================== *)

Module CheckerFacts.
Open Scope Z_scope.

Lemma prefix_append (p s : string) : String.prefix p (p ++ s) = true.
Proof.
  induction p as [ | c p IH ]; simpl.
  - destruct s; reflexivity.
  - destruct (ascii_dec c c) as [ _ | Hneq ]; [ exact IH | contradiction Hneq; reflexivity ].
Qed.

Lemma str_in_append (p s : string) : str_in p (p ++ s) = true.
Proof.
  pose proof (prefix_append p s) as H.
  destruct (p ++ s); simpl; simpl in H; rewrite H; reflexivity.
Qed.

Lemma paced_ops_one st st' new : paced_op st st' new -> paced_ops st st' new.
Proof.
  intro H. rewrite <- (app_nil_r new).
  eapply paced_ops_cons; [ exact H | apply paced_ops_nil ].
Qed.

Lemma paced_ops_app st st1 st2 new1 new2 :
  paced_ops st st1 new1 -> paced_ops st1 st2 new2 ->
  paced_ops st st2 (new1 ++ new2)%list.
Proof.
  induction 1 as [ | sa sb sc na nb Hop Hops IH ]; intro H2; [ exact H2 | ].
  rewrite <- app_assoc. eapply paced_ops_cons; [ exact Hop | exact (IH H2) ].
Qed.

Lemma paced_ops_log st st' new :
  paced_ops st st' new -> log st' = (log st ++ new)%list.
Proof.
  induction 1 as [ | sa sb sc na nb Hop Hops IH ].
  - symmetry. apply app_nil_r.
  - rewrite IH. destruct Hop as (-> & _). symmetry. apply app_assoc.
Qed.

Lemma paced_ops_delay st st' new :
  paced_ops st st' new -> rate_limit_delay st' = rate_limit_delay st.
Proof.
  induction 1 as [ | sa sb sc na nb Hop Hops IH ]; [ reflexivity | ].
  rewrite IH. destruct Hop as (_ & -> & _). reflexivity.
Qed.

(** *** Pacing *)

Lemma spaced_after_app d l1 : forall prev l2,
  spaced_after d prev (l1 ++ l2)
  <-> spaced_after d prev l1 /\ spaced_after d (last_paced prev l1) l2.
Proof.
  induction l1 as [ | e l1 IH ]; intros prev l2; cbn [app spaced_after last_paced].
  - tauto.
  - destruct (paced e); rewrite IH; tauto.
Qed.

Lemma last_paced_app l1 : forall prev l2,
  last_paced prev (l1 ++ l2) = last_paced (last_paced prev l1) l2.
Proof.
  induction l1 as [ | e l1 IH ]; intros prev l2; cbn [app last_paced];
    [ reflexivity | apply IH ].
Qed.

Lemma unpaced_spaced d rest :
  Forall (fun e => paced e = false) rest ->
  forall prev, spaced_after d prev rest /\ last_paced prev rest = prev.
Proof.
  induction 1 as [ | e rest He _ IH ]; intro prev; cbn [spaced_after last_paced].
  - split; [ exact I | reflexivity ].
  - rewrite He. apply IH.
Qed.

Lemma paced_op_inv st st' new :
  timer_inv st -> paced_op st st' new -> timer_inv st'.
Proof.
  intros [Hsp Hbefore] (Hlog & Hd & Htimer & e1 & rest & -> & Hp & Hstart & Hrest).
  destruct (unpaced_spaced (rate_limit_delay st) rest Hrest (Some (ev_start e1)))
    as [Hsp_rest Hlast_rest].
  unfold timer_inv. rewrite Hlog, Hd. split.
  - apply spaced_after_app. split; [ exact Hsp | ].
    cbn [spaced_after]. rewrite Hp. split; [ | exact Hsp_rest ].
    destruct (last_paced None (log st)); [ | exact I ].
    cbn [before] in Hbefore. lia.
  - rewrite last_paced_app. cbn [last_paced]. rewrite Hp, Hlast_rest.
    cbn [before]. lia.
Qed.

Lemma paced_ops_inv st st' new :
  paced_ops st st' new -> timer_inv st -> timer_inv st'.
Proof.
  induction 1 as [ | sa sb sc na nb Hop Hops IH ]; intro Hinv; [ exact Hinv | ].
  apply IH. eapply paced_op_inv; eassumption.
Qed.

(** Spelled out on two paced requests with none in between. *)
Lemma spaced_after_pair d before_ e1 mid e2 after_ : forall prev,
  spaced_after d prev (before_ ++ e1 :: mid ++ e2 :: after_) ->
  paced e1 = true -> paced e2 = true ->
  Forall (fun e => paced e = false) mid ->
  ev_start e1 + d <= ev_start e2.
Proof.
  intros prev H Hp1 Hp2 Hmid.
  apply spaced_after_app in H. destruct H as [_ H].
  cbn [spaced_after] in H. rewrite Hp1 in H. destruct H as [_ H].
  apply spaced_after_app in H. destruct H as [_ H].
  destruct (unpaced_spaced d mid Hmid (Some (ev_start e1))) as [_ Hlast].
  rewrite Hlast in H. cbn [spaced_after] in H. rewrite Hp2 in H. tauto.
Qed.

Lemma bind_returns {A B} (c : M A) (k : A -> M B) st a st' :
  c st = (Returns a, st') -> bind c k st = k a st'.
Proof. unfold bind. intros ->. reflexivity. Qed.

Section Facts.
Variable w : World.

Lemma after_get_usable url set_code r soup st :
  usable r = Some soup ->
  after_get url set_code r st = (Returns (page_result url soup set_code), st).
Proof.
  unfold after_get, usable, raise_for_status, BeautifulSoup, bind, ret, raise.
  destruct ((400 <=? status_code r) && (status_code r <? 500)); [ discriminate | ].
  destruct ((500 <=? status_code r) && (status_code r <? 600)); [ discriminate | ].
  destruct (content r); [ discriminate | ].
  intro H. injection H as ->. reflexivity.
Qed.

Lemma after_get_unusable url set_code r st :
  usable r = None ->
  exists msg, after_get url set_code r st = (Raises msg, st).
Proof.
  unfold after_get, usable, raise_for_status, BeautifulSoup, bind, ret, raise.
  destruct ((400 <=? status_code r) && (status_code r <? 500)); [ eauto | ].
  destruct ((500 <=? status_code r) && (status_code r <? 600)); [ eauto | ].
  destruct (content r); [ eauto | discriminate ].
Qed.

Lemma fetch_try_eq url set_code :
  fetch_try w url set_code =
  (response <- session_get w PageGet url ;;
   response <- (if status_code response =? 403
                then create_scraper ;;; _initialize_session w ;;; session_get w PageRetry url
                else ret response) ;;
   after_get url set_code response).
Proof. reflexivity. Qed.

Lemma rate_limit_run st :
  exists st1,
    _rate_limit w st = (Returns tt, st1)
    /\ log st1 = log st
    /\ rate_limit_delay st1 = rate_limit_delay st
    /\ last_request_time st1 = now st1
    /\ last_request_time st + rate_limit_delay st <= now st1
    /\ now st <= now st1.
Proof.
  unfold _rate_limit, time_sleep.
  pose proof (N2Z.is_nonneg (oversleep w (length (log st)))) as Hover.
  destruct (Z.ltb_spec (now st - last_request_time st) (rate_limit_delay st));
    eexists; repeat split;
    cbn [log rate_limit_delay last_request_time now]; lia.
Qed.

Lemma fetch_except_run url set_code error_msg st :
  exists msg,
    fetch_except url set_code error_msg st
    = (Returns (error_result url set_code msg), st).
Proof.
  unfold fetch_except.
  destruct (str_in "403" error_msg || str_in "Forbidden" error_msg);
    eexists; reflexivity.
Qed.

Lemma usable_403 r : status_code r = 403 -> usable r = None.
Proof. unfold usable. intros ->. reflexivity. Qed.

Ltac traffic :=
  cbn [app];
  repeat (apply Forall_cons || apply Forall_nil);
  first [ left; split; reflexivity | right; split; reflexivity ].

Ltac undelivered :=
  apply answer_error; cbn [app];
  repeat (apply Forall_cons || apply Forall_nil);
  cbn [delivered ev_kind ev_outcome]; solve [ reflexivity | assumption ].

Ltac close_fetch st :=
  do 3 eexists;
  split; [ reflexivity | ];
  cbn [log rate_limit_delay last_request_time now];
  rewrite <- ?app_assoc;
  split; [ reflexivity | ];
  split; [ reflexivity | ];
  split; [ reflexivity | ];
  split; [ repeat match goal with
                  | |- context [Z.of_N ?n] =>
                      lazymatch goal with
                      | _ : 0 <= Z.of_N n |- _ => fail
                      | _ => pose proof (N2Z.is_nonneg n)
                      end
                  end; lia | ];
  split; [ do 2 eexists; split; [ reflexivity | ];
           repeat (split; [ reflexivity | ]); try traffic; try apply Forall_nil | ].

Ltac run_except :=
  match goal with
  | |- context [fetch_except ?u ?c ?m ?s] =>
      let msg' := fresh "msg" in
      destruct (fetch_except_run u c m s) as [msg' ->]
  end.

Ltac run_after_get r :=
  let Hu := fresh "Hu" in
  let soup := fresh "soup" in
  destruct (usable r) as [soup | ] eqn:Hu;
  [ match goal with
    | |- context [after_get ?u ?c r ?s] =>
        rewrite (after_get_usable u c r soup s Hu)
    end
  | match goal with
    | |- context [after_get ?u ?c r ?s] =>
        let msg := fresh "msg" in
        destruct (after_get_unusable u c r s Hu) as [msg ->]
    end; run_except ].

Lemma fetch_body_spec url set_code st :
  exists r st' (new : list Event),
    try_except (fetch_try w url set_code) (fetch_except url set_code) st
    = (Returns r, st')
    /\ log st' = (log st ++ new)%list
    /\ rate_limit_delay st' = rate_limit_delay st
    /\ last_request_time st' = last_request_time st
    /\ now st <= now st'
    /\ (exists e1 rest,
           new = e1 :: rest /\ ev_kind e1 = PageGet /\ ev_url e1 = url
           /\ ev_start e1 = now st /\ Forall (retry_traffic url) rest)
    /\ answer url set_code new r.
Proof.
  rewrite fetch_try_eq.
  cbv [try_except bind session_get ret create_scraper _initialize_session].
  destruct (http_get w (length (log st)) url) as [msg | r] eqn:Hget.
  - run_except. close_fetch st. undelivered.
  - destruct (status_code r =? 403) eqn:Hcode.
    + apply Z.eqb_eq, usable_403 in Hcode.
      cbn [log rate_limit_delay last_request_time now session].
      match goal with
      | |- context [http_get w ?n BASE_URL] => destruct (http_get w n BASE_URL)
      end;
        cbn [log rate_limit_delay last_request_time now session];
        match goal with
        | |- context [http_get w ?n url] =>
            destruct (http_get w n url) as [msg2 | r2]
        end;
        [ run_except; close_fetch st; undelivered
        | run_after_get r2;
          [ close_fetch st;
            eapply answer_page; [ right; right; left; reflexivity | reflexivity | exact Hu ]
          | close_fetch st; undelivered ]
        | run_except; close_fetch st; undelivered
        | run_after_get r2;
          [ close_fetch st;
            eapply answer_page; [ right; right; left; reflexivity | reflexivity | exact Hu ]
          | close_fetch st; undelivered ] ].
    + run_after_get r.
      * close_fetch st. eapply answer_page; [ left; reflexivity | reflexivity | exact Hu ].
      * close_fetch st. undelivered.
Qed.

(** What one page fetch sends, and that each request is answered by the
    world. *)
Lemma fetch_traffic url set_code st :
  exists new : list Event,
    log (snd (_fetch_product_page w url set_code st)) = (log st ++ new)%list
    /\ answered_by w (length (log st)) new
    /\ map (fun e => (ev_kind e, ev_url e)) new = fetch_requests w url st.
Proof.
  unfold _fetch_product_page, bind.
  destruct (rate_limit_run st) as (st1 & -> & Hlog1 & _).
  unfold fetch_requests, forbidden_first. rewrite <- Hlog1. clear Hlog1.
  rewrite fetch_try_eq.
  cbv [try_except bind session_get ret create_scraper _initialize_session].
  destruct (http_get w (length (log st1)) url) as [msg | r] eqn:Hget.
  - run_except. cbn [snd log]. eexists. split; [ reflexivity | ].
    split; [ | reflexivity ]. cbn [answered_by ev_outcome ev_url].
    auto using eq_sym.
  - destruct (status_code r =? 403) eqn:Hcode.
    + cbn [log rate_limit_delay last_request_time now session].
      match goal with
      | |- context [http_get w ?n BASE_URL] =>
          destruct (http_get w n BASE_URL) eqn:Hwarm
      end;
        cbn [log rate_limit_delay last_request_time now session];
        match goal with
        | |- context [http_get w ?n url] =>
            destruct (http_get w n url) as [msg2 | r2] eqn:Hretry
        end.
      all: repeat rewrite length_app in Hwarm; repeat rewrite length_app in Hretry.
      all: cbn [length] in Hwarm, Hretry.
      all: repeat rewrite Nat.add_1_r in Hwarm; repeat rewrite Nat.add_1_r in Hretry.
      all: try run_except.
      all: try (run_after_get r2).
      all: cbn [snd log]; rewrite <- ?app_assoc; cbn [app].
      all: eexists; split; [ reflexivity | ].
      all: split; [ | reflexivity ].
      all: cbn [answered_by ev_outcome ev_url]; auto using eq_sym.
    + run_after_get r; cbn [snd log]; (eexists; split; [ reflexivity | ]);
        (split; [ | reflexivity ]); cbn [answered_by ev_outcome ev_url];
        auto using eq_sym.
Qed.

Lemma retry_traffic_unpaced url rest :
  Forall (retry_traffic url) rest -> Forall (fun e => paced e = false) rest.
Proof.
  apply Forall_impl. intros e [[Hk _] | [Hk _]]; unfold paced; rewrite Hk; reflexivity.
Qed.

Lemma fetch_spec url set_code st :
  exists r st' (new : list Event),
    _fetch_product_page w url set_code st = (Returns r, st')
    /\ paced_op st st' new
    /\ Forall (fun e => ev_kind e <> SearchGet
                        /\ (ev_url e = url \/ ev_url e = BASE_URL)) new
    /\ answer url set_code new r.
Proof.
  unfold _fetch_product_page, bind.
  destruct (rate_limit_run st) as (st1 & -> & Hlog1 & Hd1 & Hl1 & Ht1 & _).
  destruct (fetch_body_spec url set_code st1)
    as (r & st' & new & -> & Hlog & Hd & Hl & _ & Hshape & Hans).
  exists r, st', new.
  destruct Hshape as (e1 & rest & -> & Hk & Hu & Hs & Hrest).
  split; [ reflexivity | ].
  split; [ | split; [ | exact Hans ] ].
  - unfold paced_op. rewrite Hlog, Hlog1, Hd, Hd1, Hl, Hl1.
    repeat split; try lia.
    exists e1, rest. repeat split; try assumption.
    + unfold paced. rewrite Hk. reflexivity.
    + eapply retry_traffic_unpaced; eassumption.
  - apply Forall_cons.
    + rewrite Hk. split; [ discriminate | left; exact Hu ].
    + revert Hrest. apply Forall_impl.
      intros e [[Hke Hue] | [Hke Hue]]; rewrite Hke; split;
        try discriminate; auto.
Qed.

Lemma search_spec set_code st :
  exists res st' e,
    _search_for_set w set_code st = (Returns res, st')
    /\ paced_op st st' [e]
    /\ ev_kind e = SearchGet
    /\ ev_url e = search_url_of set_code.
Proof.
  unfold _search_for_set, bind at 1.
  destruct (rate_limit_run st) as (st1 & -> & Hlog1 & Hd1 & Hl1 & Ht1 & _).
  cbv [try_except bind session_get ret].
  destruct (http_get w (length (log st1)) (BASE_URL ++ "/en-us/search?q=" ++ set_code)).
  - do 3 eexists. split; [ reflexivity | ].
    unfold paced_op. cbn [log rate_limit_delay last_request_time].
    rewrite Hlog1, Hd1, Hl1.
    repeat split; try lia.
    do 2 eexists. repeat split. apply Forall_nil.
  - match goal with
    | |- context [raise_for_status ?u ?r ?s] =>
        unfold raise_for_status, raise, ret;
        destruct ((400 <=? status_code r) && (status_code r <? 500));
        [ | destruct ((500 <=? status_code r) && (status_code r <? 600));
            [ | unfold BeautifulSoup, raise, ret; destruct (content r) ] ]
    end;
      (do 3 eexists; split; [ reflexivity | ];
       unfold paced_op; cbn [log rate_limit_delay last_request_time];
       rewrite Hlog1, Hd1, Hl1;
       repeat split; try lia;
       do 2 eexists; repeat split; apply Forall_nil).
Qed.

Lemma page_result_not_error url soup set_code :
  Status_eqb (status (page_result url soup set_code)) error = false.
Proof.
  cbn [page_result status stock].
  pose proof (ClassifierFacts.classifier_not_error soup) as H.
  destruct (status (_check_stock_status soup)); try reflexivity.
  contradiction H. reflexivity.
Qed.

Lemma try_urls_spec set_code urls :
  forall st,
  exists found st' (new : list Event),
    try_urls w urls set_code st = (Returns found, st')
    /\ paced_ops st st' new
    /\ Forall (fun e => ev_kind e <> SearchGet
                        /\ In (ev_url e) (BASE_URL :: urls)) new
    /\ verdict set_code new found.
Proof.
  induction urls as [ | product_url rest IH ]; intro st.
  - exists None, st, []. repeat split; try constructor. constructor.
  - cbn [try_urls]. unfold bind.
    destruct (fetch_spec product_url set_code st)
      as (r & st1 & new1 & -> & Hop & Htraffic & Hans).
    assert (Htraffic' :
             Forall (fun e => ev_kind e <> SearchGet
                              /\ In (ev_url e) (BASE_URL :: product_url :: rest)) new1).
    { revert Htraffic. apply Forall_impl. intros e [Hk [Hu | Hu]]; split; auto.
      - right. left. symmetry. exact Hu.
      - left. symmetry. exact Hu. }
    destruct Hans as [msg Hnone | e soup Hin Hurl Hsome].
    + cbn [error_result status stock message Status_eqb negb].
      assert (Hgo : exists found st' (new : list Event),
                 try_urls w rest set_code st1 = (Returns found, st')
                 /\ paced_ops st st' new
                 /\ Forall (fun e => ev_kind e <> SearchGet
                                     /\ In (ev_url e) (BASE_URL :: product_url :: rest)) new
                 /\ verdict set_code new found).
      { destruct (IH st1) as (found & st' & new2 & Hrun & Hops & Htr2 & Hv).
        exists found, st', (new1 ++ new2)%list.
        split; [ exact Hrun | ].
        split; [ eapply paced_ops_cons; eassumption | ].
        split.
        - apply Forall_app. split; [ exact Htraffic' | ].
          revert Htr2. apply Forall_impl. intros e [Hk [Hu | Hu]]; split; auto.
          + left. exact Hu.
          + right. right. exact Hu.
        - destruct Hv as [Hnone2 | e soup Hin Hsome].
          + apply verdict_failed. apply Forall_app. split; assumption.
          + eapply verdict_page; [ apply in_or_app; right; exact Hin | exact Hsome ]. }
      destruct (str_in "403" msg || str_in "Forbidden" msg); exact Hgo.
    + rewrite page_result_not_error. cbn [negb]. unfold ret.
      do 3 eexists. split; [ reflexivity | ].
      split; [ apply paced_ops_one; exact Hop | ].
      split; [ exact Htraffic' | ].
      rewrite <- Hurl. eapply verdict_page; eassumption.
Qed.

Lemma check_stock_spec set_code st :
  exists r st' (new : list Event),
    check_stock w set_code st = (Returns r, st')
    /\ paced_ops st st' new
    /\ ((Forall (fun e => delivered e = None) new
         /\ r = final_error (_get_product_urls (strip set_code)) (strip set_code))
        \/ (exists e soup,
               In e new /\ delivered e = Some soup
               /\ r = page_result (ev_url e) soup (strip set_code))).
Proof.
  unfold check_stock. unfold bind at 1.
  destruct (try_urls_spec (strip set_code) (_get_product_urls (strip set_code)) st)
    as (found & st1 & new1 & -> & Hops1 & _ & Hv).
  destruct Hv as [Hnone1 | e soup Hin Hsome].
  2:{ unfold ret. do 3 eexists. split; [ reflexivity | ].
      split; [ exact Hops1 | ]. right. eauto. }
  unfold bind at 1.
  destruct (search_spec (strip set_code) st1)
    as (res & st2 & es & -> & Hop2 & Hk2 & _).
  assert (Hops2 : paced_ops st st2 (new1 ++ [es])%list)
    by (eapply paced_ops_app; [ exact Hops1 | apply paced_ops_one; exact Hop2 ]).
  assert (Hnone2 : Forall (fun e => delivered e = None) (new1 ++ [es])%list).
  { apply Forall_app. split; [ exact Hnone1 | ].
    apply Forall_cons; [ | apply Forall_nil ].
    unfold delivered. rewrite Hk2. reflexivity. }
  assert (Hfail : exists r st' (new : list Event),
             (ret (final_error (_get_product_urls (strip set_code)) (strip set_code))
                  : M StockResult) st2 = (Returns r, st')
             /\ paced_ops st st' new
             /\ ((Forall (fun e => delivered e = None) new
                  /\ r = final_error (_get_product_urls (strip set_code)) (strip set_code))
                 \/ (exists e soup,
                        In e new /\ delivered e = Some soup
                        /\ r = page_result (ev_url e) soup (strip set_code)))).
  { unfold ret. do 3 eexists. split; [ reflexivity | ].
    split; [ exact Hops2 | ]. left. split; [ exact Hnone2 | reflexivity ]. }
  destruct res as [search_url | ]; [ | unfold bind, ret at 1; exact Hfail ].
  destruct (truthy search_url); [ | unfold bind, ret at 1; exact Hfail ].
  unfold bind.
  destruct (fetch_spec search_url (strip set_code) st2)
    as (r & st3 & new3 & -> & Hop3 & _ & Hans).
  destruct Hans as [msg Hnone3 | e soup Hin Hurl Hsome].
  - cbn [error_result status stock Status_eqb negb]. unfold ret.
    do 3 eexists. split; [ reflexivity | ].
    split; [ eapply paced_ops_app; [ exact Hops2 | apply paced_ops_one; exact Hop3 ] | ].
    left. split; [ | reflexivity ].
    apply Forall_app. split; assumption.
  - rewrite page_result_not_error. cbn [negb]. unfold ret.
    do 3 eexists. split; [ reflexivity | ].
    split; [ eapply paced_ops_app; [ exact Hops2 | apply paced_ops_one; exact Hop3 ] | ].
    right. exists e, soup. rewrite Hurl.
    split; [ apply in_or_app; right; exact Hin | ].
    split; [ exact Hsome | reflexivity ].
Qed.

(** *** The requests of a check *)

Lemma answered_by_app l1 : forall n l2,
  answered_by w n (l1 ++ l2)
  <-> answered_by w n l1 /\ answered_by w (n + length l1) l2.
Proof.
  induction l1 as [ | e l1 IH ]; intros n l2; cbn [app answered_by length].
  - rewrite Nat.add_0_r. tauto.
  - rewrite IH, Nat.add_succ_r. cbn [Nat.add]. tauto.
Qed.

Lemma fetch_requests_first url st (new : list Event) :
  map (fun e => (ev_kind e, ev_url e)) new = fetch_requests w url st ->
  exists e1 rest, new = e1 :: rest /\ ev_kind e1 = PageGet /\ ev_url e1 = url.
Proof.
  unfold fetch_requests.
  destruct (forbidden_first w url st), new as [ | e1 rest ];
    cbn [map]; intro H; try discriminate;
    injection H as Hk Hu _; eauto.
Qed.

Lemma search_traffic set_code st :
  exists e,
    log (snd (_search_for_set w set_code st)) = (log st ++ [e])%list
    /\ ev_kind e = SearchGet
    /\ ev_url e = search_url_of set_code
    /\ ev_outcome e = http_get w (length (log st)) (search_url_of set_code).
Proof.
  unfold _search_for_set, bind at 1.
  destruct (rate_limit_run st) as (st1 & -> & Hlog1 & _).
  rewrite <- Hlog1. clear Hlog1.
  cbv [try_except bind session_get ret]. fold (search_url_of set_code).
  destruct (http_get w (length (log st1)) (search_url_of set_code)) eqn:Hget.
  - eexists. cbn [snd log]. repeat split.
  - match goal with
    | |- context [raise_for_status ?u ?r ?s] =>
        unfold raise_for_status, raise, ret;
        destruct ((400 <=? status_code r) && (status_code r <? 500));
        [ | destruct ((500 <=? status_code r) && (status_code r <? 600));
            [ | unfold BeautifulSoup, raise, ret; destruct (content r) ] ]
    end;
      (eexists; cbn [snd log]; repeat split).
Qed.

Lemma try_urls_traffic set_code urls : forall st,
  exists new : list Event,
    log (snd (try_urls w urls set_code st)) = (log st ++ new)%list
    /\ answered_by w (length (log st)) new
    /\ (forall u rest, urls = u :: rest ->
        exists e1 more, new = e1 :: more /\ ev_kind e1 = PageGet /\ ev_url e1 = u)
    /\ (fst (try_urls w urls set_code st) = Returns None ->
        forall url, In url urls -> requested PageGet url new).
Proof.
  induction urls as [ | product_url rest IH ]; intro st.
  - exists []. cbn [try_urls ret snd fst]. rewrite app_nil_r.
    repeat split; [ discriminate | intros _ url [] ].
  - cbn [try_urls]. unfold bind.
    destruct (fetch_traffic product_url set_code st) as (new1 & Hlog1 & Hans1 & Hmap1).
    destruct (fetch_requests_first _ _ _ Hmap1) as (e1 & more & Hnew1 & Hk1 & Hu1).
    destruct (fetch_spec product_url set_code st) as (r & st1 & sent1 & Hrun & _).
    rewrite Hrun in Hlog1 |- *. cbn [snd] in Hlog1.
    assert (Hstop : exists new : list Event,
               log (snd (ret (Some r) st1 : Outcome (option StockResult) * State))
               = (log st ++ new)%list
               /\ answered_by w (length (log st)) new
               /\ (forall u rest0, product_url :: rest = u :: rest0 ->
                   exists e1 more, new = e1 :: more /\ ev_kind e1 = PageGet
                                   /\ ev_url e1 = u)
               /\ (fst (ret (Some r) st1 : Outcome (option StockResult) * State)
                   = Returns None ->
                   forall url, In url (product_url :: rest) ->
                               requested PageGet url new)).
    { exists new1. cbn [ret snd fst].
      split; [ exact Hlog1 | ]. split; [ exact Hans1 | ].
      split; [ | discriminate ].
      intros u rest0 Heq. injection Heq as <- _. eauto. }
    assert (Hgo : exists new : list Event,
               log (snd (try_urls w rest set_code st1)) = (log st ++ new)%list
               /\ answered_by w (length (log st)) new
               /\ (forall u rest0, product_url :: rest = u :: rest0 ->
                   exists e1 more, new = e1 :: more /\ ev_kind e1 = PageGet
                                   /\ ev_url e1 = u)
               /\ (fst (try_urls w rest set_code st1) = Returns None ->
                   forall url, In url (product_url :: rest) ->
                               requested PageGet url new)).
    { destruct (IH st1) as (new2 & Hlog2 & Hans2 & _ & Hall2).
      exists (new1 ++ new2)%list.
      split; [ rewrite Hlog2, Hlog1; symmetry; apply app_assoc | ].
      split.
      { apply answered_by_app. split; [ exact Hans1 | ].
        rewrite Hlog1, length_app in Hans2. exact Hans2. }
      split.
      { intros u rest0 Heq. injection Heq as <- _.
        exists e1, (more ++ new2)%list. rewrite Hnew1. auto. }
      intros Hnone url [ <- | Hin ].
      - exists e1. rewrite Hnew1. cbn [app In]. auto.
      - destruct (Hall2 Hnone url Hin) as (e & Hine & Hke & Hue).
        exists e. split; [ apply in_or_app; right; exact Hine | auto ]. }
    destruct (negb (Status_eqb (status r) error)); [ exact Hstop | ].
    destruct (str_in "403" (message r) || str_in "Forbidden" (message r));
      exact Hgo.
Qed.

Lemma check_stock_traffic set_code st :
  exists new : list Event,
    log (snd (check_stock w set_code st)) = (log st ++ new)%list
    /\ answered_by w (length (log st)) new
    /\ (exists e1 rest,
           new = e1 :: rest /\ ev_kind e1 = PageGet
           /\ ev_url e1 = BASE_URL ++ "/en-us/product/" ++ strip set_code)
    /\ (forall r st',
           check_stock w set_code st = (Returns r, st') -> status r = error ->
           (forall url, In url (_get_product_urls (strip set_code)) ->
                        requested PageGet url new)
           /\ requested SearchGet (search_url_of (strip set_code)) new).
Proof.
  unfold check_stock, bind.
  destruct (try_urls_traffic (strip set_code) (_get_product_urls (strip set_code)) st)
    as (new1 & Hlog1 & Hans1 & Hfirst & Hall).
  destruct (Hfirst _ _ eq_refl) as (e1 & more & Hnew1 & Hk1 & Hu1).
  destruct (try_urls_spec (strip set_code) (_get_product_urls (strip set_code)) st)
    as (found & st1 & sent1 & Hrun1 & _ & _ & Hv).
  rewrite Hrun1 in Hlog1, Hall |- *. cbn [snd fst] in Hlog1, Hall.
  destruct found as [ result | ].
  { assert (Hok : status result <> error).
    { inversion Hv; subst.
      intro Herr. apply Status_eqb_eq in Herr.
      rewrite page_result_not_error in Herr. discriminate. }
    exists new1. unfold ret. cbn [snd].
    split; [ exact Hlog1 | ]. split; [ exact Hans1 | ].
    split; [ eauto | ].
    intros r st' Hrun Herr. injection Hrun as <- _. contradiction. }
  specialize (Hall eq_refl).
  destruct (search_traffic (strip set_code) st1) as (es & Hlog2 & Hk2 & Hu2 & Ho2).
  destruct (search_spec (strip set_code) st1) as (res & st2 & sent2 & Hrun2 & _).
  rewrite Hrun2 in Hlog2 |- *. cbn [snd] in Hlog2.
  assert (Hlog12 : log st2 = (log st ++ (new1 ++ [es]))%list)
    by (rewrite Hlog2, Hlog1; symmetry; apply app_assoc).
  assert (Hans12 : answered_by w (length (log st)) (new1 ++ [es])).
  { apply answered_by_app. split; [ exact Hans1 | ].
    cbn [answered_by]. split; [ | exact I ].
    rewrite Ho2, Hu2, Hlog1, length_app. reflexivity. }
  assert (Hreq : forall more3 : list Event,
             (forall url, In url (_get_product_urls (strip set_code)) ->
                          requested PageGet url ((new1 ++ [es]) ++ more3))
             /\ requested SearchGet (search_url_of (strip set_code))
                          ((new1 ++ [es]) ++ more3)).
  { intro more3. split.
    - intros url Hin. destruct (Hall url Hin) as (e & Hine & Hke & Hue).
      exists e. split; [ | auto ].
      apply in_or_app. left. apply in_or_app. left. exact Hine.
    - exists es. split; [ | auto ].
      apply in_or_app. left. apply in_or_app. right. left. reflexivity. }
  assert (Hstop : forall r0 : StockResult,
             exists new : list Event,
               log (snd (Returns r0, st2)) = (log st ++ new)%list
               /\ answered_by w (length (log st)) new
               /\ (exists e1 rest,
                      new = e1 :: rest /\ ev_kind e1 = PageGet
                      /\ ev_url e1 = BASE_URL ++ "/en-us/product/" ++ strip set_code)
               /\ (forall r st',
                      (Returns r0, st2) = (Returns r, st') ->
                      status r = error ->
                      (forall url, In url (_get_product_urls (strip set_code)) ->
                                   requested PageGet url new)
                      /\ requested SearchGet (search_url_of (strip set_code)) new)).
  { intro r0. exists (new1 ++ [es])%list. cbn [snd].
    split; [ exact Hlog12 | ]. split; [ exact Hans12 | ].
    split; [ exists e1, (more ++ [es])%list; rewrite Hnew1; auto | ].
    intros r st' _ _. specialize (Hreq []). rewrite app_nil_r in Hreq. exact Hreq. }
  destruct res as [ search_url | ]; [ | unfold ret; apply Hstop ].
  destruct (truthy search_url); [ | unfold ret; apply Hstop ].
  destruct (fetch_traffic search_url (strip set_code) st2) as (new3 & Hlog3 & Hans3 & _).
  destruct (fetch_spec search_url (strip set_code) st2) as (r3 & st3 & sent3 & Hrun3 & _).
  rewrite Hrun3 in Hlog3 |- *. cbn [snd] in Hlog3.
  assert (Hlast : forall r0 : StockResult,
             exists new : list Event,
               log (snd (Returns r0, st3)) = (log st ++ new)%list
               /\ answered_by w (length (log st)) new
               /\ (exists e1 rest,
                      new = e1 :: rest /\ ev_kind e1 = PageGet
                      /\ ev_url e1 = BASE_URL ++ "/en-us/product/" ++ strip set_code)
               /\ (forall r st',
                      (Returns r0, st3) = (Returns r, st') -> status r = error ->
                      (forall url, In url (_get_product_urls (strip set_code)) ->
                                   requested PageGet url new)
                      /\ requested SearchGet (search_url_of (strip set_code)) new)).
  { intro r0. exists ((new1 ++ [es]) ++ new3)%list. cbn [snd].
    split; [ rewrite Hlog3, Hlog12; symmetry; apply app_assoc | ].
    split.
    { apply answered_by_app. split; [ exact Hans12 | ].
      rewrite Hlog12, length_app in Hans3. exact Hans3. }
    split; [ exists e1, ((more ++ [es]) ++ new3)%list; rewrite Hnew1; auto | ].
    intros r st' _ _. apply Hreq. }
  destruct (negb (Status_eqb (status r3) error)); unfold ret; apply Hlast.
Qed.

(** C1. [check_stock] always answers.  It starts with a request for the
    first candidate address, and every request it sends is answered by the
    world.  Its answer has status [error] exactly when no page request of
    the call was delivered, that is answered without an HTTP error status
    by a body the parser accepts: an answer of the world that is usable
    gives a result that is not an error, and an [error] is only answered
    after the three candidate addresses and the search were requested.  An
    [error] answer has [available = False] and no button; the classifier
    itself never answers [error]. *)
Theorem error_iff_no_page_delivered set_code st :
  exists r st' (new : list Event),
    check_stock w set_code st = (Returns r, st')
    /\ log st' = (log st ++ new)%list
    /\ (status r = error <-> Forall (fun e => delivered e = None) new)
    /\ (status r = error -> available r = false /\ button_detected r = None)
    /\ (forall soup, status (_check_stock_status soup) <> error)
    /\ answered_by w (length (log st)) new
    /\ (exists e1 rest,
           new = e1 :: rest /\ ev_kind e1 = PageGet
           /\ ev_url e1 = BASE_URL ++ "/en-us/product/" ++ strip set_code)
    /\ (forall response soup,
           http_get w (length (log st))
                    (BASE_URL ++ "/en-us/product/" ++ strip set_code)
           = GetReturns response ->
           usable response = Some soup ->
           status r <> error)
    /\ (status r = error ->
        (forall url, In url (_get_product_urls (strip set_code)) ->
                     requested PageGet url new)
        /\ requested SearchGet (search_url_of (strip set_code)) new).
Proof.
  destruct (check_stock_spec set_code st)
    as (r & st' & new & Hrun & Hops & Hcases).
  destruct (check_stock_traffic set_code st)
    as (new' & Hlog' & Hans & Hfirst & Hreq).
  rewrite Hrun in Hlog'. cbn [snd] in Hlog'.
  rewrite (paced_ops_log _ _ _ Hops) in Hlog'.
  apply app_inv_head in Hlog'. subst new'.
  assert (Hiff : status r = error <-> Forall (fun e => delivered e = None) new).
  { destruct Hcases as [[Hnone ->] | (e & soup & Hin & Hsome & ->)].
    + split; [ intros _; exact Hnone | reflexivity ].
    + split.
      * intro Herr. apply Status_eqb_eq in Herr.
        rewrite page_result_not_error in Herr. discriminate.
      * intro Hnone. rewrite Forall_forall in Hnone.
        rewrite (Hnone e Hin) in Hsome. discriminate. }
  exists r, st', new.
  split; [ exact Hrun | ].
  split; [ exact (paced_ops_log _ _ _ Hops) | ].
  split; [ exact Hiff | ].
  split; [ | split; [ exact ClassifierFacts.classifier_not_error | ] ].
  2:{ split; [ exact Hans | ]. split; [ exact Hfirst | ].
      split; [ | intro Herr; exact (Hreq r st' Hrun Herr) ].
      intros response soup Hget Husable Herr.
      destruct Hfirst as (e1 & rest & -> & Hk1 & Hu1).
      cbn [answered_by] in Hans. destruct Hans as [Ho1 _].
      apply Hiff in Herr. inversion Herr as [ | x xs Hnone _ ]; subst.
      unfold delivered in Hnone.
      rewrite Hk1, Ho1, Hu1, Hget, Husable in Hnone. discriminate. }
  cbv zeta.
  destruct Hcases as [[Hnone ->] | (e & soup & Hin & Hsome & ->)].
  - intros _. split; reflexivity.
  - intro Herr. apply Status_eqb_eq in Herr.
    rewrite page_result_not_error in Herr. discriminate.
Qed.

(** C4. [check_stock] returns to its caller in every world and from
    every state; when the [try] block of a page fetch raises, the fetch
    returns a result with status [error], [available = False] and no button;
    the search returns as well; and a call during which no page was
    delivered answers with status [error]. *)
Theorem check_stock_never_raises set_code st :
  (exists r st', check_stock w set_code st = (Returns r, st'))
  /\ (forall url st0 msg st1,
         fetch_try w url set_code (snd (_rate_limit w st0)) = (Raises msg, st1) ->
         exists r,
           _fetch_product_page w url set_code st0 = (Returns r, st1)
           /\ status r = error /\ available r = false
           /\ button_detected r = None)
  /\ (forall st0, exists found st', _search_for_set w set_code st0 = (Returns found, st'))
  /\ (forall r st' (new : list Event),
         check_stock w set_code st = (Returns r, st') ->
         log st' = (log st ++ new)%list ->
         Forall (fun e => delivered e = None) new ->
         status r = error).
Proof.
  split; [ | split; [ | split ] ].
  - destruct (check_stock_spec set_code st) as (r & st' & _ & Hrun & _).
    exists r, st'. exact Hrun.
  - intros url st0 msg st1 Hraise.
    unfold _fetch_product_page, bind.
    destruct (rate_limit_run st0) as (st0' & Hrl & _).
    rewrite Hrl in Hraise |- *. cbn [snd] in Hraise.
    unfold try_except. rewrite Hraise.
    destruct (fetch_except_run url set_code msg st1) as [msg' ->].
    eexists. repeat split.
  - intro st0.
    destruct (search_spec set_code st0) as (found & st' & _ & Hrun & _).
    exists found, st'. exact Hrun.
  - intros r st' new Hrun Hlog Hnone.
    destruct (check_stock_spec set_code st)
      as (r0 & st0 & new0 & Hrun0 & Hops & Hcases).
    rewrite Hrun in Hrun0. injection Hrun0 as <- <-.
    apply paced_ops_log in Hops. rewrite Hlog in Hops.
    apply app_inv_head in Hops. subst new0.
    destruct Hcases as [[_ ->] | (e & soup & Hin & Hsome & _)];
      [ reflexivity | ].
    rewrite Forall_forall in Hnone. rewrite (Hnone e Hin) in Hsome. discriminate.
Qed.

(** Two answers 403 in a row, before and after the session is
    recreated, make the fetch fail with the message of line 223. *)
Lemma forbidden_fetch url set_code st ra rb :
  http_get w (length (log st)) url = GetReturns ra -> status_code ra = 403 ->
  http_get w (length (log st) + 2) url = GetReturns rb -> status_code rb = 403 ->
  fst (_fetch_product_page w url set_code st)
  = Returns (error_result url set_code forbidden_message).
Proof.
  intros Ha Hca Hb Hcb.
  unfold _fetch_product_page, bind.
  destruct (rate_limit_run st) as (st1 & -> & Hlog1 & _).
  rewrite fetch_try_eq.
  cbv [try_except bind session_get ret create_scraper _initialize_session].
  rewrite Hlog1, Ha, Hca. cbn [Z.eqb Pos.eqb].
  cbn [log rate_limit_delay last_request_time now session].
  match goal with
  | |- context [http_get w ?n BASE_URL] => destruct (http_get w n BASE_URL)
  end;
    cbn [log rate_limit_delay last_request_time now session];
    match goal with
    | |- context [http_get w ?n url] =>
        replace n with (length (log st) + 2)%nat
          by (rewrite !length_app; cbn [length]; lia)
    end;
    rewrite Hb;
    unfold after_get, raise_for_status, bind, raise; rewrite Hcb;
    cbn [Z.leb Z.ltb Z.compare Pos.compare Pos.compare_cont andb];
    unfold fetch_except, ret;
    change (str_of_Z 403) with "403";
    rewrite str_in_append; reflexivity.
Qed.

(** The third candidate and the search page are not among the
    addresses the first two candidates may request. *)
Lemma other_addresses set_code u :
  u = BASE_URL ++ "/en-us/product/" ++ set_code
  \/ u = BASE_URL ++ "/en-us/product/lego-set-" ++ set_code
  \/ u = BASE_URL ->
  u <> BASE_URL ++ "/product/" ++ set_code
  /\ u <> search_url_of set_code.
Proof.
  unfold search_url_of, BASE_URL. cbn [append].
  intros [-> | [-> | ->]]; split; discriminate.
Qed.

(** C3. When both requests for the first candidate are answered 403 (the
    request numbered [length (log st)] and, after the session is
    recreated and warmed up, the one numbered two later), and the fetch
    of the second candidate yields a result whose status is not [error],
    then the first fetch fails with the "403 Forbidden" message and
    [check_stock] returns the result of the second, in the state that
    fetch left: the third candidate and the search page are never
    requested. *)
Theorem forbidden_then_second_candidate set_code st ra rb r2 st2 :
  let code := strip set_code in
  let url1 := BASE_URL ++ "/en-us/product/" ++ code in
  let url2 := BASE_URL ++ "/en-us/product/lego-set-" ++ code in
  let url3 := BASE_URL ++ "/product/" ++ code in
  http_get w (length (log st)) url1 = GetReturns ra -> status_code ra = 403 ->
  http_get w (length (log st) + 2) url1 = GetReturns rb -> status_code rb = 403 ->
  _fetch_product_page w url2 code (snd (_fetch_product_page w url1 code st))
  = (Returns r2, st2) ->
  status r2 <> error ->
  fst (_fetch_product_page w url1 code st)
  = Returns (error_result url1 code forbidden_message)
  /\ check_stock w set_code st = (Returns r2, st2)
  /\ exists new : list Event,
      log st2 = (log st ++ new)%list
      /\ Forall (fun e => ev_url e <> url3
                          /\ ev_url e <> search_url_of code
                          /\ ev_kind e <> SearchGet) new.
Proof.
  intros code url1 url2 url3 Ha Hca Hb Hcb Hsecond Hok.
  pose proof (forbidden_fetch url1 code st ra rb Ha Hca Hb Hcb) as Hfirst.
  destruct (fetch_spec url1 code st) as (r1 & st1 & new1 & Hrun1 & Hop1 & Htr1 & _).
  rewrite Hrun1 in Hfirst, Hsecond. cbn [fst snd] in Hfirst, Hsecond.
  injection Hfirst as ->.
  destruct (fetch_spec url2 code st1) as (r2' & st2' & new2 & Hrun2 & Hop2 & Htr2 & _).
  rewrite Hsecond in Hrun2. injection Hrun2 as <- <-.
  split; [ rewrite Hrun1; reflexivity | ].
  split.
  - unfold check_stock. fold code.
    change (_get_product_urls code) with [url1; url2; url3].
    assert (Hloop : try_urls w [url1; url2; url3] code st
                    = (Returns (Some r2), st2)).
    { cbn [try_urls].
      rewrite (bind_returns _ _ _ _ _ Hrun1).
      cbn [error_result status stock message Status_eqb negb].
      assert (Hnext : (result <- _fetch_product_page w url2 code ;;
                       if negb (Status_eqb (status result) error)
                       then ret (Some result)
                       else if str_in "403" (message result)
                               || str_in "Forbidden" (message result)
                            then try_urls w [url3] code
                            else try_urls w [url3] code) st1
                      = (Returns (Some r2), st2)).
      { rewrite (bind_returns _ _ _ _ _ Hsecond).
        destruct (Status_eqb (status r2) error) eqn:E.
        - apply Status_eqb_eq in E. contradiction.
        - reflexivity. }
      destruct (str_in "403" forbidden_message
                || str_in "Forbidden" forbidden_message); exact Hnext. }
    rewrite (bind_returns _ _ _ _ _ Hloop). reflexivity.
  - exists (new1 ++ new2)%list. split.
    + destruct Hop1 as (Hl1 & _). destruct Hop2 as (Hl2 & _).
      rewrite Hl2, Hl1. symmetry. apply app_assoc.
    + apply Forall_app. split; [ revert Htr1 | revert Htr2 ];
        apply Forall_impl; intros e [Hk Hu];
        (split; [ | split; [ | exact Hk ] ]);
        apply (other_addresses code (ev_url e)); tauto.
Qed.

Lemma LEGOChecker_inv delay t0 :
  timer_inv (LEGOChecker w delay t0)
  /\ rate_limit_delay (LEGOChecker w delay t0) = delay.
Proof.
  unfold LEGOChecker.
  cbv [_initialize_session try_except bind session_get ret].
  cbn [log length].
  destruct (http_get w 0%nat BASE_URL); cbn [snd]; unfold timer_inv;
    cbn [log rate_limit_delay last_request_time app spaced_after last_paced
         paced ev_kind before]; auto.
Qed.

Lemma check_each_inv set_codes : forall st,
  timer_inv st ->
  timer_inv (check_each w set_codes st)
  /\ rate_limit_delay (check_each w set_codes st) = rate_limit_delay st.
Proof.
  induction set_codes as [ | set_code rest IH ]; intros st Hinv;
    [ split; [ exact Hinv | reflexivity ] | ].
  cbn [check_each fold_left].
  destruct (check_stock_spec set_code st) as (r & st' & new & Hrun & Hops & _).
  rewrite Hrun. cbn [snd].
  destruct (IH st' (paced_ops_inv _ _ _ Hops Hinv)) as [Hinv' Hd'].
  split; [ exact Hinv' | ].
  unfold check_each in Hd'. rewrite Hd'. eapply paced_ops_delay; eassumption.
Qed.

(** C8, as the code has it. Whatever the targets checked one after the
    other on one checker, two paced requests (the first request of a page
    fetch, or the search request) with no paced request in between start
    at least [rate_limit_delay] apart: one timer serves all targets, and
    it measures from start to start. *)
Theorem paced_requests_spaced delay t0 set_codes before_ e1 mid e2 after_ :
  log (check_each w set_codes (LEGOChecker w delay t0))
  = (before_ ++ e1 :: mid ++ e2 :: after_)%list ->
  paced e1 = true -> paced e2 = true ->
  Forall (fun e => paced e = false) mid ->
  ev_start e1 + delay <= ev_start e2.
Proof.
  intros Hlog Hp1 Hp2 Hmid.
  destruct (LEGOChecker_inv delay t0) as [Hinv Hd].
  destruct (check_each_inv set_codes _ Hinv) as [[Hsp _] Hd'].
  rewrite Hd', Hd, Hlog in Hsp.
  eapply spaced_after_pair; eassumption.
Qed.
End Facts.

(** *** Runs in concrete worlds *)

Example first_candidate_served :
  fst (check_stock (serving sample_page) " 72152 " (LEGOChecker (serving sample_page) 2000 t0))
  = Returns (mkStockResult
               (mkStockStatus true in_stock "In Stock" (Some "Add to Bag"))
               "Pikachu" None "https://www.lego.com/en-us/product/72152").
Proof. vm_compute. reflexivity. Qed.

Example nothing_served :
  fst (check_stock unreachable "72152" (LEGOChecker unreachable 2000 t0))
  = Returns (mkStockResult
               (mkStockStatus false error unable_message None)
               "Set 72152" None "https://www.lego.com/en-us/product/72152")
  /\ map ev_kind (log (snd (check_stock unreachable "72152"
                              (LEGOChecker unreachable 2000 t0))))
     = [Warmup; PageGet; PageGet; PageGet; SearchGet].
Proof. vm_compute. split; reflexivity. Qed.

Lemma error_iff_no_page_delivered_witness :
  exists r,
    fst (check_stock unreachable "72152" (LEGOChecker unreachable 2000 t0))
    = Returns r
    /\ status r = error /\ available r = false /\ button_detected r = None.
Proof.
  destruct (error_iff_no_page_delivered unreachable "72152"
              (LEGOChecker unreachable 2000 t0))
    as (r & st' & new & Hrun & Hlog & Hiff & Herr & _).
  exists r. rewrite Hrun. split; [ reflexivity | ].
  assert (Hstatus : status r = error).
  { apply Hiff.
    assert (Hnew : new = skipn 1 (log st'))
      by (rewrite Hlog; reflexivity).
    rewrite Hnew.
    replace st' with (snd (check_stock unreachable "72152"
                             (LEGOChecker unreachable 2000 t0)))
      by (rewrite Hrun; reflexivity).
    vm_compute. repeat constructor. }
  split; [ exact Hstatus | exact (Herr Hstatus) ].
Defined.

Lemma check_stock_never_raises_witness :
  exists r,
    fst (_fetch_product_page unreachable "https://www.lego.com/en-us/product/72152"
           "72152" (LEGOChecker unreachable 2000 t0))
    = Returns r
    /\ status r = error.
Proof.
  destruct (check_stock_never_raises unreachable "72152"
              (LEGOChecker unreachable 2000 t0)) as (_ & Hfetch & _).
  destruct (Hfetch "https://www.lego.com/en-us/product/72152"
              (LEGOChecker unreachable 2000 t0)
              "Connection refused"
              (snd (fetch_try unreachable "https://www.lego.com/en-us/product/72152"
                      "72152"
                      (snd (_rate_limit unreachable
                              (LEGOChecker unreachable 2000 t0))))))
    as (r & Hrun & Herr & _).
  - vm_compute. reflexivity.
  - exists r. rewrite Hrun. split; [ reflexivity | exact Herr ].
Defined.

Lemma forbidden_then_second_candidate_witness :
  fst (check_stock blocked_then_served "72152"
         (LEGOChecker blocked_then_served 2000 t0))
  = Returns (page_result "https://www.lego.com/en-us/product/lego-set-72152"
               sample_page "72152")
  /\ map ev_url (log (snd (check_stock blocked_then_served "72152"
                             (LEGOChecker blocked_then_served 2000 t0))))
     = [ "https://www.lego.com";
         "https://www.lego.com/en-us/product/72152";
         "https://www.lego.com";
         "https://www.lego.com/en-us/product/72152";
         "https://www.lego.com/en-us/product/lego-set-72152" ].
Proof.
  destruct (forbidden_then_second_candidate blocked_then_served "72152"
              (LEGOChecker blocked_then_served 2000 t0)
              (mkResponse 403 "Forbidden" (Unparseable ""))
              (mkResponse 403 "Forbidden" (Unparseable ""))
              (page_result "https://www.lego.com/en-us/product/lego-set-72152"
                 sample_page "72152")
              (snd (_fetch_product_page blocked_then_served
                      "https://www.lego.com/en-us/product/lego-set-72152" "72152"
                      (snd (_fetch_product_page blocked_then_served
                              "https://www.lego.com/en-us/product/72152" "72152"
                              (LEGOChecker blocked_then_served 2000 t0))))))
    as (_ & Hrun & _).
  - reflexivity.
  - reflexivity.
  - reflexivity.
  - reflexivity.
  - vm_compute. reflexivity.
  - vm_compute. discriminate.
  - rewrite Hrun. split; [ reflexivity | vm_compute; reflexivity ].
Defined.

(** C8, as it is written, fails. The first candidate is answered 403, the
    session is recreated and the page is served on the retry: the four
    requests of the run follow each other with no pause at all, where the
    claim asks for 2000 ms between the end of one and the start of the
    next. *)
Lemma requests_without_pause :
  map (fun e => (ev_kind e, ev_start e - t0, ev_end e - t0))
      (log (snd (check_stock blocked_once "72152"
                   (LEGOChecker blocked_once 2000 t0))))
  = [ (Warmup, 0, 150); (PageGet, 150, 300);
      (Warmup, 300, 450); (PageRetry, 450, 600) ]
  /\ ~ min_interval_respected 2000
         (log (snd (check_stock blocked_once "72152"
                      (LEGOChecker blocked_once 2000 t0)))).
Proof.
  split.
  - vm_compute. reflexivity.
  - vm_compute. intros [Hgap _]. apply Hgap. reflexivity.
Qed.

Lemma paced_requests_spaced_witness :
  map (fun e => (ev_kind e, ev_start e - t0))
      (log (check_each (serving plain_page) ["72152"; "10312"]
              (LEGOChecker (serving plain_page) 2000 t0)))
  = [ (Warmup, 0); (PageGet, 150); (PageGet, 2150) ]
  /\ (t0 + 150) + 2000 <= t0 + 2150.
Proof.
  split; [ vm_compute; reflexivity | ].
  apply (paced_requests_spaced (serving plain_page) 2000 t0 ["72152"; "10312"]
           [mkEvent Warmup "https://www.lego.com" t0 (t0 + 150) (ok plain_page)]
           (mkEvent PageGet "https://www.lego.com/en-us/product/72152"
                    (t0 + 150) (t0 + 300) (ok plain_page))
           []
           (mkEvent PageGet "https://www.lego.com/en-us/product/10312"
                    (t0 + 2150) (t0 + 2300) (ok plain_page))
           []).
  - vm_compute. reflexivity.
  - reflexivity.
  - reflexivity.
  - apply Forall_nil.
Defined.

End CheckerFacts.

(* ================================================================== *)
(** ** Properties of the watch repository *)
(* ================================================================== *)

Module DatabaseFacts.

Import Database.
Open Scope Z_scope.

Lemma where_triple_refl user_id guild set_code id0 ls lb lc t :
  where_triple user_id (Some guild) set_code
    (mkWatch id0 user_id (Some guild) set_code ls lb lc t) = true.
Proof.
  unfold where_triple. cbn [Database.user_id Database.guild_id Database.set_code sql_eq].
  rewrite !Z.eqb_refl, String.eqb_refl. reflexivity.
Qed.

(** After an insert with a guild that is not [NULL], a row with the
    triple is in the table. *)
Lemma insert_or_ignore_present user_id guild set_code t db :
  violates_unique user_id (Some guild) set_code
    (insert_or_ignore user_id (Some guild) set_code t db) = true.
Proof.
  unfold insert_or_ignore.
  destruct (violates_unique user_id (Some guild) set_code db) eqn:E; [ exact E | ].
  unfold violates_unique. cbn [watched_sets].
  rewrite existsb_app. cbn [existsb].
  rewrite where_triple_refl. rewrite orb_true_r. reflexivity.
Qed.

Lemma existsb_count {A} (f : A -> bool) (l : list A) :
  existsb f l = true -> (0 <? Z.of_nat (length (filter f l))) = true.
Proof.
  induction l as [ | a l IH ]; cbn [existsb filter]; [ discriminate | ].
  destruct (f a); cbn [orb length]; [ intros _ | exact IH ].
  apply Z.ltb_lt. lia.
Qed.

(** An insert that is ignored leaves the rows as they were. *)
Lemma insert_or_ignore_ignored user_id guild_id set_code t db :
  violates_unique user_id guild_id set_code db = true ->
  watched_sets (insert_or_ignore user_id guild_id set_code t db) = watched_sets db.
Proof. unfold insert_or_ignore. intros ->. reflexivity. Qed.

(** C7, as the code has it. With a guild that is not [NULL], the second
    [add_watch] of a triple stores no row, the rows of the table are those
    the first call left, and it returns [True]: the count that follows the
    insert finds the row of the first call. *)
Theorem second_add_reports_success user_id set_code guild t1 t2 db :
  let db1 := snd (add_watch user_id set_code (Some guild) t1 db) in
  fst (add_watch user_id set_code (Some guild) t2 db1) = true
  /\ watched_sets (snd (add_watch user_id set_code (Some guild) t2 db1))
     = watched_sets db1.
Proof.
  intro db1. subst db1. unfold add_watch. cbn [fst snd]. split.
  - unfold count_triple. apply existsb_count. apply insert_or_ignore_present.
  - apply insert_or_ignore_ignored. apply insert_or_ignore_present.
Qed.

(** On an empty table: both calls answer [True], one row is stored, and the
    counter has advanced twice. *)
Example add_twice_in_a_guild :
  let '(first, db1) := add_watch 7 "10312" (Some 42) 100 empty in
  let '(second, db2) := add_watch 7 "10312" (Some 42) 200 db1 in
  first = true /\ second = true
  /\ watched_sets db2 = [mkWatch 1 7 (Some 42) "10312" None None None 100]
  /\ sqlite_sequence db2 = 2.
Proof. vm_compute. repeat split. Qed.

(** Outside a guild ([guild_id] is [NULL]): both calls answer [False] and
    two rows are stored, since neither the UNIQUE constraint nor the count
    ever finds a [NULL] equal to a [NULL]. *)
Example add_twice_outside_a_guild :
  let '(first, db1) := add_watch 7 "10312" None 100 empty in
  let '(second, db2) := add_watch 7 "10312" None 200 db1 in
  first = false /\ second = false
  /\ watched_sets db2 = [mkWatch 1 7 None "10312" None None None 100;
                         mkWatch 2 7 None "10312" None None None 200].
Proof. vm_compute. repeat split. Qed.

(** The row an update leaves behind. *)
Lemma get_after_update watch_id status available button_detected t db row :
  get_watch_by_id watch_id db = Some row ->
  get_watch_by_id watch_id
    (update_watch_status watch_id status available button_detected t db)
  = Some (mkWatch (id row) (user_id row) (guild_id row) (set_code row)
                  (Some status) button_detected (Some t) (created_at row)).
Proof.
  unfold get_watch_by_id, update_watch_status. cbn [watched_sets].
  induction (watched_sets db) as [ | r rows IH ]; cbn [List.find map];
    [ discriminate | ].
  destruct (id r =? watch_id) eqn:E.
  - cbn [id]. rewrite E. intro H. injection H as ->. reflexivity.
  - rewrite E. exact IH.
Qed.

End DatabaseFacts.

(* ================================================================== *)
(** ** Properties of the diff rule *)
(* ================================================================== *)

Module MonitorFacts.

Import Database Monitor.
Open Scope Z_scope.

Lemma differs_refl a : differs a a = false.
Proof. destruct a; cbn; [ rewrite String.eqb_refl | ]; reflexivity. Qed.

Lemma button_changed_same a : button_changed a a = false.
Proof. unfold button_changed. rewrite differs_refl. reflexivity. Qed.

Lemma Status_eqb_refl s : Status_eqb s s = true.
Proof. destruct s; reflexivity. Qed.

Lemma Status_eqb_neq a b : a <> b -> Status_eqb a b = false.
Proof.
  intro H. destruct (Status_eqb a b) eqn:E; [ | reflexivity ].
  apply Status_eqb_eq in E. contradiction.
Qed.

Section Rule.

Variable w : World.

(** C5. Processing a watch stores the new status, button and time of
    the check in its row, whatever is notified; a watch with no stored
    status is not notified; a stored status that differs from the new one
    gives exactly one call of [_send_notification]; an unchanged status
    with a button where none was stored gives exactly one call of
    [_send_button_notification] and no other. *)
Theorem persisted_and_notified_once (watch : Watch) (ms : MonitorState) :
  exists result checker',
    check_stock w (set_code watch) (lego_checker ms) = (Returns result, checker')
    /\ fst (_check_watch w watch ms) = Returns tt
    /\ (forall row,
           get_watch_by_id (id watch) (db ms) = Some row ->
           exists row',
             get_watch_by_id (id watch) (db (snd (_check_watch w watch ms)))
             = Some row'
             /\ last_status row' = Some (status result)
             /\ last_button_detected row' = button_detected result
             /\ last_checked row' = Some (now checker'))
    /\ (last_status watch = None ->
        sent (snd (_check_watch w watch ms)) = sent ms)
    /\ (forall last,
           last_status watch = Some last -> last <> status result ->
           sent (snd (_check_watch w watch ms))
           = (sent ms ++ [_send_notification (user_id watch) (guild_id watch)
                            (set_code watch) result last (status result)])%list)
    /\ (forall button,
           last_status watch = Some (status result) ->
           last_button_detected watch = None ->
           button_detected result = Some button ->
           sent (snd (_check_watch w watch ms))
           = (sent ms ++ [_send_button_notification (user_id watch) (guild_id watch)
                            (set_code watch) result None (Some button)])%list).
Proof.
  destruct (CheckerFacts.check_stock_spec w (set_code watch) (lego_checker ms))
    as (result & checker' & _ & Hrun & _).
  exists result, checker'. split; [ exact Hrun | ].
  unfold _check_watch. rewrite Hrun.
  split; [ destruct (last_status watch);
           [ destruct (negb _); [ | destruct (button_changed _ _) ] | ];
           reflexivity | ].
  split; [ | split; [ | split ] ].
  - intros row Hrow.
    match goal with
    | |- context [db (snd ?run)] =>
        assert (Hdb : db (snd run)
                      = update_watch_status (id watch) (status result)
                          (available result) (button_detected result)
                          (now checker') (db ms))
          by (destruct (last_status watch);
              [ destruct (negb _); [ | destruct (button_changed _ _) ] | ];
              reflexivity)
    end.
    rewrite Hdb, (DatabaseFacts.get_after_update _ _ _ _ _ _ _ Hrow).
    eexists. split; [ reflexivity | ]. repeat split.
  - intros ->. reflexivity.
  - intros last -> Hne. rewrite (Status_eqb_neq _ _ Hne). reflexivity.
  - intros button -> Hnone Hsome.
    rewrite Status_eqb_refl, Hnone, Hsome. reflexivity.
Qed.

(** C6, as the code has it. With the status unchanged, a button equal
    to the stored one is not notified; a button that disappears gives
    exactly one call of [_send_button_notification], whose message is
    headed "Button Changed". *)
Theorem unchanged_button_not_notified (watch : Watch) (ms : MonitorState)
        result checker' :
  check_stock w (set_code watch) (lego_checker ms) = (Returns result, checker') ->
  last_status watch = Some (status result) ->
  (last_button_detected watch = button_detected result ->
   sent (snd (_check_watch w watch ms)) = sent ms)
  /\ (forall old,
         last_button_detected watch = Some old ->
         button_detected result = None ->
         sent (snd (_check_watch w watch ms))
         = (sent ms ++ [_send_button_notification (user_id watch) (guild_id watch)
                          (set_code watch) result (Some old) None])%list
         /\ button_heading (Some old) None = Some Button_Changed).
Proof.
  intros Hrun Hstatus. unfold _check_watch. rewrite Hrun, Hstatus.
  rewrite Status_eqb_refl. cbn [negb]. split.
  - intros ->. rewrite button_changed_same. reflexivity.
  - intros old -> ->. split; reflexivity.
Qed.

End Rule.

Lemma persisted_and_notified_once_witness :
  exists n,
    sent (snd (_check_watch (serving sample_page) watch_no_button
                 (monitor_of (serving sample_page) watch_no_button)))
    = [n].
Proof.
  destruct (persisted_and_notified_once (serving sample_page) watch_no_button
              (monitor_of (serving sample_page) watch_no_button))
    as (result & checker' & Hrun & _ & _ & _ & _ & Hbutton).
  vm_compute in Hrun. injection Hrun as <- <-.
  eexists. apply (Hbutton "Add to Bag"); reflexivity.
Defined.

(** C6, as it is written, fails. The watch was last seen in stock with the
    button "Add to Bag"; the page is still in stock and has no purchase
    container any more: one button notification is sent. *)
Lemma vanished_button_is_notified :
  exists result checker',
    check_stock (serving plain_page) (set_code watch_with_button)
      (lego_checker (monitor_of (serving plain_page) watch_with_button))
    = (Returns result, checker')
    /\ last_status watch_with_button = Some (status result)
    /\ last_button_detected watch_with_button = Some "Add to Bag"
    /\ button_detected result = None
    /\ sent (snd (_check_watch (serving plain_page) watch_with_button
                    (monitor_of (serving plain_page) watch_with_button)))
       = [_send_button_notification 7 (Some 42) "72152" result
            (Some "Add to Bag") None]
    /\ sent (snd (_check_watch (serving plain_page) watch_with_button
                    (monitor_of (serving plain_page) watch_with_button)))
       <> sent (monitor_of (serving plain_page) watch_with_button).
Proof.
  do 2 eexists. split; [ vm_compute; reflexivity | ].
  split; [ reflexivity | ].
  split; [ reflexivity | ].
  split; [ reflexivity | ].
  split; [ vm_compute; reflexivity | vm_compute; discriminate ].
Qed.

Lemma unchanged_button_not_notified_witness :
  sent (snd (_check_watch (serving sample_page) watch_with_button
               (monitor_of (serving sample_page) watch_with_button)))
  = [].
Proof.
  destruct (unchanged_button_not_notified (serving sample_page) watch_with_button
              (monitor_of (serving sample_page) watch_with_button)
              (page_result "https://www.lego.com/en-us/product/72152"
                 sample_page "72152")
              (snd (check_stock (serving sample_page) "72152"
                      (LEGOChecker (serving sample_page) 2000 t0))))
    as [Hsame _].
  - vm_compute. reflexivity.
  - reflexivity.
  - apply Hsame. reflexivity.
Defined.

End MonitorFacts.

(* ================================================================== *)
(** ** Further properties: strings *)
(* ================================================================== *)

Module StringFacts.

Lemma rstrip_cons_keeps (c : ascii) (s : string) :
  isspace c = false -> rstrip (String c s) = String c (rstrip s).
Proof.
  intro Hc. cbn [rstrip]. destruct (rstrip s); [ rewrite Hc | ]; reflexivity.
Qed.

Lemma rstrip_step (c : ascii) (s : string) :
  rstrip (String c s)
  = match rstrip s with
    | EmptyString => if isspace c then EmptyString else String c EmptyString
    | r => String c r
    end.
Proof. reflexivity. Qed.

Lemma rstrip_idempotent (s : string) : rstrip (rstrip s) = rstrip s.
Proof.
  induction s as [ | c s IH ]; [ reflexivity | ].
  rewrite rstrip_step. destruct (rstrip s) as [ | d r ] eqn:E.
  - destruct (isspace c) eqn:Hc; [ reflexivity | ].
    rewrite rstrip_step. cbn [rstrip]. rewrite Hc. reflexivity.
  - rewrite rstrip_step, IH. reflexivity.
Qed.

Lemma lstrip_head (s : string) c s' : lstrip s = String c s' -> isspace c = false.
Proof.
  induction s as [ | d s IH ]; [ discriminate | ].
  cbn [lstrip]. destruct (isspace d) eqn:Hd; [ exact IH | ].
  intro H. injection H as <- _. exact Hd.
Qed.

Lemma strip_idempotent (s : string) : strip (strip s) = strip s.
Proof.
  unfold strip. destruct (lstrip s) as [ | c t ] eqn:E; [ reflexivity | ].
  pose proof (lstrip_head s c t E) as Hc.
  rewrite (rstrip_cons_keeps c t Hc).
  cbn [lstrip]. rewrite Hc.
  rewrite (rstrip_cons_keeps c (rstrip t) Hc), rstrip_idempotent. reflexivity.
Qed.

Lemma str_in_of_prefix (p s : string) : String.prefix p s = true -> str_in p s = true.
Proof. destruct s; cbn [str_in]; intros ->; reflexivity. Qed.

Lemma str_in_cons (p : string) (c : ascii) (s : string) :
  str_in p s = true -> str_in p (String c s) = true.
Proof. intro H. cbn [str_in]. rewrite H. apply orb_true_r. Qed.

Lemma str_in_prepend (p a s : string) : str_in p s = true -> str_in p (a ++ s) = true.
Proof.
  intro H. induction a as [ | c a IH ]; [ exact H | ].
  cbn [append]. apply str_in_cons. exact IH.
Qed.

Lemma prefix_app_inv (a b : string) : forall t,
  String.prefix (a ++ b) t = true ->
  exists t', t = a ++ t' /\ String.prefix b t' = true.
Proof.
  induction a as [ | c a IH ]; intros t H.
  - exists t. split; [ reflexivity | exact H ].
  - destruct t as [ | d t ]; cbn [append String.prefix] in H; [ discriminate | ].
    destruct (ascii_dec c d) as [ -> | ]; [ | discriminate ].
    destruct (IH t H) as (t' & -> & Hb).
    exists t'. split; [ reflexivity | exact Hb ].
Qed.

(** A text that contains [a ++ b] contains [b]. *)
Lemma str_in_suffix (a b : string) : forall t,
  str_in (a ++ b) t = true -> str_in b t = true.
Proof.
  induction t as [ | c t IH ]; cbn [str_in]; intro H.
  - rewrite orb_false_r in H.
    destruct (prefix_app_inv a b "" H) as (t' & Ht & Hb).
    destruct a; [ | discriminate ]. cbn [append] in Ht. subst t'.
    rewrite Hb. reflexivity.
  - apply orb_true_iff in H. destruct H as [H | H].
    + destruct (prefix_app_inv a b _ H) as (t' & Ht & Hb).
      change (str_in b (String c t) = true). rewrite Ht.
      apply str_in_prepend, str_in_of_prefix. exact Hb.
    + rewrite (IH H). apply orb_true_r.
Qed.

Lemma str_in_nonempty (p s : string) :
  truthy p = true -> str_in p s = true -> truthy s = true.
Proof. destruct p; [ discriminate | ]. destruct s; [ discriminate | reflexivity ]. Qed.

End StringFacts.

(* ================================================================== *)
(** ** Further properties: the classifier *)
(* ================================================================== *)

Module ClassifierExtra.

Import StringFacts.

Ltac split_matches :=
  repeat match goal with
         | |- context [match ?x with _ => _ end] => destruct x
         end.

Lemma silent_text_tier soup :
  metadata_silent soup ->
  _check_stock_status soup
  = text_tier soup (lower (get_text soup)) (_detect_button soup).
Proof.
  unfold metadata_silent, _check_stock_status, recognised.
  destruct (find "meta" "property" "product:availability" soup) as [ m | ];
    [ | reflexivity ].
  intro H.
  repeat (apply orb_false_iff in H; destruct H as [H ?]).
  repeat match goal with
         | E : str_in _ _ = false |- _ => rewrite E; clear E
         end.
  reflexivity.
Qed.

(** The text inside a script, a style sheet or a template is no part of
    the text of the page. *)
Lemma container_not_read name before attrs text after_ :
  In name ["script"; "style"; "template"] ->
  get_text (BeautifulSoup_of (before ++ Tag name attrs [NavigableString text] :: after_))
  = get_text (BeautifulSoup_of (before ++ after_)).
Proof.
  intro Hname. unfold get_text, strings, BeautifulSoup_of.
  cbn [interesting_string_types all_strings].
  rewrite !flat_map_app. cbn [flat_map].
  change (string_container None "[document]") with (@None string_class).
  change (string_containers "[document]") with (@None string_class).
  assert (Hempty : all_strings None None (Tag name attrs [NavigableString text]) = []).
  { destruct Hname as [ <- | [ <- | [ <- | [] ] ] ]; reflexivity. }
  rewrite Hempty. reflexivity.
Qed.

(** The text of a script element itself is its code. *)
Lemma script_own_text attrs code :
  get_text (Tag "script" attrs [NavigableString code]) = code.
Proof. reflexivity. Qed.

Example scripted_page_in_stock :
  get_text scripted_page = "In stock"
  /\ status (_check_stock_status scripted_page) = in_stock.
Proof. split; reflexivity. Qed.

(** X1. With no recognised availability metadata, a page whose text
    mentions "pre-order" or "preorder" is classified [pre_order] and not
    available, whatever other stock words the text contains. *)
Theorem pre_order_text_wins (soup : node) :
  metadata_silent soup ->
  str_in "pre-order" (lower (get_text soup)) = true
  \/ str_in "preorder" (lower (get_text soup)) = true ->
  status (_check_stock_status soup) = pre_order
  /\ available (_check_stock_status soup) = false.
Proof.
  intros Hsilent Htext. rewrite (silent_text_tier soup Hsilent).
  unfold text_tier.
  assert (Hor : str_in "pre-order" (lower (get_text soup))
                || str_in "preorder" (lower (get_text soup)) = true)
    by (apply orb_true_iff; exact Htext).
  rewrite Hor. split; reflexivity.
Qed.

Lemma pre_order_text_wins_witness :
  str_in "in stock" (lower (get_text mixed_page)) = true
  /\ str_in "sold out" (lower (get_text mixed_page)) = true
  /\ status (_check_stock_status mixed_page) = pre_order.
Proof.
  split; [ reflexivity | split; [ reflexivity | ] ].
  apply (pre_order_text_wins mixed_page).
  - exact I.
  - left. reflexivity.
Defined.

(** X2. The text scan looks for "available now" before it looks for
    "unavailable": with no recognised metadata and no mention of a
    pre-order or of "coming soon", a page that says "unavailable now" is
    classified [in_stock] and available. *)
Theorem unavailable_now_is_in_stock (soup : node) :
  metadata_silent soup ->
  str_in "pre-order" (lower (get_text soup)) = false ->
  str_in "preorder" (lower (get_text soup)) = false ->
  str_in "coming soon" (lower (get_text soup)) = false ->
  str_in "unavailable now" (lower (get_text soup)) = true ->
  status (_check_stock_status soup) = in_stock
  /\ available (_check_stock_status soup) = true.
Proof.
  intros Hsilent Hp1 Hp2 Hsoon Hun.
  rewrite (silent_text_tier soup Hsilent). unfold text_tier.
  rewrite Hp1, Hp2, Hsoon. cbn [orb].
  rewrite (str_in_suffix "un" "available now" _ Hun). split; reflexivity.
Qed.

Lemma unavailable_now_is_in_stock_witness :
  status (_check_stock_status unavailable_page) = in_stock
  /\ available (_check_stock_status unavailable_page) = true.
Proof.
  apply (unavailable_now_is_in_stock unavailable_page);
    [ exact I | reflexivity | reflexivity | reflexivity | reflexivity ].
Defined.

Lemma text_tier_verdict s1 s2 page_text b1 b2 :
  get_text s1 = get_text s2 ->
  verdict_of (text_tier s1 page_text b1) = verdict_of (text_tier s2 page_text b2).
Proof.
  intro Htext. unfold text_tier, _extract_shipping_date. rewrite Htext.
  split_matches; reflexivity.
Qed.

(** X3. Status, availability and message are decided by the text of
    the page and the content of the availability metadata alone: two pages
    that agree on both are classified alike, whatever their markup and
    whatever button is detected on them. *)
Theorem verdict_ignores_markup (s1 s2 : node) :
  get_text s1 = get_text s2 ->
  metadata_content s1 = metadata_content s2 ->
  status (_check_stock_status s1) = status (_check_stock_status s2)
  /\ available (_check_stock_status s1) = available (_check_stock_status s2)
  /\ message (_check_stock_status s1) = message (_check_stock_status s2).
Proof.
  intros Htext Hmeta.
  assert (H : verdict_of (_check_stock_status s1) = verdict_of (_check_stock_status s2)).
  { unfold metadata_content in Hmeta. unfold _check_stock_status.
    destruct (find "meta" "property" "product:availability" s1) as [ m1 | ];
      destruct (find "meta" "property" "product:availability" s2) as [ m2 | ];
      cbn [option_map] in Hmeta; try discriminate.
    - injection Hmeta as Hc. rewrite Hc, Htext.
      unfold _extract_shipping_date. rewrite Htext.
      repeat match goal with
             | |- context [if ?c then _ else _] =>
                 lazymatch c with
                 | context [text_tier] => fail
                 | _ => destruct c
                 end
             end;
        try reflexivity;
        try (split_matches; reflexivity);
        apply text_tier_verdict; exact Htext.
    - rewrite Htext. apply text_tier_verdict. exact Htext. }
  unfold verdict_of in H. injection H as Hs Ha Hm. auto.
Qed.

Lemma verdict_ignores_markup_witness :
  button_detected (_check_stock_status page_with_container) = Some "Add to Bag"
  /\ button_detected (_check_stock_status page_without_container) = None
  /\ status (_check_stock_status page_with_container)
     = status (_check_stock_status page_without_container).
Proof.
  split; [ reflexivity | split; [ reflexivity | ] ].
  apply (verdict_ignores_markup page_with_container page_without_container);
    reflexivity.
Defined.

Lemma first_price_currency selectors soup p :
  first_price selectors soup = Some p ->
  truthy p = true /\ (str_in "$" p || str_in "€" p || str_in "£" p) = true.
Proof.
  induction selectors as [ | sel rest IH ]; [ discriminate | ].
  cbn [first_price].
  destruct (select_one sel soup) as [ element | ]; [ | exact IH ].
  destruct (truthy (get_text_strip "" element)
            && (str_in "$" (get_text_strip "" element)
                || str_in "€" (get_text_strip "" element)
                || str_in "£" (get_text_strip "" element))) eqn:E; [ | exact IH ].
  intro H. injection H as <-. apply andb_true_iff in E. exact E.
Qed.

Lemma first_name_truthy selectors soup name :
  first_name selectors soup = Some name -> truthy name = true.
Proof.
  induction selectors as [ | sel rest IH ]; [ discriminate | ].
  cbn [first_name].
  destruct (select_one sel soup) as [ element | ]; [ | exact IH ].
  destruct (truthy (get_text_strip "" element)) eqn:E; [ | exact IH ].
  intro H. injection H as <-. exact E.
Qed.

(** X4. The name extracted from a page is never empty, and a price is
    reported only when it is not empty and contains "$", the euro sign or
    the pound sign. *)
Theorem name_and_price_well_formed (soup : node) (set_code : string) :
  truthy (_extract_set_name soup set_code) = true
  /\ (forall p, _extract_price soup = Some p ->
                truthy p = true
                /\ (str_in "$" p || str_in "€" p || str_in "£" p) = true).
Proof.
  split.
  - unfold _extract_set_name.
    destruct (first_name name_selectors soup) as [ name | ] eqn:E.
    + eapply first_name_truthy; exact E.
    + reflexivity.
  - intro p. apply first_price_currency.
Qed.

Lemma name_and_price_well_formed_witness :
  _extract_set_name priced_page "10270" = "Shopping Street"
  /\ _extract_price priced_page = Some "$249.99"
  /\ str_in "$" "$249.99" || str_in "€" "$249.99" || str_in "£" "$249.99" = true.
Proof.
  split; [ reflexivity | split; [ reflexivity | ] ].
  destruct (name_and_price_well_formed priced_page "10270") as [_ Hprice].
  apply (Hprice "$249.99"). reflexivity.
Defined.

Lemma scan_buttons_purchase buttons s :
  scan_buttons buttons = Some s ->
  truthy s = true
  /\ exists button,
      In button buttons /\ skipped button = false /\ purchase_like button = true
      /\ (s = get_text_strip " " button
          \/ (get_text_strip " " button = "" /\ s = get button "aria-label" "")).
Proof.
  induction buttons as [ | button rest IH ]; [ discriminate | ].
  assert (Hlater : scan_buttons rest = Some s ->
                   truthy s = true
                   /\ exists b,
                       In b (button :: rest) /\ skipped b = false
                       /\ purchase_like b = true
                       /\ (s = get_text_strip " " b
                           \/ (get_text_strip " " b = "" /\ s = get b "aria-label" ""))).
  { intro H. destruct (IH H) as (Ht & b & Hin & Hb).
    split; [ exact Ht | ]. exists b. split; [ right; exact Hin | exact Hb ]. }
  cbn [scan_buttons]. fold (purchase_like button).
  destruct (skipped button) eqn:Hskip; [ exact Hlater | ].
  destruct (purchase_like button) eqn:Hbuy; [ | exact Hlater ].
  destruct (get_text_strip " " button) as [ | c t ] eqn:Htext.
  - cbn [truthy].
    destruct (truthy (get button "aria-label" "")) eqn:Haria; [ | exact Hlater ].
    intro H. injection H as <-. split; [ exact Haria | ].
    exists button. split; [ left; reflexivity | ].
    repeat split; auto.
  - cbn [truthy]. intro H. injection H as <-. split; [ reflexivity | ].
    exists button. split; [ left; reflexivity | ].
    repeat split; auto.
Qed.

(** X5. A detected button is never the empty string: it is the visible
    text, or for a button without text the [aria-label], of a button inside
    the purchase container that matches no negative keyword and that matches
    a purchase keyword or carries an "add-to-cart" [data-test]. *)
Theorem detected_button_origin (soup : node) (s : string) :
  _detect_button soup = Some s ->
  truthy s = true
  /\ exists sticky_container button,
      find "div" "data-test" "add-to-bag-sticky-container" soup = Some sticky_container
      /\ In button (find_all "button" sticky_container)
      /\ skipped button = false
      /\ purchase_like button = true
      /\ (s = get_text_strip " " button
          \/ (get_text_strip " " button = "" /\ s = get button "aria-label" "")).
Proof.
  unfold _detect_button.
  destruct (find "div" "data-test" "add-to-bag-sticky-container" soup)
    as [ sticky_container | ]; [ | discriminate ].
  intro H. destruct (scan_buttons_purchase _ _ H) as (Ht & button & Hb).
  split; [ exact Ht | ]. exists sticky_container, button.
  split; [ reflexivity | exact Hb ].
Qed.

Lemma detected_button_origin_witness :
  _detect_button sample_page = Some "Add to Bag" /\ truthy "Add to Bag" = true.
Proof.
  split; [ reflexivity | ].
  apply (detected_button_origin sample_page "Add to Bag"). reflexivity.
Defined.

End ClassifierExtra.

(* ================================================================== *)
(** ** Further properties: the fetch client and the orchestrator *)
(* ================================================================== *)

Module CheckerExtra.

Import StringFacts.
Open Scope Z_scope.

Lemma same_value_ret {A} (a : A) : same_value (ret a).
Proof. intros st1 st2. reflexivity. Qed.

Lemma same_value_raise {A} msg : same_value (@raise A msg).
Proof. intros st1 st2. reflexivity. Qed.

Lemma same_value_bind {A B} (c : M A) (k : A -> M B) :
  same_value c -> (forall a, same_value (k a)) -> same_value (bind c k).
Proof.
  intros Hc Hk st1 st2. unfold bind.
  specialize (Hc st1 st2).
  destruct (c st1) as [[a1 | m1] s1], (c st2) as [[a2 | m2] s2];
    cbn [fst] in Hc; try discriminate.
  - injection Hc as <-. apply Hk.
  - injection Hc as <-. reflexivity.
Qed.

Lemma same_value_try {A} (body : M A) (handler : string -> M A) :
  same_value body -> (forall msg, same_value (handler msg)) ->
  same_value (try_except body handler).
Proof.
  intros Hc Hk st1 st2. unfold try_except.
  specialize (Hc st1 st2).
  destruct (body st1) as [[a1 | m1] s1], (body st2) as [[a2 | m2] s2];
    cbn [fst] in Hc; try discriminate.
  - exact Hc.
  - injection Hc as <-. apply Hk.
Qed.

Section Extra.

Variable w : World.

(** The number of requests of a page fetch. *)
Lemma fetch_count url set_code st :
  exists k : nat,
    (k = 1 \/ k = 3)%nat
    /\ length (log (snd (_fetch_product_page w url set_code st)))
       = (length (log st) + k)%nat.
Proof.
  destruct (CheckerFacts.fetch_traffic w url set_code st) as (new & Hlog & _ & Hmap).
  exists (length new). rewrite Hlog, length_app. split; [ | reflexivity ].
  rewrite <- (length_map (fun e => (ev_kind e, ev_url e)) new), Hmap.
  unfold fetch_requests. destruct (forbidden_first w url st); cbn [length]; auto.
Qed.

Lemma try_urls_count set_code urls : forall st,
  (length (log st) <= length (log (snd (try_urls w urls set_code st)))
   <= length (log st) + 3 * length urls)%nat
  /\ (urls <> [] ->
      length (log st) + 1 <= length (log (snd (try_urls w urls set_code st))))%nat.
Proof.
  induction urls as [ | product_url rest IH ]; intro st.
  - cbn. split; [ lia | congruence ].
  - cbn [try_urls]. unfold bind.
    destruct (fetch_count product_url set_code st) as (k & Hk & Hlen).
    destruct (CheckerFacts.fetch_spec w product_url set_code st)
      as (r & st1 & new & Hrun & _).
    rewrite Hrun in Hlen |- *. cbn [snd] in Hlen.
    destruct (IH st1) as [Hrest _].
    cbn [length].
    destruct (negb (Status_eqb (status r) error)).
    + unfold ret. cbn [snd]. split; [ | intros _ ]; lia.
    + destruct (str_in "403" (message r) || str_in "Forbidden" (message r));
        (split; [ | intros _ ]; lia).
Qed.

Lemma check_stock_count set_code st :
  exists n : nat,
    length (log (snd (check_stock w set_code st))) = (length (log st) + n)%nat
    /\ (1 <= n <= 13)%nat.
Proof.
  unfold check_stock. unfold bind at 1.
  destruct (try_urls_count (strip set_code) (_get_product_urls (strip set_code)) st)
    as [Hloop Hone].
  assert (Hone' : (length (log st) + 1
                   <= length (log (snd (try_urls w (_get_product_urls (strip set_code))
                                          (strip set_code) st))))%nat)
    by (apply Hone; discriminate).
  clear Hone. cbn [_get_product_urls length] in Hloop.
  destruct (CheckerFacts.try_urls_spec w (strip set_code)
              (_get_product_urls (strip set_code)) st)
    as (found & st1 & new1 & Hrun & _).
  rewrite Hrun in Hloop, Hone' |- *. cbn [snd] in Hloop, Hone'.
  destruct found as [ result | ].
  { unfold ret. cbn [snd].
    exists (length (log st1) - length (log st))%nat. lia. }
  unfold bind at 1.
  destruct (CheckerFacts.search_spec w (strip set_code) st1)
    as (res & st2 & es & -> & Hop2 & _).
  destruct Hop2 as (Hlog2 & _).
  assert (Hlen2 : length (log st2) = (length (log st1) + 1)%nat)
    by (rewrite Hlog2, length_app; reflexivity).
  assert (Hstop : exists n : nat,
             length (log st2) = (length (log st) + n)%nat /\ (1 <= n <= 13)%nat)
    by (exists (length (log st2) - length (log st))%nat; lia).
  destruct res as [ search_url | ];
    [ destruct (truthy search_url) | ];
    try (unfold bind, ret at 1; cbn [snd]; exact Hstop).
  unfold bind.
  destruct (fetch_count search_url (strip set_code) st2) as (k & Hk & Hlen3).
  destruct (CheckerFacts.fetch_spec w search_url (strip set_code) st2)
    as (r & st3 & new3 & Hrun3 & _).
  rewrite Hrun3 in Hlen3 |- *. cbn [snd] in Hlen3.
  destruct (negb (Status_eqb (status r) error)); unfold ret; cbn [snd];
    exists (length (log st3) - length (log st))%nat; lia.
Qed.

(** X6. A page fetch sends the request for the page and nothing else,
    unless the world answers that request with a 403: then, and only then,
    it goes on with the warm-up of the new session and one retry, three
    requests in all.  A call of [check_stock] sends at least one request
    and at most thirteen. *)
Theorem requests_per_check (set_code : string) (st : State) :
  (forall url,
      exists new : list Event,
        log (snd (_fetch_product_page w url set_code st)) = (log st ++ new)%list
        /\ map (fun e => (ev_kind e, ev_url e)) new
           = if forbidden_first w url st
             then [(PageGet, url); (Warmup, BASE_URL); (PageRetry, url)]
             else [(PageGet, url)])
  /\ (length (log st) + 1
      <= length (log (snd (check_stock w set_code st)))
      <= length (log st) + 13)%nat.
Proof.
  split.
  - intro url.
    destruct (CheckerFacts.fetch_traffic w url set_code st) as (new & Hlog & _ & Hmap).
    exists new. split; [ exact Hlog | exact Hmap ].
  - destruct (check_stock_count set_code st) as (n & -> & Hn). lia.
Qed.

Lemma checked_available set_code st r st' :
  check_stock w set_code st = (Returns r, st') ->
  (available r = true <-> status r = in_stock).
Proof.
  intro Hrun.
  destruct (CheckerFacts.check_stock_spec w set_code st)
    as (r0 & st0 & new & Hrun0 & _ & Hcases).
  rewrite Hrun in Hrun0. injection Hrun0 as <- <-.
  destruct Hcases as [[_ ->] | (e & soup & _ & _ & ->)].
  - cbn. split; discriminate.
  - cbn [page_result available status stock].
    apply ClassifierFacts.available_iff_in_stock.
Qed.

(** X7. Whatever [check_stock] returns, [available] is set exactly when
    the status is [in_stock]. *)
Theorem available_means_in_stock (set_code : string) (st : State) r st' :
  check_stock w set_code st = (Returns r, st') ->
  (available r = true <-> status r = in_stock).
Proof. apply checked_available. Qed.

(** X8. An [error] answer of [check_stock] is always the same one: the
    message of lines 143-151, the first candidate as address, "Set " and the
    code as name, no price; the messages of the single fetches ("403
    Forbidden", "Error fetching product page") never reach the caller. *)
Theorem error_answer_is_generic (set_code : string) (st : State) r st' :
  check_stock w set_code st = (Returns r, st') ->
  status r = error ->
  r = mkStockResult (mkStockStatus false error unable_message None)
                    ("Set " ++ strip set_code) None
                    (BASE_URL ++ "/en-us/product/" ++ strip set_code).
Proof.
  intros Hrun Herr.
  destruct (CheckerFacts.check_stock_spec w set_code st)
    as (r0 & st0 & new & Hrun0 & _ & Hcases).
  rewrite Hrun in Hrun0. injection Hrun0 as <- <-.
  destruct Hcases as [[_ ->] | (e & soup & _ & _ & ->)]; [ reflexivity | ].
  apply Status_eqb_eq in Herr.
  rewrite CheckerFacts.page_result_not_error in Herr. discriminate.
Qed.

Lemma fetch_delivered_first url set_code st r soup :
  http_get w (length (log st)) url = GetReturns r ->
  usable r = Some soup ->
  exists st' e,
    _fetch_product_page w url set_code st
    = (Returns (page_result url soup set_code), st')
    /\ log st' = (log st ++ [e])%list
    /\ ev_kind e = PageGet /\ ev_url e = url /\ ev_outcome e = GetReturns r.
Proof.
  intros Hget Hu.
  unfold _fetch_product_page, bind.
  destruct (CheckerFacts.rate_limit_run w st) as (st1 & -> & Hlog1 & _).
  rewrite CheckerFacts.fetch_try_eq.
  cbv [try_except bind session_get ret create_scraper _initialize_session].
  rewrite Hlog1, Hget.
  destruct (status_code r =? 403) eqn:Hcode.
  - apply Z.eqb_eq, CheckerFacts.usable_403 in Hcode. congruence.
  - match goal with
    | |- context [after_get ?u ?c r ?s] =>
        rewrite (CheckerFacts.after_get_usable u c r soup s Hu)
    end.
    do 2 eexists. split; [ reflexivity | ].
    cbn [log]. repeat split.
Qed.

(** X9. When the first request for the first candidate is answered by
    a usable page, [check_stock] returns the classification of that page
    under the address of the first candidate, and that request is the only
    one it sends. *)
Theorem first_candidate_wins (set_code : string) (st : State) r soup :
  http_get w (length (log st)) (BASE_URL ++ "/en-us/product/" ++ strip set_code)
  = GetReturns r ->
  usable r = Some soup ->
  exists st' e,
    check_stock w set_code st
    = (Returns (page_result (BASE_URL ++ "/en-us/product/" ++ strip set_code)
                            soup (strip set_code)), st')
    /\ log st' = (log st ++ [e])%list
    /\ ev_kind e = PageGet
    /\ ev_url e = BASE_URL ++ "/en-us/product/" ++ strip set_code.
Proof.
  intros Hget Hu.
  destruct (fetch_delivered_first _ (strip set_code) st r soup Hget Hu)
    as (st' & e & Hrun & Hlog & Hk & Hurl & _).
  exists st', e. split; [ | auto ].
  unfold check_stock.
  assert (Hloop : try_urls w (_get_product_urls (strip set_code)) (strip set_code) st
                  = (Returns (Some (page_result
                                      (BASE_URL ++ "/en-us/product/" ++ strip set_code)
                                      soup (strip set_code))), st')).
  { cbn [_get_product_urls try_urls].
    rewrite (CheckerFacts.bind_returns _ _ _ _ _ Hrun).
    rewrite CheckerFacts.page_result_not_error. reflexivity. }
  rewrite (CheckerFacts.bind_returns _ _ _ _ _ Hloop). reflexivity.
Qed.

(** X10. Leading and trailing whitespace of the set code is of no
    consequence: checking the stripped code is checking the code. *)
Theorem check_stock_strips (set_code : string) (st : State) :
  check_stock w (strip set_code) st = check_stock w set_code st.
Proof. unfold check_stock. rewrite strip_idempotent. reflexivity. Qed.

Lemma first_product_link_sound product_links set_code : forall u,
  first_product_link product_links set_code = Some u ->
  str_in "/en-us/product/" u = true
  /\ str_in set_code u = true
  /\ truthy u = true
  /\ exists link,
      In link product_links
      /\ (u = get link "href" "" \/ u = BASE_URL ++ get link "href" "").
Proof.
  induction product_links as [ | link rest IH ]; intro u; [ discriminate | ].
  cbn [first_product_link].
  destruct (str_in "/en-us/product/" (get link "href" "")
            && str_in set_code (get link "href" "")) eqn:E.
  - apply andb_true_iff in E. destruct E as [Hm Hc].
    assert (Hgoal : forall v,
               v = get link "href" "" \/ v = BASE_URL ++ get link "href" "" ->
               str_in "/en-us/product/" v = true
               /\ str_in set_code v = true
               /\ truthy v = true
               /\ exists link0,
                   In link0 (link :: rest)
                   /\ (v = get link0 "href" "" \/ v = BASE_URL ++ get link0 "href" "")).
    { intros v Hv.
      assert (Hmv : str_in "/en-us/product/" v = true)
        by (destruct Hv as [-> | ->]; [ | apply str_in_prepend ]; exact Hm).
      assert (Hcv : str_in set_code v = true)
        by (destruct Hv as [-> | ->]; [ | apply str_in_prepend ]; exact Hc).
      split; [ exact Hmv | ]. split; [ exact Hcv | ].
      split; [ apply (str_in_nonempty "/en-us/product/"); [ reflexivity | exact Hmv ] | ].
      exists link. split; [ left; reflexivity | exact Hv ]. }
    destruct (startswith (get link "href" "") "/"); intro H; injection H as H;
      apply Hgoal; [ right | left ]; symmetry; exact H.
  - intro H. destruct (IH u H) as (Hm & Hc & Ht & link' & Hin & Hu).
    split; [ exact Hm | ]. split; [ exact Hc | ]. split; [ exact Ht | ].
    exists link'. split; [ right; exact Hin | exact Hu ].
Qed.

Lemma search_link_sound set_code st u st' :
  _search_for_set w set_code st = (Returns (Some u), st') ->
  str_in "/en-us/product/" u = true /\ str_in set_code u = true /\ truthy u = true.
Proof.
  unfold _search_for_set, bind at 1.
  destruct (CheckerFacts.rate_limit_run w st) as (st1 & -> & _).
  cbv [try_except bind session_get ret].
  destruct (http_get w (length (log st1)) (BASE_URL ++ "/en-us/search?q=" ++ set_code))
    as [ msg | r ]; [ discriminate | ].
  unfold raise_for_status, raise, ret.
  destruct ((400 <=? status_code r) && (status_code r <? 500)); [ discriminate | ].
  destruct ((500 <=? status_code r) && (status_code r <? 600)); [ discriminate | ].
  unfold BeautifulSoup, raise, ret.
  destruct (content r) as [ msg | soup ]; [ discriminate | ].
  intro H. injection H as H _.
  destruct (first_product_link_sound _ _ _ H) as (Hm & Hc & Ht & _). auto.
Qed.

(** X11. The product address the search falls back on always contains
    "/en-us/product/" and the set code, and is never the empty string. *)
Theorem search_names_the_set (set_code : string) (st : State) u st' :
  _search_for_set w set_code st = (Returns (Some u), st') ->
  str_in "/en-us/product/" u = true /\ str_in set_code u = true /\ truthy u = true.
Proof. apply search_link_sound. Qed.

Lemma try_urls_url set_code urls : forall st r st',
  try_urls w urls set_code st = (Returns (Some r), st') ->
  In (url r) urls.
Proof.
  induction urls as [ | product_url rest IH ]; intros st r st'; [ discriminate | ].
  cbn [try_urls]. unfold bind.
  destruct (CheckerFacts.fetch_spec w product_url set_code st)
    as (r1 & st1 & new1 & -> & _ & _ & Hans).
  destruct Hans as [msg _ | e soup _ _ _].
  - cbn [error_result status stock message Status_eqb negb].
    destruct (str_in "403" msg || str_in "Forbidden" msg);
      intro H; right; eapply IH; exact H.
  - rewrite CheckerFacts.page_result_not_error. cbn [negb]. unfold ret.
    intro H. injection H as <- _. left. reflexivity.
Qed.

(** X12. The address of an answer that is not an [error] is one of the
    three candidates, or an address that contains "/en-us/product/" and the
    set code (the one the search led to). *)
Theorem answer_address (set_code : string) (st : State) r st' :
  check_stock w set_code st = (Returns r, st') ->
  status r <> error ->
  In (url r) (_get_product_urls (strip set_code))
  \/ (str_in "/en-us/product/" (url r) = true
      /\ str_in (strip set_code) (url r) = true).
Proof.
  unfold check_stock. unfold bind at 1.
  destruct (CheckerFacts.try_urls_spec w (strip set_code)
              (_get_product_urls (strip set_code)) st)
    as (found & st1 & new1 & Hrun1 & _).
  rewrite Hrun1.
  destruct found as [ result | ].
  { unfold ret. intros H _. injection H as <- _.
    left. eapply try_urls_url. exact Hrun1. }
  unfold bind at 1.
  destruct (CheckerFacts.search_spec w (strip set_code) st1)
    as (res & st2 & es & Hrun2 & _).
  rewrite Hrun2.
  assert (Hfail : forall s,
             (ret (final_error (_get_product_urls (strip set_code)) (strip set_code))
                : M StockResult) s = (Returns r, st') ->
             status r <> error ->
             In (url r) (_get_product_urls (strip set_code))
             \/ (str_in "/en-us/product/" (url r) = true
                 /\ str_in (strip set_code) (url r) = true)).
  { unfold ret. intros s H Hok. injection H as <- _. contradiction Hok. reflexivity. }
  destruct res as [ search_url | ]; [ | unfold bind, ret at 1; apply Hfail ].
  destruct (truthy search_url); [ | unfold bind, ret at 1; apply Hfail ].
  destruct (search_link_sound _ _ _ _ Hrun2) as (Hm & Hc & _).
  unfold bind.
  destruct (CheckerFacts.fetch_spec w search_url (strip set_code) st2)
    as (r3 & st3 & new3 & -> & _ & _ & Hans).
  destruct Hans as [msg _ | e soup _ _ _].
  - cbn [error_result status stock Status_eqb negb]. apply Hfail.
  - rewrite CheckerFacts.page_result_not_error. cbn [negb]. unfold ret.
    intros H _. injection H as <- _. right. split; assumption.
Qed.

(** *** Worlds whose answers do not change *)

Hypothesis Hstationary : stationary w.

Lemma same_value_get kind url : same_value (session_get w kind url).
Proof.
  intros st1 st2. unfold session_get.
  rewrite (Hstationary (length (log st1)) (length (log st2)) url).
  destruct (http_get w (length (log st2)) url); reflexivity.
Qed.

Lemma same_value_rate_limit : same_value (_rate_limit w).
Proof.
  intros st1 st2. unfold _rate_limit.
  destruct (now st1 - last_request_time st1 <? rate_limit_delay st1),
           (now st2 - last_request_time st2 <? rate_limit_delay st2);
    reflexivity.
Qed.

Lemma same_value_create : same_value create_scraper.
Proof. intros st1 st2. reflexivity. Qed.

Lemma same_value_init : same_value (_initialize_session w).
Proof.
  unfold _initialize_session.
  apply same_value_try; [ | intro; apply same_value_ret ].
  apply same_value_bind; [ apply same_value_get | intro; apply same_value_ret ].
Qed.

Lemma same_value_status url r : same_value (raise_for_status url r).
Proof.
  unfold raise_for_status.
  destruct ((400 <=? status_code r) && (status_code r <? 500));
    [ apply same_value_raise | ].
  destruct ((500 <=? status_code r) && (status_code r <? 600));
    [ apply same_value_raise | apply same_value_ret ].
Qed.

Lemma same_value_soup r : same_value (BeautifulSoup r).
Proof.
  unfold BeautifulSoup.
  destruct (content r); [ apply same_value_raise | apply same_value_ret ].
Qed.

Lemma same_value_fetch url set_code : same_value (_fetch_product_page w url set_code).
Proof.
  unfold _fetch_product_page.
  apply same_value_bind; [ apply same_value_rate_limit | intros _ ].
  apply same_value_try.
  - unfold fetch_try.
    apply same_value_bind; [ apply same_value_get | intro response ].
    apply same_value_bind.
    + destruct (status_code response =? 403); [ | apply same_value_ret ].
      apply same_value_bind; [ apply same_value_create | intros _ ].
      apply same_value_bind; [ apply same_value_init | intros _ ].
      apply same_value_get.
    + intro response2.
      apply same_value_bind; [ apply same_value_status | intros _ ].
      apply same_value_bind; [ apply same_value_soup | intro soup ].
      apply same_value_ret.
  - intro msg. unfold fetch_except.
    destruct (str_in "403" msg || str_in "Forbidden" msg); apply same_value_ret.
Qed.

Lemma same_value_search set_code : same_value (_search_for_set w set_code).
Proof.
  unfold _search_for_set.
  apply same_value_bind; [ apply same_value_rate_limit | intros _ ].
  apply same_value_try; [ | intro; apply same_value_ret ].
  apply same_value_bind; [ apply same_value_get | intro response ].
  apply same_value_bind; [ apply same_value_status | intros _ ].
  apply same_value_bind; [ apply same_value_soup | intro soup ].
  apply same_value_ret.
Qed.

Lemma same_value_try_urls set_code urls : same_value (try_urls w urls set_code).
Proof.
  induction urls as [ | product_url rest IH ]; cbn [try_urls];
    [ apply same_value_ret | ].
  apply same_value_bind; [ apply same_value_fetch | intro result ].
  destruct (negb (Status_eqb (status result) error)); [ apply same_value_ret | ].
  destruct (str_in "403" (message result) || str_in "Forbidden" (message result));
    exact IH.
Qed.

Lemma same_value_check set_code : same_value (check_stock w set_code).
Proof.
  unfold check_stock.
  apply same_value_bind; [ apply same_value_try_urls | intros [ result | ] ];
    [ apply same_value_ret | ].
  apply same_value_bind; [ apply same_value_search | intro search_url ].
  apply same_value_bind.
  - destruct search_url as [ search_url | ]; [ | apply same_value_ret ].
    destruct (truthy search_url); [ | apply same_value_ret ].
    apply same_value_bind; [ apply same_value_fetch | intro result ].
    destruct (negb (Status_eqb (status result) error)); apply same_value_ret.
  - intros [ result | ]; apply same_value_ret.
Qed.

(** X13. In a world whose answer to a request depends on the address
    only, what [check_stock] returns for a set code depends on nothing else:
    not on the clock, not on the timer, not on the requests sent before. *)
Theorem answer_depends_on_world_only (set_code : string) (st1 st2 : State) :
  fst (check_stock w set_code st1) = fst (check_stock w set_code st2).
Proof. apply same_value_check. Qed.

End Extra.

Section TwoWorlds.

Variables w1 w2 : World.
Hypothesis Hagree : agree_off_root w1 w2.

Lemma lockstep_ret {A} (a : A) : in_lockstep (ret a) (ret a).
Proof. intros st1 st2 H. split; [ reflexivity | exact H ]. Qed.

Lemma lockstep_raise {A} msg : in_lockstep (@raise A msg) (@raise A msg).
Proof. intros st1 st2 H. split; [ reflexivity | exact H ]. Qed.

Lemma lockstep_bind {A B} (c1 c2 : M A) (k1 k2 : A -> M B) :
  in_lockstep c1 c2 -> (forall a, in_lockstep (k1 a) (k2 a)) ->
  in_lockstep (bind c1 k1) (bind c2 k2).
Proof.
  intros Hc Hk st1 st2 H. unfold bind.
  destruct (Hc st1 st2 H) as [Hv Hl].
  destruct (c1 st1) as [[a1 | m1] s1], (c2 st2) as [[a2 | m2] s2];
    cbn [fst snd] in Hv, Hl; try discriminate.
  - injection Hv as <-. apply Hk. exact Hl.
  - injection Hv as <-. split; [ reflexivity | exact Hl ].
Qed.

Lemma lockstep_try {A} (b1 b2 : M A) (h1 h2 : string -> M A) :
  in_lockstep b1 b2 -> (forall msg, in_lockstep (h1 msg) (h2 msg)) ->
  in_lockstep (try_except b1 h1) (try_except b2 h2).
Proof.
  intros Hc Hk st1 st2 H. unfold try_except.
  destruct (Hc st1 st2 H) as [Hv Hl].
  destruct (b1 st1) as [[a1 | m1] s1], (b2 st2) as [[a2 | m2] s2];
    cbn [fst snd] in Hv, Hl; try discriminate.
  - split; [ exact Hv | exact Hl ].
  - injection Hv as <-. apply Hk. exact Hl.
Qed.

Lemma lockstep_get kind url :
  url <> BASE_URL -> in_lockstep (session_get w1 kind url) (session_get w2 kind url).
Proof.
  intros Hurl st1 st2 H. unfold session_get.
  rewrite H, (Hagree (length (log st2)) url Hurl).
  destruct (http_get w2 (length (log st2)) url); cbn [fst snd log];
    rewrite !length_app, H; split; reflexivity.
Qed.

Lemma lockstep_rate_limit : in_lockstep (_rate_limit w1) (_rate_limit w2).
Proof.
  intros st1 st2 H. unfold _rate_limit, time_sleep.
  destruct (now st1 - last_request_time st1 <? rate_limit_delay st1),
           (now st2 - last_request_time st2 <? rate_limit_delay st2);
    cbn [fst snd log]; split; auto.
Qed.

Lemma lockstep_create : in_lockstep create_scraper create_scraper.
Proof. intros st1 st2 H. split; [ reflexivity | exact H ]. Qed.

(** The warm-up returns nothing and sends one request, whatever the answer. *)
Lemma lockstep_init : in_lockstep (_initialize_session w1) (_initialize_session w2).
Proof.
  intros st1 st2 H.
  unfold _initialize_session, try_except, bind, session_get, ret.
  destruct (http_get w1 (length (log st1)) BASE_URL),
           (http_get w2 (length (log st2)) BASE_URL);
    cbn [fst snd log]; rewrite !length_app, H; split; reflexivity.
Qed.

Lemma lockstep_status url r : in_lockstep (raise_for_status url r) (raise_for_status url r).
Proof.
  unfold raise_for_status.
  destruct ((400 <=? status_code r) && (status_code r <? 500));
    [ apply lockstep_raise | ].
  destruct ((500 <=? status_code r) && (status_code r <? 600));
    [ apply lockstep_raise | apply lockstep_ret ].
Qed.

Lemma lockstep_soup r : in_lockstep (BeautifulSoup r) (BeautifulSoup r).
Proof.
  unfold BeautifulSoup.
  destruct (content r); [ apply lockstep_raise | apply lockstep_ret ].
Qed.

Lemma lockstep_fetch url set_code :
  url <> BASE_URL ->
  in_lockstep (_fetch_product_page w1 url set_code) (_fetch_product_page w2 url set_code).
Proof.
  intro Hurl. unfold _fetch_product_page.
  apply lockstep_bind; [ apply lockstep_rate_limit | intros _ ].
  apply lockstep_try.
  - unfold fetch_try.
    apply lockstep_bind; [ apply lockstep_get; exact Hurl | intro response ].
    apply lockstep_bind.
    + destruct (status_code response =? 403); [ | apply lockstep_ret ].
      apply lockstep_bind; [ apply lockstep_create | intros _ ].
      apply lockstep_bind; [ apply lockstep_init | intros _ ].
      apply lockstep_get. exact Hurl.
    + intro response2.
      apply lockstep_bind; [ apply lockstep_status | intros _ ].
      apply lockstep_bind; [ apply lockstep_soup | intro soup ].
      apply lockstep_ret.
  - intro msg. unfold fetch_except.
    destruct (str_in "403" msg || str_in "Forbidden" msg); apply lockstep_ret.
Qed.

Lemma lockstep_search set_code :
  in_lockstep (_search_for_set w1 set_code) (_search_for_set w2 set_code).
Proof.
  unfold _search_for_set.
  apply lockstep_bind; [ apply lockstep_rate_limit | intros _ ].
  apply lockstep_try; [ | intro; apply lockstep_ret ].
  apply lockstep_bind.
  - apply lockstep_get. unfold BASE_URL. cbn [append]. discriminate.
  - intro response.
    apply lockstep_bind; [ apply lockstep_status | intros _ ].
    apply lockstep_bind; [ apply lockstep_soup | intro soup ].
    apply lockstep_ret.
Qed.

Lemma lockstep_try_urls set_code urls :
  Forall (fun url => url <> BASE_URL) urls ->
  in_lockstep (try_urls w1 urls set_code) (try_urls w2 urls set_code).
Proof.
  induction 1 as [ | product_url rest Hurl _ IH ]; cbn [try_urls];
    [ apply lockstep_ret | ].
  apply lockstep_bind; [ apply lockstep_fetch; exact Hurl | intro result ].
  destruct (negb (Status_eqb (status result) error)); [ apply lockstep_ret | ].
  destruct (str_in "403" (message result) || str_in "Forbidden" (message result));
    exact IH.
Qed.

Lemma lockstep_bind_run {A B} (c1 c2 : M A) (k1 k2 : A -> M B) :
  in_lockstep c1 c2 ->
  (forall a st s, c1 st = (Returns a, s) -> in_lockstep (k1 a) (k2 a)) ->
  in_lockstep (bind c1 k1) (bind c2 k2).
Proof.
  intros Hc Hk st1 st2 H. unfold bind.
  destruct (Hc st1 st2 H) as [Hv Hl].
  destruct (c1 st1) as [[a1 | m1] s1] eqn:E1, (c2 st2) as [[a2 | m2] s2];
    cbn [fst snd] in Hv, Hl; try discriminate.
  - injection Hv as <-. apply (Hk a1 st1 s1 E1). exact Hl.
  - injection Hv as <-. split; [ reflexivity | exact Hl ].
Qed.

Lemma lockstep_check set_code :
  in_lockstep (check_stock w1 set_code) (check_stock w2 set_code).
Proof.
  unfold check_stock.
  apply lockstep_bind.
  - apply lockstep_try_urls. unfold _get_product_urls, BASE_URL. cbn [append].
    repeat constructor; discriminate.
  - intros [ result | ]; [ apply lockstep_ret | ].
    apply lockstep_bind_run; [ apply lockstep_search | intros search_url st s Hrun ].
    apply lockstep_bind; [ | intros [ result | ]; apply lockstep_ret ].
    destruct search_url as [ search_url | ]; [ | apply lockstep_ret ].
    destruct (truthy search_url); [ | apply lockstep_ret ].
    destruct (search_link_sound w1 _ _ _ _ Hrun) as (Hm & _).
    apply lockstep_bind.
    + apply lockstep_fetch. intros ->. vm_compute in Hm. discriminate.
    + intro result.
      destruct (negb (Status_eqb (status result) error)); apply lockstep_ret.
Qed.

(** X14. What the root of the site answers is of no consequence: in two
    worlds that answer every other address alike, [check_stock] returns the
    same result, whether the warm-up requests succeed or fail. *)
Theorem warm_up_is_not_fatal (set_code : string) (st : State) :
  fst (check_stock w1 set_code st) = fst (check_stock w2 set_code st).
Proof. apply lockstep_check. reflexivity. Qed.

End TwoWorlds.

Lemma available_means_in_stock_witness :
  available (page_result "https://www.lego.com/en-us/product/72152"
               sample_page "72152") = true.
Proof.
  apply (available_means_in_stock (serving sample_page) "72152"
           (LEGOChecker (serving sample_page) 2000 t0)
           (page_result "https://www.lego.com/en-us/product/72152" sample_page "72152")
           (snd (check_stock (serving sample_page) "72152"
                   (LEGOChecker (serving sample_page) 2000 t0)))).
  - vm_compute. reflexivity.
  - reflexivity.
Defined.

Lemma error_answer_is_generic_witness :
  final_error (_get_product_urls "72152") "72152"
  = mkStockResult (mkStockStatus false error unable_message None)
                  "Set 72152" None "https://www.lego.com/en-us/product/72152".
Proof.
  apply (error_answer_is_generic unreachable "72152"
           (LEGOChecker unreachable 2000 t0)
           (final_error (_get_product_urls "72152") "72152")
           (snd (check_stock unreachable "72152" (LEGOChecker unreachable 2000 t0)))).
  - vm_compute. reflexivity.
  - reflexivity.
Defined.

Lemma first_candidate_wins_witness :
  exists st' e,
    check_stock (serving sample_page) "72152"
      (LEGOChecker (serving sample_page) 2000 t0)
    = (Returns (page_result "https://www.lego.com/en-us/product/72152"
                  sample_page "72152"), st')
    /\ log st' = (log (LEGOChecker (serving sample_page) 2000 t0) ++ [e])%list
    /\ ev_kind e = PageGet
    /\ ev_url e = "https://www.lego.com/en-us/product/72152".
Proof.
  apply (first_candidate_wins (serving sample_page) "72152"
           (LEGOChecker (serving sample_page) 2000 t0)
           (mkResponse 200 "OK" (Parses sample_page)) sample_page);
    reflexivity.
Defined.

Lemma search_names_the_set_witness :
  fst (_search_for_set found_by_search "72152" before_search)
  = Returns (Some "https://www.lego.com/en-us/product/pikachu-72152")
  /\ str_in "72152" "https://www.lego.com/en-us/product/pikachu-72152" = true.
Proof.
  split; [ vm_compute; reflexivity | ].
  apply (search_names_the_set found_by_search "72152" before_search
           "https://www.lego.com/en-us/product/pikachu-72152"
           (snd (_search_for_set found_by_search "72152" before_search))).
  vm_compute. reflexivity.
Defined.

Lemma answer_address_witness :
  ~ In "https://www.lego.com/en-us/product/pikachu-72152" (_get_product_urls "72152")
  /\ str_in "/en-us/product/" "https://www.lego.com/en-us/product/pikachu-72152" = true.
Proof.
  split; [ cbn; intuition discriminate | ].
  destruct (answer_address found_by_search "72152"
              (LEGOChecker found_by_search 2000 t0)
              (page_result "https://www.lego.com/en-us/product/pikachu-72152"
                 sample_page "72152")
              (snd (check_stock found_by_search "72152"
                      (LEGOChecker found_by_search 2000 t0))))
    as [Hcand | [Hmarker _]].
  - vm_compute. reflexivity.
  - discriminate.
  - cbn in Hcand. intuition discriminate.
  - exact Hmarker.
Defined.

Lemma answer_depends_on_world_only_witness :
  fst (check_stock (serving sample_page) "72152"
         (LEGOChecker (serving sample_page) 2000 t0))
  = fst (check_stock (serving sample_page) "72152"
           (mkState 0 0 0 0 [])).
Proof.
  apply (answer_depends_on_world_only (serving sample_page)).
  intros n m u. reflexivity.
Defined.

Lemma warm_up_is_not_fatal_witness :
  fst (check_stock blocked_once "72152" (LEGOChecker blocked_once 2000 t0))
  = fst (check_stock blocked_once_root_down "72152"
           (LEGOChecker blocked_once 2000 t0)).
Proof.
  apply (warm_up_is_not_fatal blocked_once blocked_once_root_down).
  intros n url Hurl. cbn [http_get blocked_once_root_down].
  destruct (String.eqb_spec url BASE_URL) as [ -> | _ ]; [ contradiction | reflexivity ].
Defined.

End CheckerExtra.

(* ================================================================== *)
(** ** Further properties: the watch repository *)
(* ================================================================== *)

Module DatabaseExtra.

Import Database.
Open Scope Z_scope.

Lemma where_triple_null user_id set_code row :
  where_triple user_id None set_code row = false.
Proof.
  unfold where_triple.
  destruct (Database.guild_id row); cbn [sql_eq];
    rewrite andb_false_r; reflexivity.
Qed.

Lemma where_triple_fields user_id guild set_code row :
  where_triple user_id (Some guild) set_code row = true ->
  Database.user_id row = user_id
  /\ Database.guild_id row = Some guild
  /\ Database.set_code row = set_code.
Proof.
  unfold where_triple. intro H.
  apply andb_true_iff in H. destruct H as [H Hc].
  apply andb_true_iff in H. destruct H as [Hu Hg].
  apply Z.eqb_eq in Hu. apply String.eqb_eq in Hc.
  destruct (Database.guild_id row) as [ g | ]; cbn [sql_eq] in Hg; [ | discriminate ].
  apply Z.eqb_eq in Hg. subst. auto.
Qed.

Lemma filter_none {A} (f : A -> bool) (l : list A) :
  existsb f l = false -> filter f l = [].
Proof.
  induction l as [ | a l IH ]; [ reflexivity | ].
  cbn [existsb filter]. intro H. apply orb_false_iff in H. destruct H as [Ha Hl].
  rewrite Ha. exact (IH Hl).
Qed.

Lemma filter_all {A} (f : A -> bool) (l : list A) :
  existsb f l = false -> filter (fun a => negb (f a)) l = l.
Proof.
  induction l as [ | a l IH ]; [ reflexivity | ].
  cbn [existsb filter]. intro H. apply orb_false_iff in H. destruct H as [Ha Hl].
  rewrite Ha. cbn [negb]. rewrite (IH Hl). reflexivity.
Qed.

Lemma existsb_filter_negb {A} (f : A -> bool) (l : list A) :
  existsb f (filter (fun a => negb (f a)) l) = false.
Proof.
  induction l as [ | a l IH ]; [ reflexivity | ].
  cbn [filter]. destruct (f a) eqn:E; cbn [negb]; [ exact IH | ].
  cbn [existsb]. rewrite E, IH. reflexivity.
Qed.

Lemma existsb_positive {A} (f : A -> bool) (l : list A) :
  (0 <? Z.of_nat (length (filter f l))) = existsb f l.
Proof.
  destruct (existsb f l) eqn:E.
  - apply DatabaseFacts.existsb_count. exact E.
  - rewrite (filter_none f l E). reflexivity.
Qed.

Lemma filter_filter_le {A} (p q : A -> bool) (l : list A) :
  (length (filter p (filter q l)) <= length (filter p l))%nat.
Proof.
  induction l as [ | a l IH ]; [ apply Nat.le_refl | ].
  cbn [filter]. destruct (q a), (p a) eqn:E; cbn [filter length]; rewrite ?E;
    cbn [length]; lia.
Qed.

Lemma filtered_ids_distinct (keep : Watch -> bool) (rows : list Watch) :
  NoDup (map id rows) -> NoDup (map id (filter keep rows)).
Proof.
  induction rows as [ | row rows IH ]; [ intros _; constructor | ].
  cbn [map filter]. intro Hnd. inversion Hnd as [ | x xs Hfresh Hrest ]; subst.
  destruct (keep row); [ | exact (IH Hrest) ].
  cbn [map]. constructor; [ | exact (IH Hrest) ].
  intro Hin. apply Hfresh.
  apply in_map_iff in Hin. destruct Hin as (other & Hother & Hkept).
  apply filter_In in Hkept. apply in_map_iff. exists other. tauto.
Qed.

Lemma update_rows watch_id status available button_detected t db :
  watched_sets (update_watch_status watch_id status available button_detected t db)
  = map (updated watch_id status button_detected t) (watched_sets db).
Proof. reflexivity. Qed.

Lemma updated_identity watch_id status button_detected t row :
  identity (updated watch_id status button_detected t row) = identity row.
Proof. unfold updated. destruct (id row =? watch_id); reflexivity. Qed.

Lemma update_identity watch_id status available button_detected t db :
  map identity
      (watched_sets (update_watch_status watch_id status available button_detected t db))
  = map identity (watched_sets db).
Proof.
  rewrite update_rows, map_map. apply map_ext. intro row. apply updated_identity.
Qed.

Lemma identity_id rows1 rows2 :
  map identity rows1 = map identity rows2 -> map id rows1 = map id rows2.
Proof.
  intro H.
  assert (Hf : forall rows, map id rows
                            = map (fun x : Z * Z * option Z * string * Z =>
                                     fst (fst (fst (fst x))))
                                  (map identity rows))
    by (intro rows; rewrite map_map; reflexivity).
  rewrite (Hf rows1), (Hf rows2), H. reflexivity.
Qed.

Lemma where_triple_identity user_id guild_id set_code r1 r2 :
  identity r1 = identity r2 ->
  where_triple user_id guild_id set_code r1 = where_triple user_id guild_id set_code r2.
Proof.
  unfold identity, where_triple. intro H. injection H as _ Hu Hg Hc _.
  rewrite Hu, Hg, Hc. reflexivity.
Qed.

Lemma count_identity user_id guild_id set_code rows1 : forall rows2,
  map identity rows1 = map identity rows2 ->
  length (filter (where_triple user_id guild_id set_code) rows1)
  = length (filter (where_triple user_id guild_id set_code) rows2).
Proof.
  induction rows1 as [ | r1 rows1 IH ]; intros [ | r2 rows2 ] H;
    try discriminate; [ reflexivity | ].
  cbn [map] in H.
  pose proof (f_equal (fun l => hd (identity r1) l) H) as Hr. cbn [hd] in Hr.
  pose proof (f_equal (@tl _) H) as Hrest. cbn [tl] in Hrest.
  cbn [filter]. rewrite (where_triple_identity _ _ _ r1 r2 Hr).
  destruct (where_triple user_id guild_id set_code r2); cbn [length];
    rewrite (IH rows2 Hrest); reflexivity.
Qed.

Lemma find_by_id rows : forall row,
  NoDup (map id rows) -> In row rows ->
  List.find (fun r => id r =? id row) rows = Some row.
Proof.
  induction rows as [ | r rows IH ]; intros row Hnd Hin; [ contradiction | ].
  cbn [map] in Hnd. inversion Hnd as [ | x xs Hnotin Hrest ]; subst.
  cbn [List.find]. destruct Hin as [ -> | Hin ].
  - rewrite Z.eqb_refl. reflexivity.
  - destruct (id r =? id row) eqn:E; [ | exact (IH row Hrest Hin) ].
    apply Z.eqb_eq in E. contradiction Hnotin. rewrite E.
    apply in_map. exact Hin.
Qed.

(** X15. The row ids stay distinct and bounded by the AUTOINCREMENT
    counter under every operation of the repository; with distinct ids,
    looking a row up by its id returns that row. *)
Theorem ids_stay_distinct (db : Db) :
  ids_ok db ->
  (forall user_id set_code guild_id t,
      ids_ok (snd (add_watch user_id set_code guild_id t db)))
  /\ (forall watch_id status available button_detected t,
         ids_ok (update_watch_status watch_id status available button_detected t db))
  /\ (forall user_id set_code guild_id,
         ids_ok (snd (remove_watch user_id set_code guild_id db)))
  /\ (forall row, In row (watched_sets db) -> get_watch_by_id (id row) db = Some row).
Proof.
  intros [Hnd Hmax]. split; [ | split; [ | split ] ].
  - intros user_id set_code guild_id t. unfold add_watch, insert_or_ignore. cbn [snd].
    destruct (violates_unique user_id guild_id set_code db).
    { unfold ids_ok. cbn [watched_sets sqlite_sequence]. split; [ exact Hnd | ].
      revert Hmax. apply Forall_impl. intros r Hr. lia. }
    unfold ids_ok. cbn [watched_sets sqlite_sequence]. split.
    + rewrite map_app. cbn [map id]. apply Permutation_NoDup
        with (l := (sqlite_sequence db + 1) :: map id (watched_sets db)).
      * apply Permutation_cons_append.
      * constructor; [ | exact Hnd ].
        intro Hin. apply in_map_iff in Hin. destruct Hin as (r & Hr & Hinr).
        rewrite Forall_forall in Hmax. specialize (Hmax r Hinr). lia.
    + apply Forall_app. split.
      * revert Hmax. apply Forall_impl. intros r Hr. lia.
      * constructor; [ cbn [id]; lia | constructor ].
  - intros watch_id status available button_detected t. unfold ids_ok.
    rewrite (identity_id _ _ (update_identity watch_id status available
                                 button_detected t db)).
    split; [ exact Hnd | ].
    rewrite update_rows. cbn [sqlite_sequence update_watch_status].
    apply Forall_map. revert Hmax. apply Forall_impl.
    intros r Hr. unfold updated. destruct (id r =? watch_id); exact Hr.
  - intros user_id set_code guild_id. unfold remove_watch, ids_ok.
    cbn [snd watched_sets sqlite_sequence]. split.
    + apply filtered_ids_distinct. exact Hnd.
    + rewrite Forall_forall in Hmax |- *. intros r Hr.
      apply filter_In in Hr. apply Hmax. tauto.
  - intros row Hin. unfold get_watch_by_id. apply find_by_id; assumption.
Qed.

Lemma ids_stay_distinct_witness :
  ids_ok (snd (add_watch 7 "75192" (Some 42) 200 two_watches))
  /\ get_watch_by_id 2 two_watches
     = Some (mkWatch 2 7 (Some 42) "10312" (Some out_of_stock) None (Some 150) 120).
Proof.
  assert (Hok : ids_ok two_watches).
  { split.
    - cbn. repeat constructor; cbn; intuition discriminate.
    - repeat constructor; cbn; lia. }
  destruct (ids_stay_distinct two_watches Hok) as (Hadd & _ & _ & Hget).
  split; [ apply Hadd | ].
  apply (Hget (mkWatch 2 7 (Some 42) "10312" (Some out_of_stock) None (Some 150) 120)).
  cbn. auto.
Defined.

Lemma count_app user_id guild_id set_code rows1 rows2 :
  length (filter (where_triple user_id guild_id set_code) (rows1 ++ rows2))
  = (length (filter (where_triple user_id guild_id set_code) rows1)
     + length (filter (where_triple user_id guild_id set_code) rows2))%nat.
Proof. rewrite filter_app, length_app. reflexivity. Qed.

(** X16. "At most one row per (user, guild, set)" holds, for the guilds
    that are not [NULL], after every operation on a table on which it held:
    adding (with any guild), updating and removing. *)
Theorem triples_stay_unique (db : Db) :
  unique_triples db ->
  (forall user_id set_code guild_id t,
      unique_triples (snd (add_watch user_id set_code guild_id t db)))
  /\ (forall watch_id status available button_detected t,
         unique_triples
           (update_watch_status watch_id status available button_detected t db))
  /\ (forall user_id set_code guild_id,
         unique_triples (snd (remove_watch user_id set_code guild_id db))).
Proof.
  intro Huniq. split; [ | split ].
  - intros user_id set_code guild_id t. unfold add_watch, insert_or_ignore. cbn [snd].
    destruct (violates_unique user_id guild_id set_code db) eqn:E; [ exact Huniq | ].
    intros u g c. unfold count_triple. cbn [watched_sets].
    rewrite count_app. cbn [filter].
    destruct (where_triple u (Some g) c
                (mkWatch (sqlite_sequence db + 1) user_id guild_id set_code
                         None None None t)) eqn:Hnew.
    + apply where_triple_fields in Hnew.
      cbn [Database.user_id Database.guild_id Database.set_code] in Hnew.
      destruct Hnew as (-> & -> & ->).
      unfold violates_unique in E. rewrite (filter_none _ _ E). cbn. lia.
    + specialize (Huniq u g c). unfold count_triple in Huniq. cbn [length]. lia.
  - intros watch_id status available button_detected t u g c.
    unfold count_triple.
    rewrite (count_identity u (Some g) c _ _
               (update_identity watch_id status available button_detected t db)).
    apply Huniq.
  - intros user_id set_code guild_id u g c.
    unfold remove_watch, count_triple. cbn [snd watched_sets].
    specialize (Huniq u g c). unfold count_triple in Huniq.
    pose proof (filter_filter_le (where_triple u (Some g) c)
                  (fun row => negb (where_triple user_id guild_id set_code row))
                  (watched_sets db)).
    lia.
Qed.

Lemma triples_stay_unique_witness :
  unique_triples (snd (add_watch 7 "72152" (Some 42) 200 empty)).
Proof.
  assert (Hempty : unique_triples empty) by (intros u g c; cbn; lia).
  destruct (triples_stay_unique empty Hempty) as (Hadd & _).
  apply Hadd.
Defined.

(** X17. [remove_watch] answers [True] exactly when a row of the triple
    was stored; afterwards none is, and the rows of every other triple are
    all still there. *)
Theorem remove_watch_removes (user_id : Z) (set_code : string)
        (guild_id : option Z) (db : Db) :
  fst (remove_watch user_id set_code guild_id db)
  = violates_unique user_id guild_id set_code db
  /\ violates_unique user_id guild_id set_code
       (snd (remove_watch user_id set_code guild_id db)) = false
  /\ (forall row,
         In row (watched_sets db) ->
         where_triple user_id guild_id set_code row = false ->
         In row (watched_sets (snd (remove_watch user_id set_code guild_id db)))).
Proof.
  unfold remove_watch, violates_unique. cbn [fst snd watched_sets].
  split; [ apply existsb_positive | ].
  split; [ apply existsb_filter_negb | ].
  intros row Hin Hother. apply filter_In. split; [ exact Hin | ].
  rewrite Hother. reflexivity.
Qed.

Lemma remove_watch_removes_witness :
  watched_sets (snd (remove_watch 7 "72152" (Some 42) two_watches))
  = [mkWatch 2 7 (Some 42) "10312" (Some out_of_stock) None (Some 150) 120]
  /\ In (mkWatch 2 7 (Some 42) "10312" (Some out_of_stock) None (Some 150) 120)
        (watched_sets (snd (remove_watch 7 "72152" (Some 42) two_watches))).
Proof.
  split; [ reflexivity | ].
  destruct (remove_watch_removes 7 "72152" (Some 42) two_watches) as (_ & _ & Hkept).
  apply Hkept; [ cbn; auto | reflexivity ].
Defined.

Lemma add_remove_rows user_id set_code guild t db :
  violates_unique user_id (Some guild) set_code db = false ->
  remove_watch user_id set_code (Some guild)
    (snd (add_watch user_id set_code (Some guild) t db))
  = (true, mkDb (watched_sets db) (sqlite_sequence db + 1)).
Proof.
  intro Habsent. unfold add_watch, insert_or_ignore. cbn [snd]. rewrite Habsent.
  unfold remove_watch. cbn [watched_sets sqlite_sequence].
  rewrite !filter_app. cbn [filter].
  rewrite DatabaseFacts.where_triple_refl. cbn [negb].
  unfold violates_unique in Habsent.
  rewrite (filter_none _ _ Habsent), (filter_all _ _ Habsent), app_nil_r.
  reflexivity.
Qed.

(** X18. In a guild, removing a watch that was just added to a table
    without it restores the rows of the table and answers [True]; only the
    AUTOINCREMENT counter has moved on. *)
Theorem add_then_remove (user_id : Z) (set_code : string) (guild : Z) (t : Z)
        (db : Db) :
  violates_unique user_id (Some guild) set_code db = false ->
  remove_watch user_id set_code (Some guild)
    (snd (add_watch user_id set_code (Some guild) t db))
  = (true, mkDb (watched_sets db) (sqlite_sequence db + 1)).
Proof. apply add_remove_rows. Qed.

Lemma add_then_remove_witness :
  remove_watch 7 "75192" (Some 42)
    (snd (add_watch 7 "75192" (Some 42) 200 two_watches))
  = (true, mkDb (watched_sets two_watches) 3).
Proof. apply (add_then_remove 7 "75192" 42 200 two_watches). reflexivity. Defined.

(** X19. Outside a guild ([guild_id] is [NULL]) the three operations
    on a user's watches never find a row: [add_watch] stores one more row
    each time and answers [False], [remove_watch] removes nothing and
    answers [False], and [get_user_watches] lists nothing. *)
Theorem null_guild_matches_nothing (user_id : Z) (set_code : string) (t : Z)
        (db : Db) :
  add_watch user_id set_code None t db
  = (false,
     mkDb (watched_sets db
             ++ [mkWatch (sqlite_sequence db + 1) user_id None set_code
                         None None None t])
          (sqlite_sequence db + 1))
  /\ remove_watch user_id set_code None db
     = (false, mkDb (watched_sets db) (sqlite_sequence db))
  /\ get_user_watches user_id None db = [].
Proof.
  assert (Hnone : existsb (where_triple user_id None set_code) (watched_sets db)
                  = false).
  { induction (watched_sets db) as [ | r rows IH ]; [ reflexivity | ].
    cbn [existsb]. rewrite where_triple_null, IH. reflexivity. }
  split; [ | split ].
  - unfold add_watch, insert_or_ignore, violates_unique. rewrite Hnone.
    unfold count_triple. cbn [watched_sets].
    rewrite filter_app. cbn [filter]. rewrite where_triple_null.
    rewrite (filter_none _ _ Hnone). reflexivity.
  - unfold remove_watch.
    rewrite (filter_none _ _ Hnone), (filter_all _ _ Hnone). reflexivity.
  - unfold get_user_watches.
    assert (Hempty : filter (fun row => (Database.user_id row =? user_id)
                                        && sql_eq (Database.guild_id row) None)
                            (watched_sets db) = []).
    { clear Hnone. induction (watched_sets db) as [ | r rows IH ]; [ reflexivity | ].
      cbn [filter].
      replace (sql_eq (Database.guild_id r) None) with false
        by (destruct (Database.guild_id r); reflexivity).
      rewrite andb_false_r. exact IH. }
    rewrite Hempty. reflexivity.
Qed.

(** X20. An update changes the status, button and time of the rows with
    the given id and nothing else: the identity of every row (id, user,
    guild, set code, creation time) and the rows with another id are as they
    were, and with an id that is not in the table the table is unchanged. *)
Theorem update_touches_one_watch (watch_id : Z) (status : Status) (available : bool)
        (button_detected : option string) (t : Z) (db : Db) :
  map identity
      (watched_sets (update_watch_status watch_id status available button_detected t db))
  = map identity (watched_sets db)
  /\ (forall other,
         other <> watch_id ->
         get_watch_by_id other
           (update_watch_status watch_id status available button_detected t db)
         = get_watch_by_id other db)
  /\ (~ In watch_id (map id (watched_sets db)) ->
      watched_sets (update_watch_status watch_id status available button_detected t db)
      = watched_sets db).
Proof.
  split; [ apply update_identity | split ].
  - intros other Hother. unfold get_watch_by_id. rewrite update_rows.
    induction (watched_sets db) as [ | r rows IH ]; [ reflexivity | ].
    cbn [map List.find]. unfold updated at 1 2.
    destruct (id r =? watch_id) eqn:E.
    + cbn [id]. apply Z.eqb_eq in E.
      destruct (id r =? other) eqn:E'; [ | exact IH ].
      apply Z.eqb_eq in E'. congruence.
    + destruct (id r =? other); [ reflexivity | exact IH ].
  - intro Hnotin. rewrite update_rows.
    induction (watched_sets db) as [ | r rows IH ]; [ reflexivity | ].
    cbn [map]. cbn [map] in Hnotin. unfold updated at 1.
    destruct (id r =? watch_id) eqn:E.
    + apply Z.eqb_eq in E. contradiction Hnotin. left. exact E.
    + f_equal. apply IH. intro H. apply Hnotin. right. exact H.
Qed.

Lemma update_touches_one_watch_witness :
  get_watch_by_id 2 (update_watch_status 1 in_stock true (Some "Add to Bag") 300
                       two_watches)
  = get_watch_by_id 2 two_watches
  /\ watched_sets (update_watch_status 5 in_stock true None 300 two_watches)
     = watched_sets two_watches.
Proof.
  destruct (update_touches_one_watch 1 in_stock true (Some "Add to Bag") 300
              two_watches) as (_ & Hother & _).
  destruct (update_touches_one_watch 5 in_stock true None 300 two_watches)
    as (_ & _ & Habsent).
  split.
  - apply Hother. discriminate.
  - apply Habsent. cbn. intuition discriminate.
Defined.

Lemma find_after_replace guild_id row settings :
  ss_guild_id row = guild_id ->
  List.find (fun r => ss_guild_id r =? guild_id)
            (filter (fun r => negb (ss_guild_id r =? guild_id)) settings ++ [row])
  = Some row.
Proof.
  intro Hrow. induction settings as [ | r rest IH ].
  - cbn. rewrite Hrow, Z.eqb_refl. reflexivity.
  - cbn [filter]. destruct (ss_guild_id r =? guild_id) eqn:E; cbn [negb];
      [ exact IH | ].
    cbn [app List.find]. rewrite E. exact IH.
Qed.

Lemma find_other_guild guild_id other tail settings :
  other <> guild_id ->
  Forall (fun r => ss_guild_id r = guild_id) tail ->
  List.find (fun r => ss_guild_id r =? other)
            (filter (fun r => negb (ss_guild_id r =? guild_id)) settings ++ tail)
  = List.find (fun r => ss_guild_id r =? other) settings.
Proof.
  intros Hother Htail. induction settings as [ | r rest IH ].
  - cbn [filter app]. induction Htail as [ | r tail Hr _ IHt ]; [ reflexivity | ].
    cbn [List.find]. rewrite Hr.
    destruct (guild_id =? other) eqn:E; [ | exact IHt ].
    apply Z.eqb_eq in E. congruence.
  - cbn [filter List.find]. destruct (ss_guild_id r =? guild_id) eqn:E; cbn [negb].
    + apply Z.eqb_eq in E.
      destruct (ss_guild_id r =? other) eqn:E'; [ | exact IH ].
      apply Z.eqb_eq in E'. congruence.
    + cbn [app List.find]. destruct (ss_guild_id r =? other); [ reflexivity | exact IH ].
Qed.

(** X21. The notification channel of a guild: after it is set to a
    channel other than 0 it reads back as that channel, and as "none" when
    set to 0; after it is cleared it reads "none"; setting or clearing it for
    one guild leaves what every other guild reads unchanged. *)
Theorem notification_channel_round_trip (guild_id channel_id t : Z)
        (settings : list ServerSetting) :
  (channel_id <> 0 ->
   get_notification_channel guild_id
     (set_notification_channel guild_id channel_id t settings) = Some channel_id)
  /\ get_notification_channel guild_id
       (set_notification_channel guild_id 0 t settings) = None
  /\ get_notification_channel guild_id (clear_notification_channel guild_id settings)
     = None
  /\ (forall other,
         other <> guild_id ->
         get_notification_channel other
           (set_notification_channel guild_id channel_id t settings)
         = get_notification_channel other settings
         /\ get_notification_channel other
              (clear_notification_channel guild_id settings)
            = get_notification_channel other settings).
Proof.
  unfold get_notification_channel, set_notification_channel,
    clear_notification_channel.
  split; [ | split; [ | split ] ].
  - intro Hc. rewrite find_after_replace by reflexivity.
    cbn [notification_channel_id].
    destruct (channel_id =? 0) eqn:E; [ apply Z.eqb_eq in E; contradiction | reflexivity ].
  - rewrite find_after_replace by reflexivity. reflexivity.
  - rewrite <- (app_nil_r (filter _ settings)).
    assert (H : List.find (fun r => ss_guild_id r =? guild_id)
                  (filter (fun r => negb (ss_guild_id r =? guild_id)) settings ++ [])
                = None).
    { induction settings as [ | r rest IH ]; [ reflexivity | ].
      cbn [filter]. destruct (ss_guild_id r =? guild_id) eqn:E; cbn [negb];
        [ exact IH | ].
      cbn [app List.find]. rewrite E. exact IH. }
    rewrite H. reflexivity.
  - intros other Hother. split.
    + rewrite (find_other_guild guild_id other _ settings Hother);
        [ reflexivity | repeat constructor ].
    + rewrite <- (app_nil_r (filter _ settings)).
      rewrite (find_other_guild guild_id other [] settings Hother);
        [ reflexivity | constructor ].
Qed.

Lemma notification_channel_round_trip_witness :
  get_notification_channel 42
    (set_notification_channel 42 1234 300 [mkServerSetting 42 99 100;
                                           mkServerSetting 43 77 100])
  = Some 1234
  /\ get_notification_channel 43
       (set_notification_channel 42 1234 300 [mkServerSetting 42 99 100;
                                              mkServerSetting 43 77 100])
     = Some 77.
Proof.
  destruct (notification_channel_round_trip 42 1234 300
              [mkServerSetting 42 99 100; mkServerSetting 43 77 100])
    as (Hset & _ & _ & Hother).
  split.
  - apply Hset. discriminate.
  - destruct (Hother 43) as [H _]; [ discriminate | ]. rewrite H. reflexivity.
Defined.

End DatabaseExtra.

(* ================================================================== *)
(** ** Further properties: the poll cycle and the commands *)
(* ================================================================== *)

Module MonitorExtra.

Import Database Monitor.
Open Scope Z_scope.

Lemma insert_by_perm {A} (le : A -> A -> bool) (x : A) (l : list A) :
  Permutation (insert_by le x l) (x :: l).
Proof.
  induction l as [ | y l IH ]; cbn [insert_by]; [ apply Permutation_refl | ].
  destruct (le x y); [ apply Permutation_refl | ].
  eapply Permutation_trans; [ apply perm_skip; exact IH | apply perm_swap ].
Qed.

Lemma order_by_perm {A} (le : A -> A -> bool) (l : list A) :
  Permutation (order_by le l) l.
Proof.
  induction l as [ | x l IH ]; cbn [order_by]; [ apply Permutation_refl | ].
  eapply Permutation_trans; [ apply insert_by_perm | apply perm_skip; exact IH ].
Qed.

Lemma cycle_unfold w running ms :
  _check_all_watches w running ms
  = check_watches w running 0 (get_all_watches (db ms)) ms.
Proof.
  unfold _check_all_watches. destruct (get_all_watches (db ms)); reflexivity.
Qed.

Section Cycle.

Variable w : World.

(** One check of one watch, spelled out. *)
Lemma check_watch_run (watch : Watch) (ms : MonitorState) :
  exists result checker',
    check_stock w (set_code watch) (lego_checker ms) = (Returns result, checker')
    /\ lego_checker (snd (_check_watch w watch ms)) = checker'
    /\ db (snd (_check_watch w watch ms))
       = update_watch_status (id watch) (status result) (available result)
           (button_detected result) (now checker') (db ms)
    /\ (sent (snd (_check_watch w watch ms)) = sent ms
        \/ exists n, sent (snd (_check_watch w watch ms)) = (sent ms ++ [n])%list)
    /\ (last_status watch = None -> sent (snd (_check_watch w watch ms)) = sent ms)
    /\ (in_step watch result -> sent (snd (_check_watch w watch ms)) = sent ms).
Proof.
  destruct (CheckerFacts.check_stock_spec w (set_code watch) (lego_checker ms))
    as (result & checker' & _ & Hrun & _).
  exists result, checker'. split; [ exact Hrun | ].
  unfold _check_watch. rewrite Hrun.
  destruct (last_status watch) as [ last | ] eqn:Hlast.
  - destruct (negb (Status_eqb last (status result))) eqn:Hchanged.
    + cbn [snd lego_checker db sent]. repeat split; eauto; try discriminate.
      intros [Hs _]. rewrite Hlast in Hs. injection Hs as ->.
      rewrite MonitorFacts.Status_eqb_refl in Hchanged. discriminate.
    + destruct (button_changed (last_button_detected watch) (button_detected result))
        eqn:Hbutton; cbn [snd lego_checker db sent]; repeat split; eauto;
        try discriminate.
      intros [_ Hb]. rewrite Hb, MonitorFacts.button_changed_same in Hbutton.
      discriminate.
  - cbn [snd lego_checker db sent]. repeat split; eauto.
Qed.

Lemma check_watch_identity watch ms :
  map identity (watched_sets (db (snd (_check_watch w watch ms))))
  = map identity (watched_sets (db ms)).
Proof.
  destruct (check_watch_run watch ms) as (result & checker' & _ & _ & -> & _).
  apply DatabaseExtra.update_identity.
Qed.

Lemma check_watches_shape running watches : forall i ms,
  map identity (watched_sets (db (check_watches w running i watches ms)))
  = map identity (watched_sets (db ms))
  /\ exists notes,
      sent (check_watches w running i watches ms) = (sent ms ++ notes)%list
      /\ (length notes <= length watches)%nat.
Proof.
  induction watches as [ | watch rest IH ]; intros i ms; cbn [check_watches].
  - split; [ reflexivity | ]. exists []. rewrite app_nil_r.
    split; [ reflexivity | cbn; lia ].
  - destruct (negb (running i)).
    + split; [ reflexivity | ]. exists []. rewrite app_nil_r.
      split; [ reflexivity | cbn; lia ].
    + destruct (IH (S i) (snd (_check_watch w watch ms))) as (Hid & notes & Hsent & Hlen).
      split; [ rewrite Hid; apply check_watch_identity | ].
      destruct (check_watch_run watch ms)
        as (result & checker' & _ & _ & _ & [Hsame | [n Hone]] & _).
      * exists notes. rewrite Hsent, Hsame. split; [ reflexivity | cbn; lia ].
      * exists (n :: notes). rewrite Hsent, Hone, <- app_assoc.
        split; [ reflexivity | cbn; lia ].
Qed.

(** X22. A poll cycle neither adds nor deletes a watch, nor changes the
    identity of one (id, user, guild, set code, creation time), and it sends
    at most one notification per watch; the notifications sent before are
    kept. *)
Theorem cycle_keeps_watches (running : nat -> bool) (ms : MonitorState) :
  map identity (watched_sets (db (_check_all_watches w running ms)))
  = map identity (watched_sets (db ms))
  /\ exists notes,
      sent (_check_all_watches w running ms) = (sent ms ++ notes)%list
      /\ (length notes <= length (watched_sets (db ms)))%nat.
Proof.
  rewrite cycle_unfold.
  destruct (check_watches_shape running (get_all_watches (db ms)) 0 ms)
    as (Hid & notes & Hsent & Hlen).
  split; [ exact Hid | ]. exists notes. split; [ exact Hsent | ].
  unfold get_all_watches in Hlen.
  rewrite (Permutation_length (order_by_perm checked_before (watched_sets (db ms))))
    in Hlen.
  exact Hlen.
Qed.

Lemma fresh_watches_silent running watches : forall i ms,
  Forall (fun watch => last_status watch = None) watches ->
  sent (check_watches w running i watches ms) = sent ms.
Proof.
  induction watches as [ | watch rest IH ]; intros i ms Hfresh; cbn [check_watches];
    [ reflexivity | ].
  inversion Hfresh as [ | x xs Hwatch Hrest ]; subst.
  destruct (negb (running i)); [ reflexivity | ].
  rewrite (IH _ _ Hrest).
  destruct (check_watch_run watch ms) as (result & checker' & _ & _ & _ & _ & Hnone & _).
  exact (Hnone Hwatch).
Qed.

Lemma updated_keeps_status watch_id status button t row :
  last_status row <> None ->
  last_status (updated watch_id status button t row) <> None.
Proof.
  unfold updated. destruct (id row =? watch_id); [ discriminate | auto ].
Qed.

Lemma cycle_covers running watches :
  (forall i, running i = true) ->
  forall i ms (P : Z -> Prop),
    (forall row, In row (watched_sets (db ms)) -> P (id row) -> last_status row <> None) ->
    forall row',
      In row' (watched_sets (db (check_watches w running i watches ms))) ->
      P (id row') \/ In (id row') (map id watches) ->
      last_status row' <> None.
Proof.
  intro Hrun.
  induction watches as [ | watch rest IH ]; intros i ms P HP row' Hin Hcov;
    cbn [check_watches] in Hin.
  - destruct Hcov as [Hcov | []]. exact (HP row' Hin Hcov).
  - rewrite (Hrun i) in Hin. cbn [negb] in Hin.
    apply (IH (S i) (snd (_check_watch w watch ms))
              (fun k => P k \/ k = id watch)) with (row' := row'); [ | exact Hin | ].
    + destruct (check_watch_run watch ms) as (result & checker' & _ & _ & -> & _).
      rewrite DatabaseExtra.update_rows. intros row Hrow Hk.
      apply in_map_iff in Hrow. destruct Hrow as (r & <- & Hr).
      unfold updated in Hk |- *.
      destruct (id r =? id watch) eqn:E; [ discriminate | ].
      destruct Hk as [Hk | Hk]; [ exact (HP r Hr Hk) | ].
      apply Z.eqb_neq in E. contradiction.
    + cbn [map] in Hcov. destruct Hcov as [Hcov | [Hcov | Hcov]]; auto.
Qed.

(** X23. After a poll cycle that is not stopped, every watch has a
    stored status; and when no watch had one before (all are new), the cycle
    sends no notification. *)
Theorem first_cycle_records (running : nat -> bool) (ms : MonitorState) :
  (forall i, running i = true) ->
  (forall row,
      In row (watched_sets (db (_check_all_watches w running ms))) ->
      last_status row <> None)
  /\ (Forall (fun row => last_status row = None) (watched_sets (db ms)) ->
      sent (_check_all_watches w running ms) = sent ms).
Proof.
  intro Hrun. rewrite cycle_unfold. split.
  - intros row' Hin.
    apply (cycle_covers running (get_all_watches (db ms)) Hrun 0 ms (fun _ => False))
      with (row' := row'); [ intros ? ? [] | exact Hin | right ].
    apply in_map with (f := id) in Hin.
    rewrite (DatabaseExtra.identity_id _ _
               (proj1 (check_watches_shape running (get_all_watches (db ms)) 0 ms)))
      in Hin.
    apply Permutation_in with (l := map id (watched_sets (db ms))); [ | exact Hin ].
    apply Permutation_map, Permutation_sym, order_by_perm.
  - intro Hfresh. apply fresh_watches_silent.
    rewrite Forall_forall in Hfresh |- *. intros watch Hw. apply Hfresh.
    apply Permutation_in with (l := get_all_watches (db ms)); [ | exact Hw ].
    apply order_by_perm.
Qed.

Lemma settled_watches_silent running watches : forall i ms,
  Forall (settled w) watches ->
  sent (check_watches w running i watches ms) = sent ms.
Proof.
  induction watches as [ | watch rest IH ]; intros i ms Hset; cbn [check_watches];
    [ reflexivity | ].
  inversion Hset as [ | x xs Hwatch Hrest ]; subst.
  destruct (negb (running i)); [ reflexivity | ].
  rewrite (IH _ _ Hrest).
  destruct (check_watch_run watch ms)
    as (result & checker' & Hcheck & _ & _ & _ & _ & Hstep).
  apply Hstep. exact (Hwatch _ _ _ Hcheck).
Qed.

Lemma linked_identity watches rows rows' :
  map identity rows' = map identity rows -> linked watches rows -> linked watches rows'.
Proof.
  intros Hid Hlink watch row' Hw Hrow' Hsame.
  assert (Hin : In (identity row') (map identity rows))
    by (rewrite <- Hid; apply in_map; exact Hrow').
  apply in_map_iff in Hin. destruct Hin as (row & Heq & Hrow).
  unfold identity in Heq. injection Heq as Hi _ _ Hc _.
  rewrite <- Hc. apply (Hlink watch row Hw Hrow). congruence.
Qed.

Hypothesis Hstationary : stationary w.

Lemma cycle_settles running watches :
  (forall i, running i = true) ->
  forall i ms (P : Z -> Prop),
    linked watches (watched_sets (db ms)) ->
    (forall row, In row (watched_sets (db ms)) -> P (id row) -> settled w row) ->
    forall row',
      In row' (watched_sets (db (check_watches w running i watches ms))) ->
      P (id row') \/ In (id row') (map id watches) ->
      settled w row'.
Proof.
  intro Hrun.
  induction watches as [ | watch rest IH ]; intros i ms P Hlink HP row' Hin Hcov;
    cbn [check_watches] in Hin.
  - destruct Hcov as [Hcov | []]. exact (HP row' Hin Hcov).
  - rewrite (Hrun i) in Hin. cbn [negb] in Hin.
    assert (Hlink' : linked rest (watched_sets (db (snd (_check_watch w watch ms))))).
    { apply (linked_identity rest (watched_sets (db ms))).
      - apply check_watch_identity.
      - intros wt row Hwt. apply Hlink. right. exact Hwt. }
    apply (IH (S i) (snd (_check_watch w watch ms))
              (fun k => P k \/ k = id watch) Hlink') with (row' := row');
      [ | exact Hin | ].
    + destruct (check_watch_run watch ms)
        as (result & checker' & Hcheck & _ & -> & _).
      rewrite DatabaseExtra.update_rows. intros row Hrow Hk.
      apply in_map_iff in Hrow. destruct Hrow as (r & <- & Hr).
      unfold updated in Hk |- *.
      destruct (id r =? id watch) eqn:E.
      * apply Z.eqb_eq in E.
        intros st r2 st2 Hcheck2. cbn [set_code] in Hcheck2.
        rewrite (Hlink watch r (or_introl eq_refl) Hr E) in Hcheck2.
        pose proof (CheckerExtra.same_value_check w Hstationary (set_code watch)
                      st (lego_checker ms)) as Hsame.
        rewrite Hcheck2, Hcheck in Hsame. cbn [fst] in Hsame.
        injection Hsame as ->. split; reflexivity.
      * destruct Hk as [Hk | Hk]; [ exact (HP r Hr Hk) | ].
        apply Z.eqb_neq in E. contradiction.
    + cbn [map] in Hcov. destruct Hcov as [Hcov | [Hcov | Hcov]]; auto.
Qed.

(** X24. In a world whose answers do not change, a poll cycle that
    follows a complete poll cycle sends no notification: on a table whose
    row ids are distinct, two cycles in a row notify no more than one. *)
Theorem second_cycle_silent (running1 running2 : nat -> bool) (ms : MonitorState) :
  (forall i, running1 i = true) ->
  NoDup (map id (watched_sets (db ms))) ->
  sent (_check_all_watches w running2 (_check_all_watches w running1 ms))
  = sent (_check_all_watches w running1 ms).
Proof.
  intros Hrun Hnd.
  rewrite (cycle_unfold w running2).
  apply settled_watches_silent.
  rewrite Forall_forall. intros watch Hw.
  apply Permutation_in
    with (l' := watched_sets (db (_check_all_watches w running1 ms))) in Hw;
    [ | apply order_by_perm ].
  rewrite cycle_unfold in Hw.
  apply (cycle_settles running1 (get_all_watches (db ms)) Hrun 0 ms (fun _ => False))
    with (row' := watch); [ | intros ? ? [] | exact Hw | right ].
  - intros wt row Hwt Hrow Hsame.
    apply Permutation_in with (l' := watched_sets (db ms)) in Hwt;
      [ | apply order_by_perm ].
    assert (Heq : row = wt); [ | rewrite Heq; reflexivity ].
    pose proof (DatabaseExtra.find_by_id _ row Hnd Hrow) as H1.
    pose proof (DatabaseExtra.find_by_id _ wt Hnd Hwt) as H2.
    rewrite Hsame in H1. rewrite H1 in H2. injection H2 as ->. reflexivity.
  - apply in_map with (f := id) in Hw.
    rewrite (DatabaseExtra.identity_id _ _
               (proj1 (check_watches_shape running1 (get_all_watches (db ms)) 0 ms)))
      in Hw.
    apply Permutation_in with (l := map id (watched_sets (db ms))); [ | exact Hw ].
    apply Permutation_map, Permutation_sym, order_by_perm.
Qed.

End Cycle.

Lemma first_cycle_records_witness :
  Forall (fun row => last_status row <> None)
         (watched_sets
            (db (_check_all_watches (serving sample_page) always_running
                   two_watch_monitor))).
Proof.
  apply Forall_forall.
  apply (first_cycle_records (serving sample_page) always_running two_watch_monitor).
  intro i. reflexivity.
Defined.

Lemma second_cycle_silent_witness :
  sent (_check_all_watches (serving sample_page) always_running
          (_check_all_watches (serving sample_page) always_running two_watch_monitor))
  = sent (_check_all_watches (serving sample_page) always_running two_watch_monitor).
Proof.
  apply (second_cycle_silent (serving sample_page)).
  - intros n m u. reflexivity.
  - intro i. reflexivity.
  - cbn. repeat constructor; cbn; intuition discriminate.
Defined.

Example two_cycles :
  map (fun row => (id row, last_status row, last_button_detected row))
      (watched_sets (db (_check_all_watches (serving sample_page) always_running
                           two_watch_monitor)))
  = [(1, Some in_stock, Some "Add to Bag"); (2, Some in_stock, Some "Add to Bag")]
  /\ length (sent (_check_all_watches (serving sample_page) always_running
                     two_watch_monitor)) = 1%nat.
Proof. vm_compute. split; reflexivity. Qed.

End MonitorExtra.

(* ================================================================== *)
(** ** Further properties: headings and commands *)
(* ================================================================== *)

Module BotExtra.

Import Database Monitor Bot.
Open Scope Z_scope.

Section Commands.

Variable w : World.

(** X25. For an answer of [check_stock], the heading of a status
    notification and the mark of the check command follow the status alone:
    the test on [available] never changes them; and for the three stock
    statuses the notification has the colour the command gives the status. *)
Theorem heading_follows_status (set_code : string) (st : State) r st' :
  check_stock w set_code st = (Returns r, st') ->
  fst (status_heading (status r) (available r))
  = match status r with
    | in_stock => Now_In_Stock
    | out_of_stock => Out_Of_Stock
    | pre_order => Available_For_PreOrder
    | unknown | error => Status_Changed
    end
  /\ get_status_emoji (status r) (available r)
     = match status r with
       | in_stock => Check_Mark
       | out_of_stock => Cross_Mark
       | pre_order => Alarm_Clock
       | error => Warning_Sign
       | unknown => Question_Mark
       end
  /\ (status r = in_stock \/ status r = out_of_stock \/ status r = pre_order ->
      snd (status_heading (status r) (available r)) = get_status_color (status r)).
Proof.
  intro Hrun.
  pose proof (CheckerExtra.checked_available w set_code st r st' Hrun) as [Hav Hin].
  unfold status_heading, get_status_emoji, get_status_color.
  destruct (status r) eqn:Hs; destruct (available r) eqn:Ha;
    try (specialize (Hav eq_refl); discriminate);
    try (specialize (Hin eq_refl); discriminate);
    cbn; repeat split; try reflexivity;
    intros [H | [H | H]]; discriminate.
Qed.

(** X26. The [watch] command always answers. When no page was delivered
    during its check, it answers "could not find" and stores nothing; when
    it answers "added", the status it shows is not [error] and a row of the
    triple is in the table. *)
Theorem watch_needs_a_page (user_id : Z) (guild_id : option Z) (set_code : string)
        (st : State) (db : Db) :
  exists reply st' db',
    watch w user_id guild_id set_code st db = (Returns reply, st', db')
    /\ (forall new : list Event,
           log st' = (log st ++ new)%list ->
           Forall (fun e => delivered e = None) new ->
           reply = Could_Not_Find /\ db' = db)
    /\ (forall r,
           reply = Added_To_Watchlist r ->
           status r <> error
           /\ violates_unique user_id guild_id set_code db' = true).
Proof.
  unfold watch.
  destruct (CheckerFacts.check_stock_spec w set_code st)
    as (r & st' & new0 & -> & Hops & Hcases).
  apply CheckerFacts.paced_ops_log in Hops.
  destruct (Status_eqb (status r) error) eqn:Herr.
  - do 3 eexists. split; [ reflexivity | ]. split; [ auto | discriminate ].
  - destruct Hcases as [[_ ->] | (e & soup & Hin & Hsome & _)]; [ discriminate | ].
    unfold add_watch.
    destruct (0 <? count_triple user_id guild_id set_code
                     (insert_or_ignore user_id guild_id set_code (now st') db))
      eqn:Hcount.
    + do 3 eexists. split; [ reflexivity | ]. split.
      * intros new Hlog Hnone. rewrite Hops in Hlog.
        apply app_inv_head in Hlog. subst new0.
        rewrite Forall_forall in Hnone. rewrite (Hnone e Hin) in Hsome. discriminate.
      * intros r' Hr. injection Hr as <-. split.
        -- intro H. apply Status_eqb_eq in H. congruence.
        -- unfold violates_unique. unfold count_triple in Hcount.
           rewrite DatabaseExtra.existsb_positive in Hcount. exact Hcount.
    + do 3 eexists. split; [ reflexivity | ]. split; [ | discriminate ].
      intros new Hlog Hnone. rewrite Hops in Hlog.
      apply app_inv_head in Hlog. subst new0.
      rewrite Forall_forall in Hnone. rewrite (Hnone e Hin) in Hsome. discriminate.
Qed.

(** X27. In a guild, when [watch] answers "added" for a triple that was
    not in the table, [unwatch] of the same triple answers "removed" and
    leaves the rows the table had before. *)
Theorem watch_then_unwatch (user_id guild : Z) (set_code : string)
        (st : State) (db : Db) r st' db' :
  violates_unique user_id (Some guild) set_code db = false ->
  watch w user_id (Some guild) set_code st db
  = (Returns (Added_To_Watchlist r), st', db') ->
  unwatch user_id (Some guild) set_code db'
  = (Removed, mkDb (watched_sets db) (sqlite_sequence db + 1)).
Proof.
  intros Habsent. unfold watch.
  destruct (check_stock w set_code st) as [[r0 | msg] st0]; [ | discriminate ].
  destruct (Status_eqb (status r0) error); [ discriminate | ].
  destruct (add_watch user_id set_code (Some guild) (now st0) db)
    as [success db1] eqn:Hadd.
  destruct success; [ | discriminate ].
  intro H. injection H as _ _ <-.
  assert (Hdb : db1 = snd (add_watch user_id set_code (Some guild) (now st0) db))
    by (rewrite Hadd; reflexivity).
  unfold unwatch. rewrite Hdb, (DatabaseExtra.add_remove_rows _ _ _ _ _ Habsent).
  reflexivity.
Qed.

End Commands.

Lemma heading_follows_status_witness :
  fst (status_heading in_stock true) = Now_In_Stock.
Proof.
  destruct (heading_follows_status (serving sample_page) "72152"
              (LEGOChecker (serving sample_page) 2000 t0)
              (page_result "https://www.lego.com/en-us/product/72152" sample_page "72152")
              (snd (check_stock (serving sample_page) "72152"
                      (LEGOChecker (serving sample_page) 2000 t0))))
    as (Hheading & _).
  - vm_compute. reflexivity.
  - exact Hheading.
Defined.

Lemma watch_needs_a_page_witness :
  exists reply st' db',
    watch unreachable 7 (Some 42) "72152" (LEGOChecker unreachable 2000 t0) empty
    = (Returns reply, st', db')
    /\ reply = Could_Not_Find /\ db' = empty.
Proof.
  destruct (watch_needs_a_page unreachable 7 (Some 42) "72152"
              (LEGOChecker unreachable 2000 t0) empty)
    as (reply & st' & db' & Hrun & Hnone & _).
  exists reply, st', db'. split; [ exact Hrun | ].
  apply (Hnone (skipn 1 (log st'))).
  - assert (Hst : st' = snd (fst (watch unreachable 7 (Some 42) "72152"
                                    (LEGOChecker unreachable 2000 t0) empty)))
      by (rewrite Hrun; reflexivity).
    rewrite Hst. vm_compute. reflexivity.
  - assert (Hst : st' = snd (fst (watch unreachable 7 (Some 42) "72152"
                                    (LEGOChecker unreachable 2000 t0) empty)))
      by (rewrite Hrun; reflexivity).
    rewrite Hst. vm_compute. repeat constructor.
Defined.

Lemma watch_then_unwatch_witness :
  unwatch 7 (Some 42) "72152"
    (snd (watch (serving sample_page) 7 (Some 42) "72152"
            (LEGOChecker (serving sample_page) 2000 t0) empty))
  = (Removed, mkDb [] 1).
Proof.
  apply (watch_then_unwatch (serving sample_page) 7 42 "72152"
           (LEGOChecker (serving sample_page) 2000 t0) empty
           (page_result "https://www.lego.com/en-us/product/72152" sample_page "72152")
           (snd (fst (watch (serving sample_page) 7 (Some 42) "72152"
                        (LEGOChecker (serving sample_page) 2000 t0) empty)))).
  - reflexivity.
  - vm_compute. reflexivity.
Defined.

End BotExtra.
